(** * vivacitypy: batching, aggregation and sensor-name normalisation

    A shallow embedding of [vivacitypy/client.py] and [vivacitypy/utils.py]
    together with the properties stated for them.

    Conventions of the embedding:
    - a [datetime] is naive and is the number of microseconds since
      [datetime.min]; it is valid from 0 to [datetime_max], and arithmetic
      that leaves this range, or builds a [timedelta] of more than
      999999999 days, raises [OverflowError] as in Python;
    - a Python [str] is a [string]; [lower], [upper] and [capitalize] act on
      the ASCII letters, so the embedding is that of the code on ASCII
      strings ([is_ascii]);
    - a Python [dict] that is only looked up is a [gmap]; a [dict] that is
      iterated is the list of its items in insertion order;
    - a [while] loop runs on fuel and answers [None] when the fuel is spent;
    - an expression that may raise evaluates in the error monad [exc];
    - the [count] column of a frame holds 64-bit integers and sums on it
      wrap around. *)

From Stdlib Require Import ZArith Lia Ascii String List.
From stdpp Require Import base option list strings gmap sorting.

Open Scope string_scope.
Open Scope nat_scope.
Open Scope list_scope.

(** ** Exceptions *)

Module Except.

(** The outcome of an expression that may raise. *)
Inductive exc (A : Type) : Type :=
  | Ok (a : A)
  | Raise (e : string).
Arguments Ok {A} a.
Arguments Raise {A} e.

#[global] Instance exc_ret : MRet exc := fun A a => Ok a.
#[global] Instance exc_bind : MBind exc := fun A B f m =>
  match m with
  | Ok a => f a
  | Raise e => Raise e
  end.

End Except.

(** ** client.py: splitting a date range and a list of identifiers *)

Module Batching.
Import Except.

(** A naive [datetime]: the microseconds since [datetime.min], which is
    0001-01-01T00:00:00. *)
Definition datetime := Z.

(** [datetime.max], 9999-12-31T23:59:59.999999: the last microsecond of
    day 3652059. *)
Definition datetime_max : Z := 315537897599999999%Z.

(** The length of [days] days, in microseconds. *)
Definition timedelta (days : Z) : Z := (days * 86400000000)%Z.

(** [timedelta(days=days)]: the constructor refuses more than 999999999
    days in either direction. *)
Definition timedelta_days (days : Z) : exc Z :=
  if (Z.abs days <=? 999999999)%Z then Ok (timedelta days)
  else Raise "OverflowError".

(** [d + delta] on a [datetime]: the sum must be a [datetime]. *)
Definition datetime_add (d : datetime) (delta : Z) : exc datetime :=
  if ((0 <=? d + delta) && (d + delta <=? datetime_max))%Z
  then Ok (d + delta)%Z
  else Raise "OverflowError".

(** [current + timedelta(days=max_days)]. *)
Definition advance (current : datetime) (max_days : Z) : exc datetime :=
  delta ← timedelta_days max_days; datetime_add current delta.

(** The dict [{"from": ..., "to": ...}] of one sub-range. *)
Record DateBatch := mkBatch { batch_from : datetime; batch_to : datetime }.

(** The [while current < to_date] loop of [batch_date_range]; [batches] is
    the list the loop appends to. The sum is computed before [min] clips
    it, so it may raise although the clipped value would be in range. *)
Fixpoint batch_loop (fuel : nat) (current to_date : datetime) (max_days : Z)
    (batches : list DateBatch) : option (exc (list DateBatch)) :=
  match fuel with
  | O => None
  | S fuel' =>
      if (current <? to_date)%Z then
        match advance current max_days with
        | Ok next =>
            let batch_end := Z.min next to_date in
            batch_loop fuel' batch_end to_date max_days
                       (batches ++ [mkBatch current batch_end])
        | Raise e => Some (Raise e)
        end
      else Some (Ok batches)
  end.

Definition batch_date_range (fuel : nat) (from_date to_date : datetime)
    (max_days : Z) : option (exc (list DateBatch)) :=
  batch_loop fuel from_date to_date max_days [].

(** [range(start, stop, step)] for a positive [step]; the loop of the
    iterator, which needs at most [stop - start] rounds. *)
Fixpoint range_loop (fuel start stop step : nat) : list nat :=
  match fuel with
  | O => []
  | S fuel' =>
      if start <? stop then start :: range_loop fuel' (start + step) stop step
      else []
  end.

Definition py_range (start stop step : nat) : list nat :=
  range_loop (stop - start) start stop step.

(** [l[i:j]] for [0 <= i <= j]: indices past the end are clipped. *)
Definition slice {A} (l : list A) (i j : nat) : list A :=
  take (j - i) (drop i l).

(** [[ids[i:i + size] for i in range(0, len(ids), size)]]. *)
Definition chunks {A} (size : nat) (ids : list A) : list (list A) :=
  map (fun i => slice ids i (i + size)) (py_range 0 (length ids) size).

(** The identifier batching of [get_counts] and [get_speed]. *)
Definition id_batches (countline_ids : list string) : list (list string) :=
  chunks 50 countline_ids.

(** Ceiling of a quotient of naturals. *)
Definition ceil_div (n d : nat) : nat := (n + (d - 1)) / d.

(** Ceiling of a quotient of integers, for a positive divisor. *)
Definition cdiv (a d : Z) : Z := ((a + d - 1) / d)%Z.

(** The last sum the loop computes for a non-empty range and a positive
    [max_days]: the start of the range plus as many whole steps as there
    are sub-ranges. *)
Definition last_sum (from_date to_date max_days : Z) : Z :=
  (from_date +
   cdiv (to_date - from_date) (timedelta max_days) * timedelta max_days)%Z.

(** *** Properties of [batch_loop] *)

(** A list of sub-ranges tiles [lo, hi) with spans of at most [span]. *)
Fixpoint tiles (span lo hi : Z) (bs : list DateBatch) : Prop :=
  match bs with
  | [] => lo = hi
  | b :: rest =>
      batch_from b = lo /\ (batch_from b < batch_to b)%Z /\
      (batch_to b - batch_from b <= span)%Z /\ (batch_to b <= hi)%Z /\
      tiles span (batch_to b) hi rest
  end.

Lemma cdiv_step a d : (0 < d)%Z -> cdiv (a + d) d = (cdiv a d + 1)%Z.
Proof.
  intros Hd. unfold cdiv.
  replace (a + d + d - 1)%Z with (a + d - 1 + 1 * d)%Z by lia.
  by rewrite Z.div_add by lia.
Qed.

Lemma cdiv_one a d : (0 < a <= d)%Z -> cdiv a d = 1%Z.
Proof.
  intros Ha. unfold cdiv. symmetry.
  apply (Z.div_unique _ _ _ (a - 1)); lia.
Qed.

Lemma cdiv_pos a d : (0 < d)%Z -> (0 < a)%Z -> (1 <= cdiv a d)%Z.
Proof.
  intros Hd Ha. unfold cdiv.
  apply Z.div_le_lower_bound; lia.
Qed.

Lemma advance_ok current max_days :
  (Z.abs max_days <= 999999999)%Z ->
  (0 <= current + timedelta max_days <= datetime_max)%Z ->
  advance current max_days = Ok (current + timedelta max_days)%Z.
Proof.
  intros Hdays Hsum. unfold advance, timedelta_days, datetime_add.
  destruct (Z.leb_spec (Z.abs max_days) 999999999); [|lia]. simpl.
  destruct (Z.leb_spec 0 (current + timedelta max_days)); [|lia].
  destruct (Z.leb_spec (current + timedelta max_days) datetime_max); [|lia].
  done.
Qed.

Lemma advance_overflow current max_days :
  (999999999 < Z.abs max_days)%Z \/
  (current + timedelta max_days < 0)%Z \/
  (datetime_max < current + timedelta max_days)%Z ->
  advance current max_days = Raise "OverflowError".
Proof.
  intros Hout. unfold advance, timedelta_days, datetime_add.
  destruct (Z.leb_spec (Z.abs max_days) 999999999); [|done]. simpl.
  destruct (Z.leb_spec 0 (current + timedelta max_days)); [|done].
  destruct (Z.leb_spec (current + timedelta max_days) datetime_max); [|done].
  lia.
Qed.

Lemma batch_loop_acc fuel current to_date max_days acc :
  batch_loop fuel current to_date max_days acc =
  match batch_loop fuel current to_date max_days [] with
  | Some (Ok bs) => Some (Ok (acc ++ bs))
  | r => r
  end.
Proof.
  revert current acc. induction fuel as [|fuel IH]; intros current acc; simpl.
  - reflexivity.
  - destruct (current <? to_date)%Z; [|by rewrite app_nil_r].
    destruct (advance current max_days) as [next|e]; [|done].
    rewrite IH. rewrite (IH _ [mkBatch _ _]).
    destruct (batch_loop fuel _ to_date max_days []) as [[bs|e]|]; simpl.
    + by rewrite <- app_assoc.
    + reflexivity.
    + reflexivity.
Qed.

Lemma batch_loop_step fuel current to_date max_days next :
  (current < to_date)%Z -> advance current max_days = Ok next ->
  batch_loop (S fuel) current to_date max_days [] =
  match batch_loop fuel (Z.min next to_date) to_date max_days [] with
  | Some (Ok bs) => Some (Ok (mkBatch current (Z.min next to_date) :: bs))
  | r => r
  end.
Proof.
  intros Hlt Hnext. simpl. apply Z.ltb_lt in Hlt. rewrite Hlt, Hnext.
  by rewrite batch_loop_acc.
Qed.

Lemma batch_loop_done fuel current to_date max_days :
  (to_date <= current)%Z ->
  batch_loop (S fuel) current to_date max_days [] = Some (Ok []).
Proof.
  intros Hge. simpl. apply Z.ltb_ge in Hge. by rewrite Hge.
Qed.

(** More fuel never changes an outcome already obtained. *)
Lemma batch_loop_mono fuel fuel' current to_date max_days acc r :
  fuel <= fuel' ->
  batch_loop fuel current to_date max_days acc = Some r ->
  batch_loop fuel' current to_date max_days acc = Some r.
Proof.
  revert fuel' current acc.
  induction fuel as [|fuel IH]; intros fuel' current acc Hle Hrun.
  - discriminate.
  - destruct fuel' as [|fuel']; [lia|]. simpl in *.
    destruct (current <? to_date)%Z; [|done].
    destruct (advance current max_days) as [next|e]; [|done].
    apply IH; [lia | done].
Qed.

(** With a positive step whose last sum is a [datetime] the loop ends, and
    what it returns is a tiling, known sub-range by sub-range. *)
Lemma batch_loop_returns fuel current to_date max_days :
  (0 < max_days <= 999999999)%Z -> (0 <= current)%Z ->
  (to_date - current <= Z.of_nat fuel * timedelta max_days)%Z ->
  (current < to_date -> last_sum current to_date max_days <= datetime_max)%Z ->
  exists bs,
    batch_loop (S fuel) current to_date max_days [] = Some (Ok bs) /\
    (current < to_date -> tiles (timedelta max_days) current to_date bs)%Z /\
    (forall i b, bs !! i = Some b ->
       batch_from b = (current + Z.of_nat i * timedelta max_days)%Z /\
       batch_to b =
         Z.min (current + (Z.of_nat i + 1) * timedelta max_days) to_date /\
       (batch_from b < to_date)%Z) /\
    (current < to_date ->
     Z.of_nat (length bs) = cdiv (to_date - current) (timedelta max_days))%Z /\
    (to_date <= current -> bs = [])%Z.
Proof.
  intros Hdays. unfold last_sum.
  assert (0 < timedelta max_days)%Z as Hstep by (unfold timedelta; lia).
  revert current. induction fuel as [|fuel IH]; intros current Hcur Hfuel Hfit.
  - exists []. rewrite batch_loop_done by lia.
    split; [done|]. split; [lia|]. split; [done|]. split; [lia|done].
  - destruct (Z.lt_ge_cases current to_date) as [Hlt|Hge].
    + specialize (Hfit Hlt).
      pose proof (cdiv_pos (to_date - current) _ Hstep ltac:(lia)) as Hk.
      rewrite (batch_loop_step _ _ _ _ (current + timedelta max_days)%Z)
        by (try apply advance_ok; nia).
      set (batch_end := Z.min (current + timedelta max_days) to_date).
      destruct (IH batch_end) as (bs & Hrun & Htile & Hidx & Hlen & Hnil).
      { subst batch_end. lia. }
      { subst batch_end. lia. }
      { intros Hmore.
        assert (batch_end = current + timedelta max_days)%Z as ->
          by (subst batch_end; lia).
        replace (to_date - current)%Z
          with (to_date - (current + timedelta max_days)
                + timedelta max_days)%Z in Hfit by lia.
        rewrite cdiv_step in Hfit by done. lia. }
      exists (mkBatch current batch_end :: bs). rewrite Hrun.
      split; [done|]. split; [|split; [|split; [|lia]]].
      * intros _. simpl.
        split; [done|]. split; [subst batch_end; lia|].
        split; [subst batch_end; lia|]. split; [subst batch_end; lia|].
        destruct (Z.lt_ge_cases batch_end to_date) as [Hlt'|Hge'].
        -- by apply Htile.
        -- rewrite (Hnil Hge'). simpl. subst batch_end. lia.
      * intros [|i] b Hb; simpl in Hb.
        -- injection Hb as <-. simpl. subst batch_end. split; [lia|].
           split; [f_equal; lia | done].
        -- destruct (Hidx i b Hb) as (Hfrom & Hto & Hin).
           assert (batch_end < to_date)%Z as Hmore.
           { destruct (Z.lt_ge_cases batch_end to_date) as [?|Hdone]; [done|].
             rewrite (Hnil Hdone) in Hb. done. }
           assert (batch_end = current + timedelta max_days)%Z as Hend
             by (subst batch_end; lia).
           rewrite Hfrom, Hto, Hend. split; [lia|]. split; [f_equal; lia | lia].
      * intros _. simpl length. rewrite Nat2Z.inj_succ.
        destruct (Z.lt_ge_cases batch_end to_date) as [Hmore|Hdone].
        -- rewrite (Hlen Hmore).
           assert (batch_end = current + timedelta max_days)%Z as ->
             by (subst batch_end; lia).
           replace (to_date - current)%Z
             with (to_date - (current + timedelta max_days)
                   + timedelta max_days)%Z by lia.
           rewrite cdiv_step by done. lia.
        -- rewrite (Hnil Hdone). simpl.
           rewrite cdiv_one; [done|]. subst batch_end. lia.
    + exists []. rewrite batch_loop_done by done.
      split; [done|]. split; [lia|]. split; [done|]. split; [lia|done].
Qed.

(** With a positive step whose last sum is past [datetime.max], or a step
    of more than 999999999 days, the loop is left by an [OverflowError]. *)
Lemma batch_loop_overflows fuel current to_date max_days acc :
  (0 < max_days)%Z -> (0 <= current < to_date)%Z ->
  (to_date - current <= Z.of_nat fuel * timedelta max_days)%Z ->
  (999999999 < max_days \/
   datetime_max < last_sum current to_date max_days)%Z ->
  batch_loop (S fuel) current to_date max_days acc =
    Some (Raise "OverflowError").
Proof.
  intros Hpos. unfold last_sum.
  assert (0 < timedelta max_days)%Z as Hstep by (unfold timedelta; lia).
  revert current acc.
  induction fuel as [|fuel IH]; intros current acc Hcur Hfuel Hout; [lia|].
  cbn [batch_loop].
  destruct (Z.ltb_spec current to_date) as [_|?]; [|lia].
  destruct (Z_le_gt_dec max_days 999999999) as [Hdays|Hdays];
    [|by rewrite advance_overflow by lia].
  destruct (Z_le_gt_dec (current + timedelta max_days) datetime_max)
    as [Hsum|Hsum]; [|by rewrite advance_overflow by lia].
  rewrite advance_ok by lia.
  destruct Hout as [?|Hout]; [lia|].
  destruct (Z.lt_ge_cases (current + timedelta max_days) to_date)
    as [Hmore|Hdone].
  - rewrite Z.min_l by lia. apply IH; [lia | lia |]. right.
    replace (to_date - current)%Z
      with (to_date - (current + timedelta max_days)
            + timedelta max_days)%Z in Hout by lia.
    rewrite cdiv_step in Hout by done. lia.
  - rewrite cdiv_one in Hout by lia. lia.
Qed.

Lemma advance_inv current max_days next :
  advance current max_days = Ok next ->
  next = (current + timedelta max_days)%Z.
Proof.
  unfold advance, timedelta_days, datetime_add.
  destruct (Z.abs max_days <=? 999999999)%Z; [|done]. simpl.
  destruct (_ && _); [|done]. by intros [= <-].
Qed.

Lemma advance_raises current max_days e :
  advance current max_days = Raise e -> e = "OverflowError".
Proof.
  unfold advance, timedelta_days, datetime_add.
  destruct (Z.abs max_days <=? 999999999)%Z; simpl; [|by intros [= <-]].
  destruct (_ && _); [done|]. by intros [= <-].
Qed.

(** With a positive step the loop always ends, with a list or with an
    [OverflowError]. *)
Lemma batch_loop_ends fuel current to_date max_days acc :
  (0 < max_days)%Z ->
  (to_date - current <= Z.of_nat fuel * timedelta max_days)%Z ->
  exists r,
    batch_loop (S fuel) current to_date max_days acc = Some r /\
    (forall e, r = Raise e -> e = "OverflowError").
Proof.
  intros Hpos.
  assert (0 < timedelta max_days)%Z as Hstep by (unfold timedelta; lia).
  revert current acc.
  induction fuel as [|fuel IH]; intros current acc Hfuel; cbn [batch_loop].
  - destruct (Z.ltb_spec current to_date); [lia|]. by eexists.
  - destruct (Z.ltb_spec current to_date) as [Hlt|Hge]; [|by eexists].
    destruct (advance current max_days) as [next|e] eqn:Hnext.
    + apply advance_inv in Hnext as ->. apply IH. lia.
    + apply advance_raises in Hnext as ->. eexists. split; [done|].
      by intros e [= <-].
Qed.

(** With a step of no days the loop never ends: no amount of fuel yields
    an outcome. *)
Lemma batch_loop_diverges fuel current to_date acc :
  (0 <= current <= datetime_max)%Z -> (current < to_date)%Z ->
  batch_loop fuel current to_date 0 acc = None.
Proof.
  intros Hcur Hlt. revert acc.
  induction fuel as [|fuel IH]; intros acc; simpl; [done|].
  pose proof Hlt as Hb. apply Z.ltb_lt in Hb. rewrite Hb.
  rewrite advance_ok by (unfold timedelta; lia).
  unfold timedelta. rewrite Z.min_l by lia.
  replace (current + 0 * 86400000000)%Z with current by lia.
  apply IH.
Qed.

(** With a negative step the loop walks back in time until the sum falls
    before [datetime.min]. *)
Lemma batch_loop_backwards fuel current to_date max_days acc :
  (max_days < 0)%Z -> (current < to_date)%Z -> (current <= datetime_max)%Z ->
  (current + (Z.of_nat fuel + 1) * timedelta max_days < 0)%Z ->
  batch_loop (S fuel) current to_date max_days acc =
    Some (Raise "OverflowError").
Proof.
  intros Hneg.
  assert (timedelta max_days < 0)%Z as Hstep by (unfold timedelta; lia).
  revert current acc.
  induction fuel as [|fuel IH]; intros current acc Hlt Hmax Hfuel;
    cbn [batch_loop];
    (destruct (Z.ltb_spec current to_date) as [_|?]; [|lia]).
  - by rewrite advance_overflow by lia.
  - destruct (Z_le_gt_dec (Z.abs max_days) 999999999) as [Hdays|Hdays];
      [|by rewrite advance_overflow by lia].
    destruct (Z_le_gt_dec 0 (current + timedelta max_days)) as [Hsum|Hsum];
      [|by rewrite advance_overflow by lia].
    rewrite advance_ok by lia. rewrite Z.min_l by lia.
    apply IH; lia.
Qed.

Lemma tiles_nonempty span lo hi bs :
  (lo < hi)%Z -> tiles span lo hi bs ->
  exists b rest, bs = b :: rest /\ batch_from b = lo.
Proof.
  destruct bs as [|b rest]; simpl; [lia|]. intros _ (Hb & _). eauto.
Qed.

Lemma tiles_adjacent span lo hi bs i b b' :
  tiles span lo hi bs ->
  bs !! i = Some b -> bs !! S i = Some b' -> batch_to b = batch_from b'.
Proof.
  revert lo i. induction bs as [|x rest IH]; intros lo i Ht Hi Hi'; [done|].
  destruct Ht as (_ & _ & _ & _ & Ht).
  destruct i as [|i]; simpl in *.
  - injection Hi as ->. destruct rest as [|y rest]; [done|].
    simpl in Hi'. injection Hi' as ->. by destruct Ht as (-> & _).
  - by eapply IH.
Qed.

Lemma tiles_span span lo hi bs b :
  tiles span lo hi bs -> b ∈ bs ->
  (batch_from b < batch_to b)%Z /\ (batch_to b - batch_from b <= span)%Z /\
  (lo <= batch_from b)%Z /\ (batch_to b <= hi)%Z.
Proof.
  revert lo. induction bs as [|x rest IH]; intros lo Ht Hin.
  - by apply elem_of_nil in Hin.
  - destruct Ht as (Hfrom & Hlt & Hspan & Hhi & Ht).
    apply elem_of_cons in Hin as [->|Hin]; [lia|].
    destruct (IH _ Ht Hin) as (? & ? & ? & ?). lia.
Qed.

Lemma tiles_last span lo hi bs b :
  tiles span lo hi bs -> last bs = Some b -> batch_to b = hi.
Proof.
  revert lo. induction bs as [|x rest IH]; intros lo Ht Hlast; [done|].
  destruct Ht as (_ & _ & _ & _ & Ht).
  destruct rest as [|y rest].
  - simpl in *. injection Hlast as ->. done.
  - by eapply IH.
Qed.

(** *** Properties of [chunks] *)

Lemma slice_step {A} (l : list A) start step :
  slice l start (start + step) = take step (drop start l).
Proof. unfold slice. f_equal. lia. Qed.

Lemma range_loop_concat {A} (l : list A) step fuel start :
  0 < step -> length l - start <= fuel ->
  concat (map (fun i => slice l i (i + step))
              (range_loop fuel start (length l) step)) = drop start l.
Proof.
  intros Hstep. revert start.
  induction fuel as [|fuel IH]; intros start Hfuel; simpl.
  - rewrite drop_ge; [done | lia].
  - destruct (Nat.ltb_spec start (length l)) as [Hlt|Hge]; simpl.
    + rewrite IH by lia. rewrite slice_step.
      rewrite <- drop_drop.
      apply take_drop.
    + rewrite drop_ge; [done | lia].
Qed.

Lemma ceil_div_step n d :
  0 < d -> 0 < n -> ceil_div n d = S (ceil_div (n - d) d).
Proof.
  intros Hd Hn. unfold ceil_div.
  destruct (Nat.le_gt_cases d n) as [Hle|Hgt].
  - replace (n + (d - 1)) with ((n - d + (d - 1)) + 1 * d) by lia.
    rewrite Nat.div_add by lia. lia.
  - replace (n - d) with 0 by lia. rewrite (Nat.div_small (0 + _)) by lia.
    symmetry. apply (Nat.div_unique _ _ _ (n - 1)); lia.
Qed.

Lemma range_loop_length fuel start stop step :
  0 < step -> stop - start <= fuel ->
  length (range_loop fuel start stop step) = ceil_div (stop - start) step.
Proof.
  intros Hstep. revert start.
  induction fuel as [|fuel IH]; intros start Hfuel; simpl.
  - replace (stop - start) with 0 by lia.
    unfold ceil_div. rewrite Nat.div_small; lia.
  - destruct (Nat.ltb_spec start stop) as [Hlt|Hge]; simpl.
    + rewrite IH by lia. rewrite (ceil_div_step (stop - start)) by lia.
      do 2 f_equal. lia.
    + replace (stop - start) with 0 by lia.
      unfold ceil_div. rewrite Nat.div_small; lia.
Qed.

Lemma chunks_concat {A} size (ids : list A) :
  0 < size -> concat (chunks size ids) = ids.
Proof.
  intros Hsize. unfold chunks, py_range.
  by rewrite range_loop_concat by lia.
Qed.

Lemma chunks_length {A} size (ids : list A) :
  0 < size -> length (chunks size ids) = ceil_div (length ids) size.
Proof.
  intros Hsize. unfold chunks, py_range.
  rewrite length_map, range_loop_length by lia. f_equal. lia.
Qed.

Lemma chunks_bounded {A} size (ids : list A) :
  Forall (fun group => length group <= size) (chunks size ids).
Proof.
  unfold chunks. apply Forall_map, Forall_forall. intros i _. simpl.
  rewrite slice_step, length_take. lia.
Qed.

(** Every group holds at least one identifier. *)
Lemma range_loop_below fuel start stop step i :
  i ∈ range_loop fuel start stop step -> i < stop.
Proof.
  revert start. induction fuel as [|fuel IH]; intros start; simpl.
  - by intros ?%elem_of_nil.
  - destruct (Nat.ltb_spec start stop) as [Hlt|Hge].
    + intros [->|Hin]%elem_of_cons; [done | by eapply IH].
    + by intros ?%elem_of_nil.
Qed.

Lemma chunks_nonempty {A} size (ids : list A) :
  0 < size -> Forall (fun group => group <> []) (chunks size ids).
Proof.
  intros Hsize. unfold chunks. apply Forall_map, Forall_forall.
  intros i Hi%range_loop_below. simpl. rewrite slice_step.
  intros Hnil. apply (f_equal length) in Hnil.
  rewrite length_take, length_drop in Hnil. simpl in Hnil. lia.
Qed.

(** *** The two partitions *)

(** The outcome of [batch_date_range] for a positive [max_days]: the call
    always ends, with a list when the last sum of the loop is a
    [datetime] and with an [OverflowError] otherwise. *)
Lemma batch_date_range_outcome (from_date to_date max_days : Z) :
  (0 < max_days)%Z -> (0 <= from_date)%Z ->
  exists n outcome,
    (forall fuel, n <= fuel ->
       batch_date_range fuel from_date to_date max_days = Some outcome) /\
    (outcome = Raise "OverflowError" <->
     (from_date < to_date)%Z /\
     (999999999 < max_days \/
      datetime_max < last_sum from_date to_date max_days)%Z) /\
    (forall e, outcome = Raise e -> e = "OverflowError").
Proof.
  intros Hpos Hfrom.
  set (n := Z.to_nat (to_date - from_date)).
  assert (to_date - from_date <= Z.of_nat n * timedelta max_days)%Z as Hfuel
    by (unfold timedelta; subst n; nia).
  destruct (Z.lt_ge_cases from_date to_date) as [Hlt|Hge].
  - destruct (Z_le_gt_dec max_days 999999999) as [Hdays|Hdays].
    + destruct (Z_le_gt_dec (last_sum from_date to_date max_days) datetime_max)
        as [Hfit|Hfit].
      * destruct (batch_loop_returns n from_date to_date max_days)
          as (bs & Hrun & _); [lia | lia | done | done |].
        exists (S n), (Ok bs). split; [|split; [|done]].
        -- intros fuel Hle. by apply (batch_loop_mono (S n)).
        -- split; [done | lia].
      * exists (S n), (Raise "OverflowError"). split; [|split].
        -- intros fuel Hle. apply (batch_loop_mono (S n)); [done|].
           apply batch_loop_overflows; [done | lia | done | lia].
        -- split; [lia | done].
        -- by intros e [= <-].
    + exists (S n), (Raise "OverflowError"). split; [|split].
      * intros fuel Hle. apply (batch_loop_mono (S n)); [done|].
        apply batch_loop_overflows; [done | lia | done | lia].
      * split; [lia | done].
      * by intros e [= <-].
  - exists 1, (Ok []). split; [|split; [|done]].
    + intros fuel Hle. apply (batch_loop_mono 1); [done|].
      by apply batch_loop_done.
    + split; [done | lia].
Qed.

Lemma batch_date_range_ends (from_date to_date max_days : Z) :
  (0 < max_days)%Z ->
  exists n outcome,
    (forall fuel, n <= fuel ->
       batch_date_range fuel from_date to_date max_days = Some outcome) /\
    (forall e, outcome = Raise e -> e = "OverflowError").
Proof.
  intros Hpos.
  destruct (batch_loop_ends (Z.to_nat (to_date - from_date)) from_date
              to_date max_days [] Hpos) as (r & Hrun & Hexc).
  { unfold timedelta. nia. }
  exists (S (Z.to_nat (to_date - from_date))), r. split; [|done].
  intros fuel Hfuel.
  by apply (batch_loop_mono (S (Z.to_nat (to_date - from_date)))).
Qed.

(** C1, on its own input: the range from 9999-12-30 to 9999-12-31 is not
    empty and both ends are dates Python has, yet with [max_days = 7] the
    call returns no list: the first sum, [from_date] plus seven days, is
    past [datetime.max] and raises [OverflowError] before [min] clips it. *)
Lemma batch_date_range_overflow :
  (timedelta 3652057 < timedelta 3652058)%Z /\
  (0 <= timedelta 3652057)%Z /\ (timedelta 3652058 <= datetime_max)%Z /\
  batch_date_range 1 (timedelta 3652057) (timedelta 3652058) 7 =
    Some (Raise "OverflowError") /\
  ~ (exists fuel bs,
       batch_date_range fuel (timedelta 3652057) (timedelta 3652058) 7 =
         Some (Ok bs)).
Proof.
  split; [reflexivity|]. split; [discriminate|]. split; [discriminate|].
  split; [reflexivity|].
  intros ([|fuel] & bs & Hrun); [discriminate|].
  unfold batch_date_range in Hrun.
  rewrite (batch_loop_mono 1 (S fuel) _ _ _ _ (Raise "OverflowError")) in Hrun;
    [discriminate | lia | reflexivity].
Qed.

(** C1, amended. For [from_date < to_date] and [0 < max_days <= 999999999]
    such that the last sum of the loop, [from_date] plus as many times
    [max_days] days as there are sub-ranges, is not past [datetime.max],
    [batch_date_range] returns (with enough fuel, whatever the amount) a
    list of sub-ranges whose first element starts at [from_date], in which
    each end is the next start, each sub-range is non-empty and spans at
    most [max_days] days, and whose last element ends at [to_date]; when
    the last sum is past [datetime.max], or [max_days] is more than
    999999999, it raises [OverflowError]; for [from_date = to_date] it
    returns the empty list. *)
Theorem batch_date_range_tiles (from_date to_date max_days : Z) :
  ((from_date < to_date)%Z -> (0 < max_days <= 999999999)%Z ->
   (0 <= from_date)%Z ->
   (last_sum from_date to_date max_days <= datetime_max)%Z ->
   exists n bs,
     (forall fuel, n <= fuel ->
        batch_date_range fuel from_date to_date max_days = Some (Ok bs)) /\
     (exists b0, head bs = Some b0 /\ batch_from b0 = from_date) /\
     (forall i b b', bs !! i = Some b -> bs !! S i = Some b' ->
        batch_to b = batch_from b') /\
     (forall b, b ∈ bs ->
        (batch_from b < batch_to b)%Z /\
        (batch_to b - batch_from b <= timedelta max_days)%Z /\
        (from_date <= batch_from b)%Z /\ (batch_to b <= to_date)%Z) /\
     (exists bl, last bs = Some bl /\ batch_to bl = to_date)) /\
  ((from_date < to_date)%Z -> (0 < max_days)%Z -> (0 <= from_date)%Z ->
   (999999999 < max_days \/
    datetime_max < last_sum from_date to_date max_days)%Z ->
   exists n, forall fuel, n <= fuel ->
     batch_date_range fuel from_date to_date max_days =
       Some (Raise "OverflowError")) /\
  (from_date = to_date ->
   forall fuel, 0 < fuel ->
     batch_date_range fuel from_date to_date max_days = Some (Ok [])).
Proof.
  set (n := Z.to_nat (to_date - from_date)).
  split; [|split].
  - intros Hlt Hdays Hfrom Hfit.
    destruct (batch_loop_returns n from_date to_date max_days Hdays Hfrom)
      as (bs & Hrun & Htile & _); [unfold timedelta; subst n; nia | done |].
    specialize (Htile Hlt).
    exists (S n), bs. split; [|split; [|split; [|split]]].
    + intros fuel Hfuel. unfold batch_date_range.
      by apply (batch_loop_mono (S n)).
    + destruct (tiles_nonempty _ _ _ _ Hlt Htile) as (b & rest & -> & Hb).
      by exists b.
    + intros i b b'. by apply (tiles_adjacent _ _ _ _ _ _ _ Htile).
    + intros b. by apply tiles_span.
    + destruct (tiles_nonempty _ _ _ _ Hlt Htile) as (b & rest & -> & _).
      destruct (last (b :: rest)) as [bl|] eqn:Hlast.
      * exists bl. split; [done|]. by eapply tiles_last.
      * by apply last_None in Hlast.
  - intros Hlt Hpos Hfrom Hout. exists (S n). intros fuel Hfuel.
    apply (batch_loop_mono (S n)); [done|].
    apply batch_loop_overflows; [done | lia | | done].
    unfold timedelta. subst n. nia.
  - intros -> [|fuel] Hfuel; [lia|].
    unfold batch_date_range. apply batch_loop_done. lia.
Qed.

Lemma batch_date_range_tiles_witness :
  (0 < timedelta 15)%Z /\ (0 < 7 <= 999999999)%Z /\
  (last_sum 0 (timedelta 15) 7 <= datetime_max)%Z /\
  exists n bs,
    (forall fuel, n <= fuel ->
       batch_date_range fuel 0%Z (timedelta 15) 7%Z = Some (Ok bs)) /\
    (exists b0, head bs = Some b0 /\ batch_from b0 = 0%Z) /\
    (forall i b b', bs !! i = Some b -> bs !! S i = Some b' ->
       batch_to b = batch_from b') /\
    (forall b, b ∈ bs ->
       (batch_from b < batch_to b)%Z /\
       (batch_to b - batch_from b <= timedelta 7)%Z /\
       (0 <= batch_from b)%Z /\ (batch_to b <= timedelta 15)%Z) /\
    (exists bl, last bs = Some bl /\ batch_to bl = timedelta 15).
Proof.
  split; [reflexivity|]. split; [done|]. split; [discriminate|].
  apply (proj1 (batch_date_range_tiles 0%Z (timedelta 15) 7%Z));
    [reflexivity | done | done | discriminate].
Defined.

(** C2. The identifier batching yields [ceil(N/50)] groups of at most 50
    identifiers each, and concatenating the groups in order gives the
    original list back. *)
Theorem id_batches_partition (countline_ids : list string) :
  length (id_batches countline_ids) = ceil_div (length countline_ids) 50 /\
  Forall (fun group => length group <= 50) (id_batches countline_ids) /\
  concat (id_batches countline_ids) = countline_ids.
Proof.
  unfold id_batches. split; [|split].
  - apply chunks_length. lia.
  - apply chunks_bounded.
  - apply chunks_concat. lia.
Qed.

(** *** The sub-ranges in closed form *)

(** X1. For [from_date < to_date] and [0 < max_days <= 999999999] whose
    last sum is not past [datetime.max], the result of [batch_date_range]
    is known in closed form: there are
    [ceil((to_date - from_date) / max_days days)] sub-ranges, the [i]-th
    starts [i * max_days] days after [from_date] and ends [max_days] days
    later or at [to_date], whichever is earlier; so every sub-range but the
    last spans exactly [max_days] days. *)
Theorem batch_date_range_closed_form (from_date to_date max_days : Z) :
  (from_date < to_date)%Z -> (0 < max_days <= 999999999)%Z ->
  (0 <= from_date)%Z ->
  (last_sum from_date to_date max_days <= datetime_max)%Z ->
  exists n bs,
    (forall fuel, n <= fuel ->
       batch_date_range fuel from_date to_date max_days = Some (Ok bs)) /\
    Z.of_nat (length bs) = cdiv (to_date - from_date) (timedelta max_days) /\
    (forall i b, bs !! i = Some b ->
       batch_from b = (from_date + Z.of_nat i * timedelta max_days)%Z /\
       batch_to b =
         Z.min (from_date + (Z.of_nat i + 1) * timedelta max_days) to_date) /\
    (forall i b, bs !! i = Some b -> S i < length bs ->
       (batch_to b - batch_from b = timedelta max_days)%Z).
Proof.
  intros Hlt Hdays Hfrom Hfit.
  set (n := Z.to_nat (to_date - from_date)).
  destruct (batch_loop_returns n from_date to_date max_days Hdays Hfrom)
    as (bs & Hrun & _ & Hidx & Hlen & _);
    [unfold timedelta; subst n; nia | done |].
  exists (S n), bs. split; [|split; [|split]].
  - intros fuel Hfuel. unfold batch_date_range.
    by apply (batch_loop_mono (S n)).
  - by apply Hlen.
  - intros i b Hb. destruct (Hidx i b Hb) as (? & ? & _). done.
  - intros i b Hb Hnext.
    destruct (lookup_lt_is_Some_2 bs (S i) Hnext) as [b' Hb'].
    destruct (Hidx i b Hb) as (Hfrom_b & Hto & _).
    destruct (Hidx (S i) b' Hb') as (Hfrom' & _ & Hin').
    rewrite Hfrom_b, Hto. rewrite Hfrom' in Hin'. lia.
Qed.

Lemma batch_date_range_closed_form_witness :
  (0 < timedelta 15)%Z /\ (0 < 7 <= 999999999)%Z /\ (0 <= 0)%Z /\
  (last_sum 0 (timedelta 15) 7 <= datetime_max)%Z /\
  exists n bs,
    (forall fuel, n <= fuel ->
       batch_date_range fuel 0%Z (timedelta 15) 7%Z = Some (Ok bs)) /\
    Z.of_nat (length bs) = cdiv (timedelta 15 - 0) (timedelta 7) /\
    (forall i b, bs !! i = Some b ->
       batch_from b = (0 + Z.of_nat i * timedelta 7)%Z /\
       batch_to b = Z.min (0 + (Z.of_nat i + 1) * timedelta 7) (timedelta 15)) /\
    (forall i b, bs !! i = Some b -> S i < length bs ->
       (batch_to b - batch_from b = timedelta 7)%Z).
Proof.
  split; [reflexivity|]. split; [done|]. split; [done|].
  split; [discriminate|].
  apply (batch_date_range_closed_form 0%Z (timedelta 15) 7%Z);
    [reflexivity | done | done | discriminate].
Defined.

(** X2. A step that is not positive never gives a list for a non-empty
    range that starts at a [datetime]: with [max_days = 0] the loop never
    reaches [to_date] and the call does not end, whatever the fuel; with
    [max_days < 0] the loop walks back in time and the call ends with the
    [OverflowError] of the first sum before [datetime.min]. *)
Theorem batch_date_range_not_positive (from_date to_date max_days : Z) :
  (max_days <= 0)%Z -> (from_date < to_date)%Z ->
  (0 <= from_date <= datetime_max)%Z ->
  (max_days = 0%Z ->
   forall fuel, batch_date_range fuel from_date to_date max_days = None) /\
  ((max_days < 0)%Z ->
   exists n, forall fuel, n <= fuel ->
     batch_date_range fuel from_date to_date max_days =
       Some (Raise "OverflowError")).
Proof.
  intros Hneg Hlt Hfrom. split.
  - intros -> fuel. unfold batch_date_range. by apply batch_loop_diverges.
  - intros Hback. exists (S (Z.to_nat from_date)). intros fuel Hfuel.
    apply (batch_loop_mono (S (Z.to_nat from_date))); [done|].
    apply batch_loop_backwards; [done | done | lia |].
    unfold timedelta. nia.
Qed.

Lemma batch_date_range_not_positive_witness :
  (0 <= 0)%Z /\ (-1 <= 0)%Z /\ (timedelta 2 < timedelta 3)%Z /\
  (0 <= timedelta 2 <= datetime_max)%Z /\
  (forall fuel, batch_date_range fuel (timedelta 2) (timedelta 3) 0 = None) /\
  (exists n, forall fuel, n <= fuel ->
     batch_date_range fuel (timedelta 2) (timedelta 3) (-1) =
       Some (Raise "OverflowError")).
Proof.
  split; [done|]. split; [discriminate|]. split; [reflexivity|].
  assert (0 <= timedelta 2 <= datetime_max)%Z as Hfrom by done.
  split; [exact Hfrom|]. split.
  - apply (batch_date_range_not_positive (timedelta 2) (timedelta 3) 0);
      [done | reflexivity | exact Hfrom | reflexivity].
  - apply (batch_date_range_not_positive (timedelta 2) (timedelta 3) (-1));
      [discriminate | reflexivity | exact Hfrom | reflexivity].
Defined.

(** *** The identifier groups in closed form *)

Lemma range_loop_lookup fuel start stop step i x :
  range_loop fuel start stop step !! i = Some x ->
  x = start + i * step /\ x < stop.
Proof.
  revert start i. induction fuel as [|fuel IH]; intros start i; simpl; [done|].
  destruct (Nat.ltb_spec start stop) as [Hlt|Hge]; [|done].
  destruct i as [|i]; simpl.
  - intros [= <-]. lia.
  - intros Hx. destruct (IH _ _ Hx) as [-> ?]. lia.
Qed.

(** X3. The [i]-th identifier group is the slice of the next 50 identifiers
    from position [50 * i]; no group is empty, and every group but the last
    holds exactly 50 identifiers. *)
Theorem id_batches_groups (countline_ids : list string) (i : nat)
    (group : list string) :
  id_batches countline_ids !! i = Some group ->
  group = take 50 (drop (50 * i) countline_ids) /\
  group <> [] /\
  (S i < length (id_batches countline_ids) -> length group = 50).
Proof.
  unfold id_batches, chunks. intros Hg.
  rewrite list_lookup_fmap in Hg.
  destruct (py_range 0 (length countline_ids) 50 !! i) as [x|] eqn:Hx;
    [|done].
  injection Hg as <-. unfold py_range in *.
  destruct (range_loop_lookup _ _ _ _ _ _ Hx) as [-> Hlt].
  rewrite slice_step. replace (0 + i * 50) with (50 * i) in * by lia.
  split; [done|]. split.
  - intros Hnil%(f_equal length).
    rewrite length_take, length_drop in Hnil.
    change (length (@nil string)) with 0 in Hnil. lia.
  - rewrite length_fmap. intros Hnext.
    destruct (lookup_lt_is_Some_2 _ _ Hnext) as [y Hy].
    destruct (range_loop_lookup _ _ _ _ _ _ Hy) as [-> Hlt'].
    rewrite length_take, length_drop. lia.
Qed.

Lemma id_batches_groups_witness :
  let ids := replicate 120 "7" in
  id_batches ids !! 1 = Some (replicate 50 "7") /\
  replicate 50 "7" = take 50 (drop (50 * 1) ids) /\
  replicate 50 "7" <> [] /\
  (S 1 < length (id_batches ids) -> length (replicate 50 "7") = 50).
Proof.
  intros ids.
  assert (id_batches ids !! 1 = Some (replicate 50 "7")) as Hg by reflexivity.
  split; [exact Hg|].
  exact (id_batches_groups ids 1 (replicate 50 "7") Hg).
Defined.

End Batching.

(** ** utils.py: the parts of a sensor name *)

Module Names.

(** *** Characters and the [str] methods used *)

Definition code (c : ascii) : nat := nat_of_ascii c.

Definition is_lower_az (c : ascii) : bool := (97 <=? code c) && (code c <=? 122).
Definition is_upper_AZ (c : ascii) : bool := (65 <=? code c) && (code c <=? 90).
Definition is_digit (c : ascii) : bool := (48 <=? code c) && (code c <=? 57).

(** The characters [str.split()] splits on: tab, line feed, vertical tab,
    form feed, carriage return, the four separators 28..31 and the space. *)
Definition is_space (c : ascii) : bool :=
  ((9 <=? code c) && (code c <=? 13)) || ((28 <=? code c) && (code c <=? 32)).

Definition to_lower (c : ascii) : ascii :=
  if is_upper_AZ c then ascii_of_nat (code c + 32) else c.

Definition to_upper (c : ascii) : ascii :=
  if is_lower_az c then ascii_of_nat (code c - 32) else c.

Fixpoint string_map (f : ascii -> ascii) (s : string) : string :=
  match s with
  | EmptyString => EmptyString
  | String c t => String (f c) (string_map f t)
  end.

(** [s.lower()] and [s.upper()]. *)
Definition lower (s : string) : string := string_map to_lower s.
Definition upper (s : string) : string := string_map to_upper s.

(** [s.capitalize()]: first character upper case, the others lower case. *)
Definition capitalize (s : string) : string :=
  match s with
  | EmptyString => EmptyString
  | String c t => String (to_upper c) (lower t)
  end.

(** [s.startswith(p)]. *)
Fixpoint starts_with (p s : string) : bool :=
  match p with
  | EmptyString => true
  | String a p' =>
      match s with
      | EmptyString => false
      | String b s' => Ascii.eqb a b && starts_with p' s'
      end
  end.

(** [sub in s]: [sub] starts at some position of [s]. *)
Fixpoint contains (sub s : string) : bool :=
  starts_with sub s ||
  match s with
  | EmptyString => false
  | String _ t => contains sub t
  end.

(** [s.split(sep)]: every occurrence of [sep] ends a field; [cur] is the
    field being read. *)
Fixpoint split_fields (sep : ascii) (cur s : string) : list string :=
  match s with
  | EmptyString => [cur]
  | String c t =>
      if Ascii.eqb c sep then cur :: split_fields sep EmptyString t
      else split_fields sep (cur +:+ String c EmptyString) t
  end.

Definition split_on (sep : ascii) (s : string) : list string :=
  split_fields sep EmptyString s.

(** [s.split(sep, 1)]: only the first occurrence of [sep] splits. *)
Fixpoint split_first_field (sep : ascii) (cur s : string) : list string :=
  match s with
  | EmptyString => [cur]
  | String c t =>
      if Ascii.eqb c sep then [cur; t]
      else split_first_field sep (cur +:+ String c EmptyString) t
  end.

Definition split_once (sep : ascii) (s : string) : list string :=
  split_first_field sep EmptyString s.

(** [s.split()]: runs of white space separate the words, and no word is
    empty. *)
Fixpoint split_words (cur s : string) : list string :=
  match s with
  | EmptyString => match cur with EmptyString => [] | _ => [cur] end
  | String c t =>
      if is_space c then
        match cur with
        | EmptyString => split_words EmptyString t
        | _ => cur :: split_words EmptyString t
        end
      else split_words (cur +:+ String c EmptyString) t
  end.

Definition split_ws (s : string) : list string := split_words EmptyString s.

(** [sep.join(words)]. *)
Definition join (sep : string) (words : list string) : string :=
  String.concat sep words.

(** [re.sub(r'(X)(Y)', r'\1 \2', s)] for two one-character classes [X] and
    [Y]: the scan goes left to right, and after a match it resumes behind the
    two characters matched. *)
Fixpoint sub_pair_space (X Y : ascii -> bool) (s : string) : string :=
  match s with
  | EmptyString => EmptyString
  | String a t =>
      match t with
      | EmptyString => String a EmptyString
      | String b t' =>
          if X a && Y b
          then String a (String " " (String b (sub_pair_space X Y t')))
          else String a (sub_pair_space X Y t)
      end
  end.

(** [re.match(r'^[Ss]\d+$', s)]; [$] matches at the end of the string and
    also just before a line feed that ends it. *)
Fixpoint digits_to_end (s : string) : bool :=
  match s with
  | EmptyString => true
  | String c t =>
      (is_digit c && digits_to_end t) ||
      (Ascii.eqb c "010" && match t with EmptyString => true | _ => false end)
  end.

Definition match_cordon (s : string) : bool :=
  match s with
  | String c (String d t) =>
      (Ascii.eqb c "S" || Ascii.eqb c "s") && is_digit d && digits_to_end t
  | _ => false
  end.

(** [re.sub(r'[nsew]$', '', s)]. *)
Definition is_compass (c : ascii) : bool :=
  Ascii.eqb c "n" || Ascii.eqb c "s" || Ascii.eqb c "e" || Ascii.eqb c "w".

Definition at_end (s : string) : bool :=
  match s with
  | EmptyString => true
  | String c EmptyString => Ascii.eqb c "010"
  | _ => false
  end.

Fixpoint strip_compass (s : string) : string :=
  match s with
  | EmptyString => EmptyString
  | String c t =>
      if is_compass c && at_end t then t else String c (strip_compass t)
  end.

(** Truth value of an [Optional[str]]: [None] and [''] are false. *)
Definition truthy (s : option string) : bool :=
  match s with
  | None | Some EmptyString => false
  | Some _ => true
  end.

(** *** format_road_name *)

Definition road_type_abbrevs : gmap string string :=
  list_to_map
    [ ("st", "Street"); ("ln", "Lane"); ("rd", "Road"); ("ave", "Avenue");
      ("dr", "Drive"); ("ct", "Court"); ("pl", "Place");
      ("cres", "Crescent"); ("cr", "Crescent"); ("gr", "Grove");
      ("pk", "Park"); ("sq", "Square"); ("terr", "Terrace");
      ("jnt", "Junction"); ("way", "Way") ].

(** The words of the name once the two substitutions have put the spaces
    in: [result.split()]. *)
Definition spaced_words (camel_case : string) : list string :=
  let result := sub_pair_space is_lower_az is_upper_AZ camel_case in
  let result := sub_pair_space is_digit is_upper_AZ result in
  split_ws result.

(** The [if words:] block: [words[-1]] is replaced by its expansion when its
    lower-case form is a key of the table. *)
Definition expand_last (words : list string) : list string :=
  match last words with
  | Some w =>
      let last_word := lower w in
      match road_type_abbrevs !! last_word with
      | Some full => <[length words - 1 := full]> words
      | None => words
      end
  | None => words
  end.

Definition format_road_name (camel_case : string) : string :=
  match camel_case with
  | EmptyString => camel_case
  | _ =>
      let words := spaced_words camel_case in
      let words := expand_last words in
      join " " (map capitalize words)
  end.

(** *** extract_camera_id *)

Definition ParsedName : Type :=
  option string * option string * option string * option string.

Definition camera_id_of (p : ParsedName) : option string := p.1.1.1.
Definition cordon_name_of (p : ParsedName) : option string := p.1.1.2.
Definition road_name_of (p : ParsedName) : option string := p.1.2.
Definition counter_type_of (p : ParsedName) : option string := p.2.

Definition segment_marks : list string :=
  ["_road"; "_path"; "_cyclepath"; "_cyclelane"; "_buslan"].

Definition extract_camera_id (sensor_name : option string) : ParsedName :=
  if negb (truthy sensor_name) then (None, None, None, None)
  else
    let sensor_name := default EmptyString sensor_name in
    let name_lower := lower sensor_name in
    let counter_type :=
      if contains "_crossing" name_lower then "crossing"
      else if existsb (fun x => contains x name_lower) segment_marks
           then "segment"
           else "unknown" in
    let parts := split_once "_" sensor_name in
    let '(cordon_name, name_body) :=
      match parts with
      | [p0; p1] =>
          if match_cordon p0 then (Some (upper p0), p1)
          else (None, sensor_name)
      | _ => (None, sensor_name)
      end in
    let body_parts := split_on "_" name_body in
    let '(road_name, raw_road_name) :=
      match body_parts with
      | raw :: _ => (Some (format_road_name raw), Some raw)
      | [] => (None, None)
      end in
    let location_id :=
      if truthy raw_road_name then lower (default EmptyString raw_road_name)
      else EmptyString in
    let location_id := strip_compass location_id in
    let camera_id :=
      if truthy cordon_name
      then default EmptyString cordon_name +:+ "_" +:+ location_id
      else location_id in
    (Some camera_id, cordon_name, road_name, Some counter_type).

(** *** Strings *)

#[local] Arguments String.append : simpl nomatch.

Lemma app_nil_r (s : string) : s +:+ "" = s.
Proof. induction s as [|c s IH]; simpl; [done | by rewrite IH]. Qed.

Lemma app_assoc (s1 s2 s3 : string) : (s1 +:+ s2) +:+ s3 = s1 +:+ (s2 +:+ s3).
Proof. induction s1 as [|c s1 IH]; simpl; [done | by rewrite IH]. Qed.

Lemma starts_with_app (p r : string) : starts_with p (p +:+ r) = true.
Proof.
  induction p as [|c p IH]; simpl; [done|].
  by rewrite Ascii.eqb_refl, IH.
Qed.

Lemma starts_with_inv (p s : string) :
  starts_with p s = true -> exists r, s = p +:+ r.
Proof.
  revert s. induction p as [|c p IH]; intros s Hp.
  - by exists s.
  - destruct s as [|d s]; simpl in Hp; [done|].
    apply andb_true_iff in Hp as [->%Ascii.eqb_eq Hp].
    destruct (IH _ Hp) as [r ->]. by exists r.
Qed.

(** [contains] decides whether [sub] occurs somewhere in [s]. *)
Lemma contains_here (sub s : string) :
  starts_with sub s = true -> contains sub s = true.
Proof. destruct s; simpl; by intros ->. Qed.

Lemma contains_app (sub a b : string) : contains sub (a +:+ sub +:+ b) = true.
Proof.
  induction a as [|c a IH]; simpl.
  - apply contains_here, starts_with_app.
  - rewrite IH. apply orb_true_r.
Qed.

Lemma contains_inv (sub s : string) :
  contains sub s = true -> exists a b, s = a +:+ sub +:+ b.
Proof.
  induction s as [|c s IH]; simpl.
  - rewrite orb_false_r. intros [r ->]%starts_with_inv. by exists "", r.
  - intros [Hp|Hc]%orb_true_iff.
    + apply starts_with_inv in Hp as [r ->]. by exists "", r.
    + destruct (IH Hc) as (a & b & ->). by exists (String c a), b.
Qed.

Lemma split_fields_cons sep cur s :
  exists w ws, split_fields sep cur s = w :: ws.
Proof.
  revert cur. induction s as [|c s IH]; intros cur; simpl; [by eauto|].
  destruct (Ascii.eqb c sep); [by eauto | apply IH].
Qed.

(** *** Words *)

Fixpoint no_space (s : string) : bool :=
  match s with
  | EmptyString => true
  | String c t => negb (is_space c) && no_space t
  end.

Definition word_ok (w : string) : Prop := w <> "" /\ no_space w = true.

Lemma no_space_app s1 s2 :
  no_space (s1 +:+ s2) = no_space s1 && no_space s2.
Proof.
  induction s1 as [|c s1 IH]; simpl; [done|].
  by rewrite IH, andb_assoc.
Qed.

Lemma to_upper_space c : is_space (to_upper c) = is_space c.
Proof. by destruct c as [[] [] [] [] [] [] [] []]. Qed.

Lemma to_lower_space c : is_space (to_lower c) = is_space c.
Proof. by destruct c as [[] [] [] [] [] [] [] []]. Qed.

Lemma lower_no_space s : no_space (lower s) = no_space s.
Proof.
  unfold lower. induction s as [|c s IH]; simpl; [done|].
  by rewrite to_lower_space, IH.
Qed.

Lemma capitalize_ok w : word_ok w -> word_ok (capitalize w).
Proof.
  intros [Hne Hns]. destruct w as [|c w]; [done|]. split; [done|].
  simpl in *. by rewrite to_upper_space, lower_no_space.
Qed.

Lemma split_words_app cur w rest :
  no_space w = true ->
  split_words cur (w +:+ rest) = split_words (cur +:+ w) rest.
Proof.
  revert cur. induction w as [|c w IH]; intros cur Hw; simpl.
  - by rewrite app_nil_r.
  - simpl in Hw. apply andb_true_iff in Hw as [Hc Hw].
    apply negb_true_iff in Hc. rewrite Hc, IH by done.
    by rewrite app_assoc.
Qed.

Lemma split_words_ok cur s :
  no_space cur = true -> Forall word_ok (split_words cur s).
Proof.
  revert cur. induction s as [|c s IH]; intros cur Hcur; simpl.
  - destruct cur; [constructor|]. by repeat constructor.
  - destruct (is_space c) eqn:Hc.
    + destruct cur; [by apply IH|].
      constructor; [done | by apply IH].
    + apply IH. rewrite no_space_app, Hcur. simpl. by rewrite Hc.
Qed.

Lemma split_words_sep cur c rest :
  is_space c = true -> cur <> "" ->
  split_words cur (String c rest) = cur :: split_words "" rest.
Proof. intros Hc Hne. simpl. rewrite Hc. by destruct cur. Qed.

(** Splitting what [join] has put together gives the words back. *)
Lemma split_ws_join (words : list string) :
  Forall word_ok words -> split_ws (join " " words) = words.
Proof.
  unfold split_ws, join.
  induction words as [|w ws IH]; intros Hok; [done|].
  apply Forall_cons in Hok as [[Hne Hns] Hok].
  destruct ws as [|w' ws].
  - simpl. pose proof (split_words_app "" w "" Hns) as Hw.
    rewrite app_nil_r in Hw. rewrite Hw. simpl. by destruct w.
  - change (String.concat " " (w :: w' :: ws))
      with (w +:+ String " " (String.concat " " (w' :: ws))).
    rewrite split_words_app by done. change ("" +:+ w) with w.
    rewrite split_words_sep by done. by rewrite (IH Hok).
Qed.

Lemma road_type_abbrevs_ok k full :
  road_type_abbrevs !! k = Some full -> word_ok full.
Proof.
  unfold road_type_abbrevs. intros H%elem_of_list_to_map_2.
  repeat (apply elem_of_cons in H as [[= _ ->]|H]; [by split|]).
  by apply elem_of_nil in H.
Qed.

Lemma expand_last_length words : length (expand_last words) = length words.
Proof.
  unfold expand_last. destruct (last words); [|done].
  destruct (road_type_abbrevs !! _); [|done]. apply length_insert.
Qed.

Lemma expand_last_ok words :
  Forall word_ok words -> Forall word_ok (expand_last words).
Proof.
  intros Hok. unfold expand_last. destruct (last words); [|done].
  destruct (road_type_abbrevs !! _) eqn:E; [|done].
  apply Forall_insert; [done | by eapply road_type_abbrevs_ok].
Qed.

(** Only the last position can change. *)
Lemma expand_last_before words i :
  S i < length words -> expand_last words !! i = words !! i.
Proof.
  intros Hi. unfold expand_last. destruct (last words); [|done].
  destruct (road_type_abbrevs !! _); [|done].
  apply list_lookup_insert_ne. lia.
Qed.

Lemma expand_last_last words w :
  last words = Some w ->
  last (expand_last words) =
  Some (default w (road_type_abbrevs !! lower w)).
Proof.
  intros Hlast. unfold expand_last. rewrite Hlast.
  destruct (road_type_abbrevs !! _) eqn:E; simpl; [|done].
  rewrite last_lookup, length_insert.
  rewrite last_lookup in Hlast. apply lookup_lt_Some in Hlast as Hlt.
  replace (length words - 1) with (pred (length words)) by lia.
  by rewrite list_lookup_insert_eq.
Qed.

Lemma format_road_name_words camel_case :
  split_ws (format_road_name camel_case) =
  map capitalize (expand_last (spaced_words camel_case)).
Proof.
  destruct camel_case as [|c s]; [done|].
  unfold format_road_name. apply split_ws_join.
  apply Forall_map. eapply Forall_impl; [|apply capitalize_ok].
  apply expand_last_ok, split_words_ok. done.
Qed.

(** *** The parsed tuple *)

(** The counter type named by the lower-case form of the sensor name. *)
Definition classify (name_lower : string) : string :=
  if contains "_crossing" name_lower then "crossing"
  else if existsb (fun x => contains x name_lower) segment_marks
       then "segment"
       else "unknown".

(** For a non-empty name no component but the cordon can be null: the road
    name is the formatted first field of the body, the camera id a string. *)
Lemma extract_camera_id_shape (sensor_name : string) :
  sensor_name <> "" ->
  exists camera_id cordon_name raw_road_name,
    extract_camera_id (Some sensor_name) =
    (Some camera_id, cordon_name, Some (format_road_name raw_road_name),
     Some (classify (lower sensor_name))).
Proof.
  intros Hne. unfold extract_camera_id.
  replace (truthy (Some sensor_name)) with true by (by destruct sensor_name).
  cbv beta iota zeta delta [negb default from_option id].
  destruct (match split_once "_" sensor_name with
            | [p0; p1] =>
                if match_cordon p0 then (Some (upper p0), p1)
                else (None, sensor_name)
            | _ => (None, sensor_name)
            end) as [cordon_name name_body].
  unfold split_on.
  destruct (split_fields_cons "_" "" name_body) as (raw & rest & ->).
  by eexists _, cordon_name, raw.
Qed.

(** C5. [extract_camera_id] on the two Woodhouse Lane names: cordon, road
    name and counter type are those expected and both names share one camera
    id, but that id is ["S40_woodhousel"], since the trailing [n] of
    ["woodhouseln"] is removed as a compass letter. *)
Theorem extract_camera_id_woodhouse :
  extract_camera_id (Some "S40_WoodhouseLn_road_wyca001") =
    (Some "S40_woodhousel", Some "S40", Some "Woodhouse Lane", Some "segment") /\
  extract_camera_id (Some "S40_WoodhouseLn_pathLHS_wyca001") =
    (Some "S40_woodhousel", Some "S40", Some "Woodhouse Lane", Some "segment") /\
  strip_compass (lower "WoodhouseLn") = "woodhousel".
Proof. by vm_compute. Qed.

(** C6, as stated: the road name of the Vicar Lane crossing is not
    ["Vicar Lane"]. *)
Lemma extract_camera_id_vicar_lane_fails :
  ~ (cordon_name_of (extract_camera_id (Some "S40_Vicarln_crossing_south_lptip001")) = Some "S40" /\
     counter_type_of (extract_camera_id (Some "S40_Vicarln_crossing_south_lptip001")) = Some "crossing" /\
     road_name_of (extract_camera_id (Some "S40_Vicarln_crossing_south_lptip001")) = Some "Vicar Lane").
Proof. vm_compute. by intros (_ & _ & [=]). Qed.

(** C6, amended. The crossing name gives cordon ["S40"], counter type
    ["crossing"] and road name ["Vicarln"] (the token has no change of case,
    so no space is put in and nothing is expanded); and every name whose
    lower-case form contains ["_crossing"] is a crossing, whatever else it
    contains. *)
Theorem extract_camera_id_crossing :
  (cordon_name_of (extract_camera_id (Some "S40_Vicarln_crossing_south_lptip001")) = Some "S40" /\
   counter_type_of (extract_camera_id (Some "S40_Vicarln_crossing_south_lptip001")) = Some "crossing" /\
   road_name_of (extract_camera_id (Some "S40_Vicarln_crossing_south_lptip001")) = Some "Vicarln") /\
  forall sensor_name a b : string,
    lower sensor_name = a +:+ "_crossing" +:+ b ->
    counter_type_of (extract_camera_id (Some sensor_name)) = Some "crossing".
Proof.
  split; [by vm_compute|]. intros sensor_name a b Hlow.
  assert (sensor_name <> "") as Hne.
  { intros ->. by destruct a. }
  destruct (extract_camera_id_shape _ Hne) as (cam & cordon & raw & ->).
  unfold counter_type_of, classify. simpl.
  by rewrite Hlow, contains_app.
Qed.

Lemma extract_camera_id_crossing_witness :
  lower "S12_ParkRow_road_CROSSING_x" = "s12_parkrow_road" +:+ "_crossing" +:+ "_x" /\
  counter_type_of (extract_camera_id (Some "S12_ParkRow_road_CROSSING_x")) =
  Some "crossing".
Proof.
  split; [reflexivity|].
  apply (proj2 extract_camera_id_crossing
           "S12_ParkRow_road_CROSSING_x" "s12_parkrow_road" "_x").
  reflexivity.
Defined.

(** C7. The three sample road names, and for every input: the output has as
    many words as the name has after the spaces are put in, every word but
    the last is the capitalised input word, and the last is the capitalised
    expansion of the input's last word when that word is an abbreviation of
    the table, the capitalised word itself otherwise. *)
Theorem format_road_name_last_word_only :
  format_road_name "HunsletRd" = "Hunslet Road" /\
  format_road_name "parkRow" = "Park Row" /\
  format_road_name "StCeciliaSt" = "St Cecilia Street" /\
  forall camel_case : string,
    length (split_ws (format_road_name camel_case)) =
      length (spaced_words camel_case) /\
    (forall i w,
       S i < length (spaced_words camel_case) ->
       spaced_words camel_case !! i = Some w ->
       split_ws (format_road_name camel_case) !! i = Some (capitalize w)) /\
    (forall w,
       last (spaced_words camel_case) = Some w ->
       last (split_ws (format_road_name camel_case)) =
       Some (capitalize (default w (road_type_abbrevs !! lower w)))).
Proof.
  split; [by vm_compute|]. split; [by vm_compute|]. split; [by vm_compute|].
  intros camel_case. rewrite format_road_name_words. split; [|split].
  - by rewrite length_map, expand_last_length.
  - intros i w Hi Hw.
    by rewrite list_lookup_fmap, expand_last_before, Hw.
  - intros w Hw.
    rewrite last_lookup, length_map, list_lookup_fmap, <- last_lookup.
    by rewrite (expand_last_last _ w).
Qed.

Lemma format_road_name_last_word_only_witness :
  S 0 < length (spaced_words "StCeciliaSt") /\
  spaced_words "StCeciliaSt" !! 0 = Some "St" /\
  split_ws (format_road_name "StCeciliaSt") !! 0 = Some (capitalize "St") /\
  last (spaced_words "StCeciliaSt") = Some "St" /\
  last (split_ws (format_road_name "StCeciliaSt")) = Some "Street".
Proof.
  pose proof (proj2 (proj2 (proj2 format_road_name_last_word_only))
                "StCeciliaSt") as (_ & Hmid & Hlast).
  assert (S 0 < length (spaced_words "StCeciliaSt")) as Hlen
    by (vm_compute; lia).
  split; [exact Hlen|]. split; [reflexivity|].
  split; [exact (Hmid 0 "St" Hlen eq_refl)|].
  split; [reflexivity|]. exact (Hlast "St" eq_refl).
Defined.

(** C10. Splitting on underscores always yields at least one field, so for
    every non-empty sensor name the camera id, the road name and the counter
    type are not null; the tuple of four nulls is returned for the empty and
    the null name only. *)
Theorem extract_camera_id_not_null :
  (forall body : string, split_on "_" body <> []) /\
  (forall sensor_name : string,
     sensor_name <> "" ->
     exists camera_id road_name counter_type,
       camera_id_of (extract_camera_id (Some sensor_name)) = Some camera_id /\
       road_name_of (extract_camera_id (Some sensor_name)) = Some road_name /\
       counter_type_of (extract_camera_id (Some sensor_name)) =
         Some counter_type) /\
  (forall sensor_name : option string,
     extract_camera_id sensor_name = (None, None, None, None) <->
     sensor_name = None \/ sensor_name = Some "").
Proof.
  split; [|split].
  - intros body. unfold split_on.
    by destruct (split_fields_cons "_" "" body) as (w & ws & ->).
  - intros sensor_name Hne.
    destruct (extract_camera_id_shape _ Hne) as (cam & cordon & raw & ->).
    by eexists _, _, _.
  - intros [name|]; [|by split; [left|]].
    destruct (decide (name = "")) as [->|Hne].
    + by split; [right|].
    + destruct (extract_camera_id_shape _ Hne) as (cam & cordon & raw & ->).
      split; [done|]. by intros [|[=]].
Qed.

Lemma extract_camera_id_not_null_witness :
  "_" <> "" /\
  exists camera_id road_name counter_type,
    camera_id_of (extract_camera_id (Some "_")) = Some camera_id /\
    road_name_of (extract_camera_id (Some "_")) = Some road_name /\
    counter_type_of (extract_camera_id (Some "_")) = Some counter_type.
Proof.
  assert ("_" <> "") as Hne by discriminate.
  split; [exact Hne|].
  exact (proj1 (proj2 extract_camera_id_not_null) "_" Hne).
Defined.

(** *** Formatting twice *)

Ltac by_cases_on_char c :=
  destruct c as [[] [] [] [] [] [] [] []]; reflexivity.

Lemma to_upper_idem c : to_upper (to_upper c) = to_upper c.
Proof. by_cases_on_char c. Qed.

Lemma to_lower_idem c : to_lower (to_lower c) = to_lower c.
Proof. by_cases_on_char c. Qed.

Lemma to_lower_upper c : to_lower (to_upper c) = to_lower c.
Proof. by_cases_on_char c. Qed.

Lemma to_upper_lower c : to_upper (to_lower c) = to_upper c.
Proof. by_cases_on_char c. Qed.

Lemma to_lower_not_upper c : is_upper_AZ (to_lower c) = false.
Proof. by_cases_on_char c. Qed.

Lemma lower_idem s : lower (lower s) = lower s.
Proof.
  unfold lower. induction s as [|c s IH]; simpl; [done|].
  by rewrite to_lower_idem, IH.
Qed.

Lemma capitalize_idem w : capitalize (capitalize w) = capitalize w.
Proof.
  destruct w as [|c w]; simpl; [done|].
  by rewrite to_upper_idem, lower_idem.
Qed.

Lemma lower_capitalize w : lower (capitalize w) = lower w.
Proof.
  destruct w as [|c w]; [done|]. unfold lower. simpl.
  fold (lower w). fold (lower (lower w)).
  by rewrite to_lower_upper, lower_idem.
Qed.

(** No character of class [Y] follows one of class [X]. *)
Fixpoint no_pair (X Y : ascii -> bool) (s : string) : bool :=
  match s with
  | EmptyString => true
  | String a t =>
      match t with
      | EmptyString => true
      | String b _ => negb (X a && Y b) && no_pair X Y t
      end
  end.

Lemma sub_pair_space_none X Y s :
  no_pair X Y s = true -> sub_pair_space X Y s = s.
Proof.
  induction s as [|a t IH]; [done|]. destruct t as [|b t']; [done|].
  intros [Hab Ht]%andb_true_iff. apply negb_true_iff in Hab.
  change (sub_pair_space X Y (String a (String b t')))
    with (if X a && Y b
          then String a (String " " (String b (sub_pair_space X Y t')))
          else String a (sub_pair_space X Y (String b t'))).
  by rewrite Hab, (IH Ht).
Qed.

(** Upper-case letters stand only at the start or right after a space;
    [start] tells whether the next character is at such a place. *)
Fixpoint upper_at_starts (start : bool) (s : string) : bool :=
  match s with
  | EmptyString => true
  | String c t =>
      (negb (is_upper_AZ c) || start) && upper_at_starts (Ascii.eqb c " ") t
  end.

Lemma upper_at_starts_no_pair X start s :
  X " "%char = false ->
  upper_at_starts start s = true -> no_pair X is_upper_AZ s = true.
Proof.
  intros HX. revert start.
  induction s as [|a t IH]; intros start; [done|].
  destruct t as [|b t']; [done|].
  intros [_ Ht]%andb_true_iff.
  change (no_pair X is_upper_AZ (String a (String b t')))
    with (negb (X a && is_upper_AZ b) &&
          no_pair X is_upper_AZ (String b t')).
  rewrite (IH _ Ht), andb_true_r.
  simpl in Ht. apply andb_true_iff in Ht as [Hb _].
  destruct (Ascii.eqb_spec a " ") as [->|_].
  - by rewrite HX.
  - rewrite orb_false_r in Hb. apply negb_true_iff in Hb.
    by rewrite Hb, andb_false_r.
Qed.

Lemma upper_at_starts_lower start t rest :
  rest = "" \/ (exists r, rest = String " " r /\ upper_at_starts true r = true) ->
  upper_at_starts start (lower t +:+ rest) = true.
Proof.
  intros Hrest. revert start. unfold lower.
  induction t as [|c t IH]; intros start; simpl.
  - destruct Hrest as [->|(r & -> & Hr)]; [done|]. simpl. by rewrite Hr.
  - by rewrite to_lower_not_upper, IH.
Qed.

Lemma upper_at_starts_join (words : list string) :
  Forall (fun w => w <> "") words ->
  upper_at_starts true (join " " (capitalize <$> words)) = true.
Proof.
  unfold join. induction words as [|w ws IH]; intros Hne; [done|].
  apply Forall_cons in Hne as [Hw Hne]. destruct w as [|c t]; [done|].
  destruct ws as [|w' ws].
  - simpl. rewrite orb_true_r. simpl.
    rewrite <- (app_nil_r (lower t)). apply upper_at_starts_lower. by left.
  - change (String.concat " " (capitalize <$> String c t :: w' :: ws))
      with (String (to_upper c)
              (lower t +:+
               String " " (String.concat " " (capitalize <$> w' :: ws)))).
    simpl. rewrite orb_true_r. simpl.
    apply upper_at_starts_lower. right. eexists. split; [done|].
    by apply IH.
Qed.

(** An expansion of the table is not itself abbreviated further. *)
Lemma road_type_abbrevs_settled k full full' :
  road_type_abbrevs !! k = Some full ->
  road_type_abbrevs !! lower full = Some full' -> full' = full.
Proof.
  unfold road_type_abbrevs at 1. intros H%elem_of_list_to_map_2.
  repeat (apply elem_of_cons in H as [[= _ ->]|H];
          [vm_compute; congruence|]).
  by apply elem_of_nil in H.
Qed.

Lemma expand_last_settled words w full :
  last (expand_last words) = Some w ->
  road_type_abbrevs !! lower w = Some full -> full = w.
Proof.
  intros Hlast Hfull.
  destruct (last words) as [w0|] eqn:Hw0.
  - rewrite (expand_last_last _ _ Hw0) in Hlast.
    destruct (road_type_abbrevs !! lower w0) as [full0|] eqn:E.
    + change (Some full0 = Some w) in Hlast.
      assert (w = full0) as -> by congruence.
      by eapply road_type_abbrevs_settled.
    + change (Some w0 = Some w) in Hlast.
      assert (w = w0) as -> by congruence. congruence.
  - unfold expand_last in Hlast. rewrite Hw0 in Hlast. congruence.
Qed.

Lemma capitalize_expand_last_capitalize words :
  (forall w full, last words = Some w ->
     road_type_abbrevs !! lower w = Some full -> full = w) ->
  capitalize <$> expand_last (capitalize <$> words) = capitalize <$> words.
Proof.
  intros Hsettled.
  assert (capitalize <$> (capitalize <$> words) = capitalize <$> words)
    as Hidem.
  { rewrite <- list_fmap_compose.
    apply list_fmap_ext. intros. apply capitalize_idem. }
  unfold expand_last. rewrite fmap_last.
  destruct (last words) as [w|] eqn:Hw; [|exact Hidem].
  change (capitalize <$> Some w) with (Some (capitalize w)).
  cbv beta iota. rewrite lower_capitalize.
  destruct (road_type_abbrevs !! lower w) as [full|] eqn:E; [|exact Hidem].
  rewrite (Hsettled w full eq_refl E).
  rewrite list_fmap_insert, Hidem, length_fmap.
  apply list_insert_id. rewrite list_lookup_fmap.
  rewrite last_lookup in Hw.
  replace (length words - 1) with (pred (length words)) by lia.
  by rewrite Hw.
Qed.

Lemma spaced_words_formatted (words : list string) :
  Forall word_ok words ->
  spaced_words (join " " (capitalize <$> words)) = capitalize <$> words.
Proof.
  intros Hok. unfold spaced_words.
  assert (upper_at_starts true (join " " (capitalize <$> words)) = true) as Hup.
  { apply upper_at_starts_join. eapply Forall_impl; [done|]. by intros w []. }
  rewrite (sub_pair_space_none is_lower_az)
    by (by eapply upper_at_starts_no_pair).
  rewrite (sub_pair_space_none is_digit)
    by (by eapply upper_at_starts_no_pair).
  apply split_ws_join, Forall_fmap. eapply Forall_impl; [done|].
  apply capitalize_ok.
Qed.

Lemma format_road_name_formatted (words : list string) :
  Forall word_ok words ->
  (forall w full, last words = Some w ->
     road_type_abbrevs !! lower w = Some full -> full = w) ->
  format_road_name (join " " (capitalize <$> words)) =
  join " " (capitalize <$> words).
Proof.
  intros Hok Hsettled. unfold format_road_name.
  destruct (join " " (capitalize <$> words)) eqn:E; [done|]. rewrite <- E.
  rewrite spaced_words_formatted by done.
  change (map capitalize ?l) with (capitalize <$> l).
  by rewrite capitalize_expand_last_capitalize.
Qed.

(** The strings on which the embedding is that of the code: every
    character is an ASCII character. *)
Fixpoint is_ascii (s : string) : bool :=
  match s with
  | EmptyString => true
  | String c t => (code c <? 128) && is_ascii t
  end.

(** X4. On ASCII names [format_road_name] is idempotent: a formatted road
    name is left unchanged by formatting it again. *)
Theorem format_road_name_idempotent (camel_case : string) :
  is_ascii camel_case = true ->
  format_road_name (format_road_name camel_case) =
  format_road_name camel_case.
Proof.
  intros _. destruct camel_case as [|c s]; [done|].
  unfold format_road_name at 2 3.
  apply format_road_name_formatted.
  - by apply expand_last_ok, split_words_ok.
  - intros w full. apply expand_last_settled.
Qed.

Lemma format_road_name_idempotent_witness :
  is_ascii "StCeciliaSt" = true /\
  format_road_name "StCeciliaSt" = "St Cecilia Street" /\
  format_road_name (format_road_name "StCeciliaSt") =
    format_road_name "StCeciliaSt".
Proof.
  split; [reflexivity|]. split; [by vm_compute|].
  exact (format_road_name_idempotent "StCeciliaSt" eq_refl).
Defined.

(** X5. The output of [format_road_name] for an ASCII name is in normal
    form: its words are separated by single spaces, with no white space
    before the first or after the last, upper-case letters stand at the
    start of words only, and every word is its own capitalised form. *)
Theorem format_road_name_normal_form (camel_case : string) :
  is_ascii camel_case = true ->
  join " " (split_ws (format_road_name camel_case)) =
    format_road_name camel_case /\
  upper_at_starts true (format_road_name camel_case) = true /\
  Forall (fun w => capitalize w = w /\ w <> "" /\ no_space w = true)
         (split_ws (format_road_name camel_case)).
Proof.
  intros _. rewrite format_road_name_words.
  set (words := expand_last (spaced_words camel_case)).
  assert (Forall word_ok words) as Hok
    by (by apply expand_last_ok, split_words_ok).
  destruct camel_case as [|c s].
  - by repeat split.
  - unfold format_road_name. fold words. split; [done|]. split.
    + apply upper_at_starts_join. eapply Forall_impl; [done|]. by intros w [].
    + apply Forall_fmap. eapply Forall_impl; [done|].
      intros w Hw. simpl. split; [apply capitalize_idem|].
      by apply capitalize_ok.
Qed.

Lemma format_road_name_normal_form_witness :
  is_ascii "hunsletRd" = true /\
  format_road_name "hunsletRd" = "Hunslet Road" /\
  join " " (split_ws (format_road_name "hunsletRd")) =
    format_road_name "hunsletRd" /\
  upper_at_starts true (format_road_name "hunsletRd") = true.
Proof.
  split; [reflexivity|]. split; [by vm_compute|].
  destruct (format_road_name_normal_form "hunsletRd" eq_refl)
    as (Hjoin & Hupper & _).
  split; [exact Hjoin | exact Hupper].
Defined.

(** *** The fields a parsed name depends on *)

(** The text before the first underscore, and the text after it when there
    is one. *)
Fixpoint first_field (s : string) : string :=
  match s with
  | EmptyString => EmptyString
  | String c t =>
      if Ascii.eqb c "_" then EmptyString else String c (first_field t)
  end.

Fixpoint after_first (s : string) : option string :=
  match s with
  | EmptyString => None
  | String c t => if Ascii.eqb c "_" then Some t else after_first t
  end.

Lemma split_first_field_fields cur s :
  split_first_field "_" cur s =
  match after_first s with
  | Some rest => [cur +:+ first_field s; rest]
  | None => [cur +:+ first_field s]
  end.
Proof.
  revert cur. induction s as [|c t IH]; intros cur; simpl.
  - by rewrite app_nil_r.
  - destruct (Ascii.eqb c "_"); [by rewrite app_nil_r|].
    rewrite IH, app_assoc. done.
Qed.

Lemma split_fields_fields cur s :
  split_fields "_" cur s =
  (cur +:+ first_field s) ::
  match after_first s with
  | Some rest => split_fields "_" "" rest
  | None => []
  end.
Proof.
  revert cur. induction s as [|c t IH]; intros cur; simpl.
  - by rewrite app_nil_r.
  - destruct (Ascii.eqb c "_"); [by rewrite app_nil_r|].
    rewrite IH, app_assoc. done.
Qed.

Lemma split_on_first s : split_on "_" s !! 0 = Some (first_field s).
Proof. unfold split_on. by rewrite split_fields_fields. Qed.

Lemma split_on_second s :
  split_on "_" s !! 1 = first_field <$> after_first s.
Proof.
  unfold split_on. rewrite split_fields_fields.
  destruct (after_first s) as [rest|]; [|done].
  by rewrite split_fields_fields.
Qed.

Lemma match_cordon_upper_nonempty p :
  match_cordon p = true -> truthy (Some (upper p)) = true.
Proof. by destruct p as [|c [|d t]]. Qed.

(** The tuple in terms of the first two fields of the name. *)
Lemma extract_camera_id_fields (sensor_name : string) :
  sensor_name <> "" ->
  extract_camera_id (Some sensor_name) =
  match after_first sensor_name with
  | Some body =>
      if match_cordon (first_field sensor_name)
      then (Some (upper (first_field sensor_name) +:+ "_" +:+
                  strip_compass (lower (first_field body))),
            Some (upper (first_field sensor_name)),
            Some (format_road_name (first_field body)),
            Some (classify (lower sensor_name)))
      else (Some (strip_compass (lower (first_field sensor_name))), None,
            Some (format_road_name (first_field sensor_name)),
            Some (classify (lower sensor_name)))
  | None =>
      (Some (strip_compass (lower (first_field sensor_name))), None,
       Some (format_road_name (first_field sensor_name)),
       Some (classify (lower sensor_name)))
  end.
Proof.
  intros Hne.
  assert (forall raw, (if truthy (Some raw) then lower raw else "") = lower raw)
    as Hraw by (by intros []).
  unfold extract_camera_id.
  replace (truthy (Some sensor_name)) with true by (by destruct sensor_name).
  cbv beta iota zeta delta [negb default from_option id].
  unfold split_once. rewrite split_first_field_fields.
  destruct (after_first sensor_name) as [body|] eqn:Hbody.
  - change ("" +:+ first_field sensor_name) with (first_field sensor_name).
    destruct (match_cordon (first_field sensor_name)) eqn:Hcordon.
    + unfold split_on. rewrite split_fields_fields.
      change ("" +:+ first_field body) with (first_field body).
      rewrite Hraw, (match_cordon_upper_nonempty _ Hcordon). done.
    + unfold split_on. rewrite split_fields_fields.
      change ("" +:+ first_field sensor_name) with (first_field sensor_name).
      by rewrite Hraw.
  - unfold split_on. rewrite split_fields_fields.
    change ("" +:+ first_field sensor_name) with (first_field sensor_name).
    by rewrite Hraw.
Qed.

Lemma extract_camera_id_same_fields (name1 name2 : string) :
  name1 <> "" -> name2 <> "" ->
  first_field name1 = first_field name2 ->
  first_field <$> after_first name1 = first_field <$> after_first name2 ->
  camera_id_of (extract_camera_id (Some name1)) =
    camera_id_of (extract_camera_id (Some name2)) /\
  cordon_name_of (extract_camera_id (Some name1)) =
    cordon_name_of (extract_camera_id (Some name2)) /\
  road_name_of (extract_camera_id (Some name1)) =
    road_name_of (extract_camera_id (Some name2)).
Proof.
  intros Hne1 Hne2 Hfirst Hsecond.
  rewrite !extract_camera_id_fields by done. rewrite Hfirst.
  destruct (after_first name1) as [body1|], (after_first name2) as [body2|];
    simpl in Hsecond; try discriminate.
  - injection Hsecond as ->.
    by destruct (match_cordon (first_field name2)).
  - done.
Qed.

(** X6. The grouping rule: two non-empty sensor names with the same first
    two underscore-separated fields (the second may be missing in both) have
    the same camera id, the same cordon name and the same road name,
    whatever follows the second field. *)
Theorem extract_camera_id_grouping (name1 name2 : string) :
  name1 <> "" -> name2 <> "" ->
  split_on "_" name1 !! 0 = split_on "_" name2 !! 0 ->
  split_on "_" name1 !! 1 = split_on "_" name2 !! 1 ->
  camera_id_of (extract_camera_id (Some name1)) =
    camera_id_of (extract_camera_id (Some name2)) /\
  cordon_name_of (extract_camera_id (Some name1)) =
    cordon_name_of (extract_camera_id (Some name2)) /\
  road_name_of (extract_camera_id (Some name1)) =
    road_name_of (extract_camera_id (Some name2)).
Proof.
  rewrite !split_on_first, !split_on_second. intros Hne1 Hne2 [= Hfirst].
  by apply extract_camera_id_same_fields.
Qed.

Lemma extract_camera_id_grouping_witness :
  "S31_ParkRow_cyclelane_wyca002" <> "" /\
  "S31_ParkRow_crossing_north_wyca007" <> "" /\
  camera_id_of (extract_camera_id (Some "S31_ParkRow_cyclelane_wyca002")) =
    camera_id_of (extract_camera_id (Some "S31_ParkRow_crossing_north_wyca007")) /\
  cordon_name_of (extract_camera_id (Some "S31_ParkRow_cyclelane_wyca002")) =
    cordon_name_of (extract_camera_id (Some "S31_ParkRow_crossing_north_wyca007")) /\
  road_name_of (extract_camera_id (Some "S31_ParkRow_cyclelane_wyca002")) =
    road_name_of (extract_camera_id (Some "S31_ParkRow_crossing_north_wyca007")).
Proof.
  split; [discriminate|]. split; [discriminate|].
  apply (extract_camera_id_grouping "S31_ParkRow_cyclelane_wyca002"
           "S31_ParkRow_crossing_north_wyca007");
    [discriminate | discriminate | by vm_compute | by vm_compute].
Defined.

(** *** Letter case *)

Lemma to_lower_underscore c : Ascii.eqb (to_lower c) "_" = Ascii.eqb c "_".
Proof. by_cases_on_char c. Qed.

Lemma to_lower_digit c : is_digit (to_lower c) = is_digit c.
Proof. by_cases_on_char c. Qed.

Lemma to_lower_newline c : Ascii.eqb (to_lower c) "010" = Ascii.eqb c "010".
Proof. by_cases_on_char c. Qed.

Lemma to_lower_S c :
  Ascii.eqb (to_lower c) "S" || Ascii.eqb (to_lower c) "s" =
  Ascii.eqb c "S" || Ascii.eqb c "s".
Proof. by_cases_on_char c. Qed.

Lemma first_field_lower s : first_field (lower s) = lower (first_field s).
Proof.
  unfold lower. induction s as [|c t IH]; simpl; [done|].
  rewrite to_lower_underscore. destruct (Ascii.eqb c "_"); [done|].
  simpl. by rewrite IH.
Qed.

Lemma after_first_lower s : after_first (lower s) = lower <$> after_first s.
Proof.
  unfold lower. induction s as [|c t IH]; simpl; [done|].
  rewrite to_lower_underscore. by destruct (Ascii.eqb c "_").
Qed.

Lemma upper_lower s : upper (lower s) = upper s.
Proof.
  unfold upper, lower. induction s as [|c t IH]; simpl; [done|].
  by rewrite to_upper_lower, IH.
Qed.

Lemma digits_to_end_lower s :
  digits_to_end (string_map to_lower s) = digits_to_end s.
Proof.
  induction s as [|c t IH]; simpl; [done|].
  rewrite to_lower_digit, to_lower_newline, IH. by destruct t.
Qed.

Lemma match_cordon_lower p : match_cordon (lower p) = match_cordon p.
Proof.
  destruct p as [|c [|d t]]; [done..|]. unfold lower. simpl.
  by rewrite to_lower_S, to_lower_digit, digits_to_end_lower.
Qed.

Lemma lower_empty s : lower s = "" <-> s = "".
Proof. by destruct s. Qed.

Lemma extract_camera_id_lower (sensor_name : string) :
  camera_id_of (extract_camera_id (Some (lower sensor_name))) =
    camera_id_of (extract_camera_id (Some sensor_name)) /\
  cordon_name_of (extract_camera_id (Some (lower sensor_name))) =
    cordon_name_of (extract_camera_id (Some sensor_name)) /\
  counter_type_of (extract_camera_id (Some (lower sensor_name))) =
    counter_type_of (extract_camera_id (Some sensor_name)).
Proof.
  destruct (decide (sensor_name = "")) as [->|Hne]; [done|].
  assert (lower sensor_name <> "") as Hne' by (by rewrite lower_empty).
  rewrite !extract_camera_id_fields by done.
  rewrite after_first_lower, first_field_lower, match_cordon_lower.
  rewrite !lower_idem, upper_lower.
  destruct (after_first sensor_name) as [body|]; simpl; [|done].
  rewrite first_field_lower, lower_idem.
  by destruct (match_cordon (first_field sensor_name)).
Qed.

(** X7. Letter case does not matter for the identity of a camera: two
    sensor names that differ only in the case of their letters have the same
    camera id, the same cordon name and the same counter type. *)
Theorem extract_camera_id_case_insensitive (name1 name2 : string) :
  lower name1 = lower name2 ->
  camera_id_of (extract_camera_id (Some name1)) =
    camera_id_of (extract_camera_id (Some name2)) /\
  cordon_name_of (extract_camera_id (Some name1)) =
    cordon_name_of (extract_camera_id (Some name2)) /\
  counter_type_of (extract_camera_id (Some name1)) =
    counter_type_of (extract_camera_id (Some name2)).
Proof.
  intros Hlow.
  destruct (extract_camera_id_lower name1) as (<- & <- & <-).
  destruct (extract_camera_id_lower name2) as (<- & <- & <-).
  by rewrite Hlow.
Qed.

Lemma extract_camera_id_case_insensitive_witness :
  lower "s40_WOODHOUSELN_Road_x" = lower "S40_WoodhouseLn_road_x" /\
  camera_id_of (extract_camera_id (Some "s40_WOODHOUSELN_Road_x")) =
    camera_id_of (extract_camera_id (Some "S40_WoodhouseLn_road_x")) /\
  cordon_name_of (extract_camera_id (Some "s40_WOODHOUSELN_Road_x")) =
    cordon_name_of (extract_camera_id (Some "S40_WoodhouseLn_road_x")) /\
  counter_type_of (extract_camera_id (Some "s40_WOODHOUSELN_Road_x")) =
    counter_type_of (extract_camera_id (Some "S40_WoodhouseLn_road_x")).
Proof.
  split; [by vm_compute|].
  apply (extract_camera_id_case_insensitive "s40_WOODHOUSELN_Road_x"
           "S40_WoodhouseLn_road_x").
  by vm_compute.
Defined.

(** *** The shape of the identifiers *)

Lemma to_upper_digit c : is_digit c = true -> to_upper c = c.
Proof. destruct c as [[] [] [] [] [] [] [] []]; (reflexivity || discriminate). Qed.

Lemma to_upper_S c :
  Ascii.eqb c "S" || Ascii.eqb c "s" = true -> to_upper c = "S"%char.
Proof. destruct c as [[] [] [] [] [] [] [] []]; (reflexivity || discriminate). Qed.

Lemma to_upper_is_digit c : is_digit (to_upper c) = is_digit c.
Proof. by_cases_on_char c. Qed.

Lemma to_upper_newline c : Ascii.eqb (to_upper c) "010" = Ascii.eqb c "010".
Proof. by_cases_on_char c. Qed.

Lemma digits_to_end_upper s :
  digits_to_end (string_map to_upper s) = digits_to_end s.
Proof.
  induction s as [|c t IH]; simpl; [done|].
  rewrite to_upper_is_digit, to_upper_newline, IH. by destruct t.
Qed.

Lemma strip_compass_lower s :
  lower s = s -> lower (strip_compass s) = strip_compass s.
Proof.
  unfold lower. induction s as [|c t IH]; [done|]. simpl.
  intros [= Hc Ht]. destruct (is_compass c && at_end t); [done|].
  simpl. by rewrite Hc, (IH Ht).
Qed.

(** X8. When [extract_camera_id] finds a cordon, the cordon name is an
    upper-case [S] followed by a digit and matches the cordon pattern, and
    the camera id is the cordon name, an underscore and a location in lower
    case; without a cordon the camera id is the lower-case location
    alone. *)
Theorem extract_camera_id_shape_of_ids (sensor_name : string) :
  sensor_name <> "" ->
  exists location,
    lower location = location /\
    match cordon_name_of (extract_camera_id (Some sensor_name)) with
    | Some cordon =>
        (exists d rest, cordon = String "S" (String d rest) /\
                        is_digit d = true) /\
        match_cordon cordon = true /\
        camera_id_of (extract_camera_id (Some sensor_name)) =
          Some (cordon +:+ "_" +:+ location)
    | None =>
        camera_id_of (extract_camera_id (Some sensor_name)) = Some location
    end.
Proof.
  intros Hne. rewrite extract_camera_id_fields by done.
  assert (forall x, lower (strip_compass (lower x)) = strip_compass (lower x))
    as Hloc by (intros x; apply strip_compass_lower, lower_idem).
  destruct (after_first sensor_name) as [body|];
    [|by eexists; split; [apply Hloc|]].
  destruct (match_cordon (first_field sensor_name)) eqn:Hcordon;
    [|by eexists; split; [apply Hloc|]].
  eexists. split; [apply Hloc|]. simpl.
  destruct (first_field sensor_name) as [|c [|d t]]; [done..|].
  simpl in Hcordon.
  apply andb_true_iff in Hcordon as [[Hc Hd]%andb_true_iff Ht].
  unfold upper. simpl.
  rewrite (to_upper_S c Hc), (to_upper_digit d Hd).
  split; [by eexists _, _|]. split; [|done].
  by rewrite Hd, digits_to_end_upper.
Qed.

Lemma extract_camera_id_shape_of_ids_witness :
  "s9_HunsletRdS_path" <> "" /\
  cordon_name_of (extract_camera_id (Some "s9_HunsletRdS_path")) = Some "S9" /\
  exists location,
    lower location = location /\
    match cordon_name_of (extract_camera_id (Some "s9_HunsletRdS_path")) with
    | Some cordon =>
        (exists d rest, cordon = String "S" (String d rest) /\
                        is_digit d = true) /\
        match_cordon cordon = true /\
        camera_id_of (extract_camera_id (Some "s9_HunsletRdS_path")) =
          Some (cordon +:+ "_" +:+ location)
    | None =>
        camera_id_of (extract_camera_id (Some "s9_HunsletRdS_path")) =
          Some location
    end.
Proof.
  split; [discriminate|]. split; [by vm_compute|].
  apply (extract_camera_id_shape_of_ids "s9_HunsletRdS_path"). discriminate.
Defined.

(** *** Fields and concatenation *)

Fixpoint no_underscore (s : string) : bool :=
  match s with
  | EmptyString => true
  | String c t => negb (Ascii.eqb c "_") && no_underscore t
  end.

Lemma first_field_no_underscore s : no_underscore (first_field s) = true.
Proof.
  induction s as [|c t IH]; simpl; [done|].
  destruct (Ascii.eqb c "_") eqn:E; [done|]. simpl. by rewrite E.
Qed.

Lemma first_field_app a x :
  no_underscore a = true -> first_field (a +:+ String "_" x) = a.
Proof.
  induction a as [|c t IH]; simpl; [done|].
  intros [Hc Ht]%andb_true_iff. apply negb_true_iff in Hc.
  by rewrite Hc, (IH Ht).
Qed.

Lemma after_first_app a x :
  no_underscore a = true -> after_first (a +:+ String "_" x) = Some x.
Proof.
  induction a as [|c t IH]; simpl; [done|].
  intros [Hc Ht]%andb_true_iff. apply negb_true_iff in Hc.
  by rewrite Hc, (IH Ht).
Qed.

Lemma first_field_whole s :
  after_first s = None -> first_field s = s.
Proof.
  induction s as [|c t IH]; simpl; [done|].
  destruct (Ascii.eqb c "_"); [done|]. intros H. by rewrite (IH H).
Qed.

Lemma fields_rejoin s rest :
  after_first s = Some rest -> s = first_field s +:+ String "_" rest.
Proof.
  induction s as [|c t IH]; simpl; [done|].
  destruct (Ascii.eqb_spec c "_") as [->|Hne].
  - by intros [= ->].
  - intros H. simpl. by rewrite <- (IH H).
Qed.

Lemma first_field_prefix s : exists tail, s = first_field s +:+ tail.
Proof.
  destruct (after_first s) as [rest|] eqn:E.
  - exists (String "_" rest). by apply fields_rejoin.
  - exists "". by rewrite first_field_whole, app_nil_r.
Qed.

End Names.

(** ** The pandas operations used by client.py *)

Module Frames.

(** [df.groupby(by)]: the rows are grouped by the value of their key columns.
    A row with a missing value among its key columns belongs to no group
    (pandas' default [dropna=True]), and the groups come in the sorted order
    of their keys (the default [sort=True]). *)
Section groupby.
Context {A K B : Type} `{EqDecision K}.
Context (key_le : relation K) `{!RelDecision key_le}.
Context (key : A -> option K).

Definition group_keys (rows : list A) : list K :=
  merge_sort key_le (remove_dups (omap key rows)).

Definition group_rows (rows : list A) (k : K) : list A :=
  filter (fun r => key r = Some k) rows.

(** [groupby(by).agg(...)]: one output row per group. *)
Definition groupby (agg : K -> list A -> B) (rows : list A) : list B :=
  (fun k => agg k (group_rows rows k)) <$> group_keys rows.

Lemma NoDup_group_keys rows : NoDup (group_keys rows).
Proof.
  unfold group_keys. rewrite merge_sort_Permutation.
  apply NoDup_remove_dups.
Qed.

Lemma elem_of_group_keys rows k :
  k ∈ group_keys rows <-> exists r, r ∈ rows /\ key r = Some k.
Proof.
  unfold group_keys.
  rewrite merge_sort_Permutation, elem_of_remove_dups.
  apply list_elem_of_omap.
Qed.

Lemma group_rows_nil rows k :
  group_rows rows k = [] <-> k ∉ group_keys rows.
Proof.
  rewrite elem_of_group_keys. unfold group_rows. split.
  - intros Hnil (r & Hr & Hk).
    assert (r ∈ filter (fun r => key r = Some k) rows) as Hin
      by (by apply list_elem_of_filter).
    rewrite Hnil in Hin. by apply elem_of_nil in Hin.
  - intros Hno. destruct (filter _ rows) as [|r l] eqn:E; [done|].
    assert (r ∈ filter (fun r => key r = Some k) rows) as Hin
      by (rewrite E; left).
    apply list_elem_of_filter in Hin as [Hk Hr]. destruct Hno. eauto.
Qed.

(** When the key can be read back from an aggregated row, the output
    holds exactly one row for each key that occurs and none for the
    others. *)
Lemma filter_groupby (agg : K -> list A -> B) (key' : B -> option K) rows k :
  (forall k' l, k' ∈ group_keys rows -> key' (agg k' l) = Some k') ->
  filter (fun b => key' b = Some k) (groupby agg rows) =
  match group_rows rows k with
  | [] => []
  | l => [agg k l]
  end.
Proof.
  intros Hkey.
  assert (forall ks, NoDup ks -> ks ⊆ group_keys rows ->
    filter (fun b => key' b = Some k)
           ((fun k => agg k (group_rows rows k)) <$> ks) =
    if decide (k ∈ ks) then [agg k (group_rows rows k)] else []) as Hgen.
  { induction ks as [|k0 ks IH]; intros Hnd Hsub; [done|].
    apply NoDup_cons in Hnd as [Hk0 Hnd]. rewrite fmap_cons.
    assert (k0 ∈ group_keys rows) as Hin0 by (apply Hsub; left).
    assert (ks ⊆ group_keys rows) as Hsub'
      by (intros x Hx; apply Hsub; by right).
    destruct (decide (k0 = k)) as [->|Hne].
    - rewrite filter_cons_True by (by apply Hkey).
      rewrite (IH Hnd Hsub'). rewrite decide_False by done.
      rewrite decide_True by left. done.
    - rewrite filter_cons_False by (rewrite Hkey by done; congruence).
      rewrite (IH Hnd Hsub'). destruct (decide (k ∈ ks)) as [Hin|Hin].
      + rewrite decide_True by (by right). done.
      + rewrite decide_False; [done|].
        by intros [?|?]%elem_of_cons.
    }
  unfold groupby. rewrite (Hgen _ (NoDup_group_keys rows)) by done.
  destruct (decide (k ∈ group_keys rows)) as [Hin|Hin].
  - destruct (group_rows rows k) eqn:E; [|done].
    by apply group_rows_nil in E.
  - apply group_rows_nil in Hin. by rewrite Hin.
Qed.

(** Rows that all carry one key form one group. *)
Lemma group_keys_single rows k :
  rows <> [] -> Forall (fun r => key r = Some k) rows ->
  group_keys rows = [k] /\ group_rows rows k = rows.
Proof.
  intros Hne Hall. split.
  - pose proof (NoDup_group_keys rows) as Hnd.
    assert (forall x, x ∈ group_keys rows <-> x = k) as Hmem.
    { intros x. rewrite elem_of_group_keys. split.
      - intros (r & Hr & Hk).
        rewrite Forall_forall in Hall. specialize (Hall r Hr). congruence.
      - intros ->. destruct rows as [|r rows]; [done|].
        exists r. split; [left|]. by apply Forall_cons in Hall as [? _]. }
    destruct (group_keys rows) as [|a [|b l]].
    + exfalso. eapply elem_of_nil, Hmem. done.
    + f_equal. apply Hmem. left.
    + assert (a = k) as -> by (apply Hmem; left).
      assert (b = k) as -> by (apply Hmem; right; left).
      apply NoDup_cons in Hnd as [Hnot _]. destruct Hnot. left.
  - unfold group_rows. clear Hne.
    induction Hall as [|r rows Hr Hall IH]; [done|].
    rewrite filter_cons_True by done. by rewrite IH.
Qed.

(** Summing a quantity group by group counts every row that has a key
    exactly once. *)
Lemma sum_add_at (g : K -> Z) (k0 : K) (x : Z) (ks : list K) :
  NoDup ks -> k0 ∈ ks ->
  foldr Z.add 0%Z ((fun k => if decide (k = k0) then (x + g k)%Z else g k) <$> ks) =
  (x + foldr Z.add 0%Z (g <$> ks))%Z.
Proof.
  induction ks as [|k ks IH]; intros Hnd Hin; [by apply elem_of_nil in Hin|].
  apply NoDup_cons in Hnd as [Hk Hnd]. rewrite !fmap_cons. simpl.
  destruct (decide (k = k0)) as [->|Hne].
  - assert ((fun k => if decide (k = k0) then (x + g k)%Z else g k) <$> ks =
            g <$> ks) as ->.
    { apply list_fmap_ext. intros i k Hi.
      rewrite decide_False; [done|]. intros ->.
      apply Hk. by eapply list_elem_of_lookup_2. }
    lia.
  - apply elem_of_cons in Hin as [->|Hin]; [done|].
    rewrite (IH Hnd Hin). lia.
Qed.

Lemma sum_groups (f : A -> Z) (rows : list A) (ks : list K) :
  NoDup ks ->
  (forall r k, r ∈ rows -> key r = Some k -> k ∈ ks) ->
  foldr Z.add 0%Z
        ((fun k => foldr Z.add 0%Z (f <$> group_rows rows k)) <$> ks) =
  foldr Z.add 0%Z (f <$> filter (fun r => is_Some (key r)) rows).
Proof.
  intros Hnd. induction rows as [|r rows IH]; intros Hks.
  - simpl. clear Hnd Hks. induction ks as [|k ks IHks]; [done|].
    rewrite fmap_cons. simpl. by rewrite IHks.
  - assert (forall r' k, r' ∈ rows -> key r' = Some k -> k ∈ ks) as Hks'
      by (intros r' k Hr'; apply Hks; by right).
    specialize (IH Hks'). unfold group_rows in *.
    destruct (key r) as [k0|] eqn:Hkey.
    + rewrite (filter_cons_True (fun r => is_Some (key r)))
        by (by rewrite Hkey).
      rewrite fmap_cons. simpl. rewrite <- IH.
      rewrite <- (sum_add_at _ k0 (f r) ks Hnd)
        by (apply (Hks r); [left | done]).
      f_equal. apply list_fmap_ext. intros i k Hi.
      destruct (decide (k = k0)) as [->|Hne].
      * by rewrite filter_cons_True by done.
      * by rewrite filter_cons_False by congruence.
    + rewrite (filter_cons_False (fun r => is_Some (key r)))
        by (rewrite Hkey; by intros [? ?]).
      rewrite <- IH. f_equal. apply list_fmap_ext. intros i k Hi.
      by rewrite filter_cons_False by congruence.
Qed.

(** There are at most as many groups as rows. *)
Lemma group_keys_length (rows : list A) :
  length (group_keys rows) <= length rows.
Proof.
  unfold group_keys. rewrite merge_sort_Permutation.
  assert (forall l : list K, length (remove_dups l) <= length l) as Hdups.
  { induction l as [|x l IH]; simpl; [done|].
    destruct (decide_rel elem_of x l); simpl; lia. }
  etrans; [apply Hdups|]. clear Hdups.
  induction rows as [|r rows IH]; simpl; [done|].
  change (list_omap A K key rows) with (omap key rows).
  destruct (key r); simpl; lia.
Qed.
End groupby.

End Frames.

(** ** client.py: count records and their aggregation *)

Module Counts.

(** A JSON value of the records handled: [None], a string or an integer. *)
Inductive value := VNone | VStr (s : string) | VInt (n : Z).

#[global] Instance value_eq_dec : EqDecision value.
Proof. solve_decision. Defined.

(** A record is a [dict] with string keys. *)
Abbreviation record := (gmap string value).

Definition of_opt (s : option string) : value := from_option VStr VNone s.

(** The payload of [/countline/counts]: [{countline_id: [records]}], each
    record with its bucket bounds and, per direction, a dict from class
    label to a count that may be null. A key that is absent and a key whose
    value is null are both [None]. *)
Definition ClassCounts : Type := list (string * option Z).

Record RawRecord := mkRaw {
  raw_from : option string;
  raw_to : option string;
  raw_clockwise : option ClassCounts;
  raw_anti_clockwise : option ClassCounts
}.

Definition CountsPayload : Type := list (string * list RawRecord).

(** [record.get(direction, {})]. *)
Definition get_direction (r : RawRecord) (direction : string)
    : option ClassCounts :=
  if decide (direction = "clockwise") then raw_clockwise r
  else if decide (direction = "anti_clockwise") then raw_anti_clockwise r
  else None.

(** The dict appended to [all_records]. *)
Definition count_record (countline_id : string)
    (from_time to_time : option string) (direction viv_class mode : string)
    (count : Z) : record :=
  list_to_map
    [ ("countline_id", VStr countline_id); ("timestamp", of_opt from_time);
      ("from", of_opt from_time); ("to", of_opt to_time);
      ("direction", VStr direction); ("class", VStr viv_class);
      ("mode", VStr mode); ("count", VInt count) ].

Section parse.
(** [VIVACITY_TO_UNIFIED] of [constants.py]. *)
Context (VIVACITY_CLASS_MAP : gmap string string).

(** The body of [for viv_class, count in dir_data.items()]: the records
    one item appends. *)
Definition class_record (countline_id : string)
    (from_time to_time : option string) (direction : string)
    (item : string * option Z) : list record :=
  let '(viv_class, count) := item in
  match count with
  | Some n =>
      if bool_decide (viv_class = "total") then []
      else
        let mode := default viv_class (VIVACITY_CLASS_MAP !! viv_class) in
        [count_record countline_id from_time to_time direction
                      viv_class mode n]
  | None => []
  end.

Definition class_records (countline_id : string)
    (from_time to_time : option string) (direction : string)
    (dir_data : ClassCounts) : list record :=
  flat_map (class_record countline_id from_time to_time direction) dir_data.

(** [for direction in ["clockwise", "anti_clockwise"]]. *)
Definition direction_records (countline_id : string) (r : RawRecord)
    : list record :=
  flat_map (fun direction =>
    match get_direction r direction with
    | Some dir_data =>
        class_records countline_id (raw_from r) (raw_to r) direction dir_data
    | None => []
    end) ["clockwise"; "anti_clockwise"].

(** [for countline_id, records in data.items()]. *)
Definition parse_counts (data : CountsPayload) : list record :=
  flat_map (fun '(countline_id, records) =>
    flat_map (direction_records countline_id) records) data.
End parse.

(** *** The [if bidirectional:] block *)

Definition group_columns : list string :=
  ["countline_id"; "timestamp"; "from"; "to"; "class"; "mode"].

(** The key of a row: the strings in its key columns; no key when one of
    them holds no string. *)
Definition str_column (r : record) (column : string) : option string :=
  match r !! column with
  | Some (VStr s) => Some s
  | _ => None
  end.

Definition group_key (r : record) : option (list string) :=
  mapM (str_column r) group_columns.

(** Keys are ordered column by column, strings as Python orders them. *)
Fixpoint key_leb (k1 k2 : list string) : bool :=
  match k1, k2 with
  | [], _ => true
  | _ :: _, [] => false
  | a :: k1', b :: k2' =>
      if decide (a = b) then key_leb k1' k2' else String.leb a b
  end.

Definition key_le (k1 k2 : list string) : Prop := key_leb k1 k2.

#[global] Instance key_le_dec : RelDecision key_le.
Proof. intros k1 k2. unfold key_le. apply _. Defined.

Definition count_of (r : record) : Z :=
  match r !! "count" with
  | Some (VInt n) => n
  | _ => 0%Z
  end.

(** The sum of the counts of some rows, as an integer. *)
Definition total (rows : list record) : Z :=
  foldr Z.add 0%Z (count_of <$> rows).

(** The integers of the dtype [int64]. *)
Definition int64 (n : Z) : Prop :=
  (-9223372036854775808 <= n < 9223372036854775808)%Z.

(** The value a sum has in 64-bit arithmetic: the integer modulo [2^64]
    that lies between [-2^63] and [2^63 - 1]. *)
Definition wrap_int64 (n : Z) : Z :=
  ((n + 9223372036854775808) mod 18446744073709551616
   - 9223372036854775808)%Z.
#[global] Arguments wrap_int64 : simpl never.

(** [.agg({"count": "sum"})] on the rows of one group: the [count] column
    is an [int64] column (every count the API sent is a 64-bit integer) and
    pandas adds it up in 64-bit arithmetic, without an overflow check. *)
Definition sum_counts (rows : list record) : Z := wrap_int64 (total rows).

(** A row of [df_agg]: the key columns and the summed count. *)
Definition summed_record (k : list string) (count : Z) : record :=
  list_to_map (zip group_columns (VStr <$> k) ++ [("count", VInt count)]).

(** The [if bidirectional:] block, for collected records whose counts are
    64-bit integers (the column is then an [int64] column): an empty frame
    gives [[]]; otherwise the rows are grouped by the six key columns and
    the counts of each group summed. *)
Definition aggregate_directions (all_records : list record) : list record :=
  match all_records with
  | [] => []
  | _ =>
      Frames.groupby key_le group_key
        (fun k rows => summed_record k (sum_counts rows)) all_records
  end.

(** *** Properties of the records *)

Lemma count_record_class id f t d c m n :
  count_record id f t d c m n !! "class" = Some (VStr c).
Proof. reflexivity. Qed.

Lemma count_record_key id f t d c m n :
  group_key (count_record id (Some f) (Some t) d c m n) =
  Some [id; f; f; t; c; m].
Proof. reflexivity. Qed.

Lemma group_key_columns r k :
  group_key r = Some k -> exists a b c d e f, k = [a; b; c; d; e; f].
Proof.
  intros Hk%length_mapM.
  do 7 (destruct k as [|? k]; try done). by eexists _, _, _, _, _, _.
Qed.

Lemma summed_record_key k n :
  length k = 6 -> group_key (summed_record k n) = Some k.
Proof.
  intros Hk. do 7 (destruct k as [|? k]; try done).
Qed.

Lemma summed_record_direction k n :
  length k = 6 ->
  summed_record k n !! "direction" = None /\
  summed_record k n !! "count" = Some (VInt n).
Proof.
  intros Hk. do 7 (destruct k as [|? k]; try done).
Qed.

Lemma flat_map_step {A B} (f : A -> list B) (x : A) (l : list A) :
  flat_map f (x :: l) = f x ++ flat_map f l.
Proof. reflexivity. Qed.

Section parse_facts.
Context (VIVACITY_CLASS_MAP : gmap string string).

Lemma class_record_other id f t d viv_class count label :
  viv_class <> label ->
  filter (fun r : record => r !! "class" = Some (VStr label))
         (class_record VIVACITY_CLASS_MAP id f t d (viv_class, count)) = [].
Proof.
  intros Hne. simpl. destruct count as [n|]; [|done].
  case_bool_decide; [done|].
  rewrite filter_cons_False; [done|].
  rewrite count_record_class. congruence.
Qed.

Lemma class_records_other id f t d (dir_data : ClassCounts) label :
  label ∉ dir_data.*1 ->
  filter (fun r : record => r !! "class" = Some (VStr label))
         (class_records VIVACITY_CLASS_MAP id f t d dir_data) = [].
Proof.
  induction dir_data as [|[viv_class count] rest IH]; intros Hnot; [done|].
  apply not_elem_of_cons in Hnot as [Hne Hnot]. simpl in Hne.
  unfold class_records in *. rewrite flat_map_step, filter_app, (IH Hnot).
  by rewrite class_record_other.
Qed.

(** What the entry of [label] contributes when the keys of the dict are
    distinct. *)
Lemma class_records_label id f t d (dir_data : ClassCounts) label count :
  NoDup dir_data.*1 -> (label, count) ∈ dir_data ->
  filter (fun r : record => r !! "class" = Some (VStr label))
         (class_records VIVACITY_CLASS_MAP id f t d dir_data) =
  class_record VIVACITY_CLASS_MAP id f t d (label, count).
Proof.
  induction dir_data as [|[viv_class c] rest IH]; intros Hnd Hin.
  - by apply elem_of_nil in Hin.
  - rewrite fmap_cons in Hnd. apply NoDup_cons in Hnd as [Hfresh Hnd].
    simpl in Hfresh.
    unfold class_records. rewrite flat_map_step, filter_app.
    fold (class_records VIVACITY_CLASS_MAP id f t d rest).
    apply elem_of_cons in Hin as [[= <- <-]|Hin].
    + rewrite (class_records_other _ _ _ _ rest label Hfresh), app_nil_r.
      simpl. destruct count as [n|]; [|done].
      case_bool_decide; [done|].
      by rewrite filter_cons_True by apply count_record_class.
    + rewrite (IH Hnd Hin), class_record_other; [done|].
      intros ->. apply Hfresh. apply list_elem_of_fmap.
      by exists (label, count).
Qed.
End parse_facts.

(** C4. In a direction's payload (a dict, so its labels are distinct) the
    label ["total"] and a label with a null count yield no record; any other
    label yields exactly one record, whose mode is the table's translation
    of the label when the table has one and the label itself otherwise. *)
Theorem class_records_mode (VIVACITY_CLASS_MAP : gmap string string)
    (id : string) (from_time to_time : option string) (direction : string)
    (dir_data : ClassCounts) (label : string) (count : option Z) :
  NoDup dir_data.*1 -> (label, count) ∈ dir_data ->
  let mine :=
    filter (fun r : record => r !! "class" = Some (VStr label))
      (class_records VIVACITY_CLASS_MAP id from_time to_time direction dir_data) in
  (label = "total" \/ count = None -> mine = []) /\
  (forall n mode, label <> "total" -> count = Some n ->
     VIVACITY_CLASS_MAP !! label = Some mode ->
     mine = [count_record id from_time to_time direction label mode n]) /\
  (forall n, label <> "total" -> count = Some n ->
     VIVACITY_CLASS_MAP !! label = None ->
     mine = [count_record id from_time to_time direction label label n]).
Proof.
  intros Hnd Hin mine. subst mine.
  rewrite (class_records_label _ _ _ _ _ _ _ _ Hnd Hin). simpl.
  split; [|split].
  - intros [->| ->]; [|done]. destruct count; [|done].
    by rewrite bool_decide_eq_true_2.
  - intros n mode Hne -> Hmode.
    by rewrite bool_decide_eq_false_2, Hmode.
  - intros n Hne -> Hmode.
    by rewrite bool_decide_eq_false_2, Hmode.
Qed.

Lemma class_records_mode_witness :
  let table : gmap string string := {[ "cyclist" := "bicycle" ]} in
  let dir_data : ClassCounts :=
    [("cyclist", Some 4%Z); ("total", Some 9%Z); ("escooter", Some 1%Z);
     ("bus", None)] in
  NoDup dir_data.*1 /\ ("cyclist", Some 4%Z) ∈ dir_data /\
  filter (fun r : record => r !! "class" = Some (VStr "cyclist"))
    (class_records table "7" (Some "t0") (Some "t1") "clockwise" dir_data) =
  [count_record "7" (Some "t0") (Some "t1") "clockwise" "cyclist" "bicycle" 4].
Proof.
  intros table dir_data.
  assert (NoDup dir_data.*1) as Hnd by (apply (bool_decide_unpack _); by vm_compute).
  assert (("cyclist", Some 4%Z) ∈ dir_data) as Hin by left.
  split; [exact Hnd|]. split; [exact Hin|].
  refine (proj1 (proj2 (class_records_mode table "7" (Some "t0") (Some "t1")
                          "clockwise" dir_data "cyclist" (Some 4%Z) Hnd Hin))
                4%Z "bicycle" _ eq_refl eq_refl).
  discriminate.
Defined.

(** *** Summing the directions *)

Lemma aggregate_directions_groupby all_records :
  aggregate_directions all_records =
  Frames.groupby key_le group_key
    (fun k rows => summed_record k (sum_counts rows)) all_records.
Proof. by destruct all_records. Qed.

Lemma group_keys_columns all_records k :
  k ∈ Frames.group_keys key_le group_key all_records -> length k = 6.
Proof.
  intros (r & _ & Hk)%Frames.elem_of_group_keys.
  by destruct (group_key_columns _ _ Hk) as (a & b & c & d & e & f & ->).
Qed.

Lemma count_of_count_record id f t d c m n :
  count_of (count_record id f t d c m n) = n.
Proof. reflexivity. Qed.

(** 64-bit sums are sums modulo [2^64], and exact on 64-bit results. *)
Lemma wrap_int64_mod n :
  (wrap_int64 n mod 18446744073709551616 = n mod 18446744073709551616)%Z.
Proof.
  unfold wrap_int64. rewrite Zminus_mod_idemp_l. f_equal. lia.
Qed.

Lemma wrap_int64_eq a b :
  (a mod 18446744073709551616 = b mod 18446744073709551616)%Z ->
  wrap_int64 a = wrap_int64 b.
Proof.
  intros Hab. unfold wrap_int64.
  rewrite <- (Zplus_mod_idemp_l a), <- (Zplus_mod_idemp_l b), Hab. done.
Qed.

Lemma wrap_int64_range n : int64 (wrap_int64 n).
Proof.
  unfold wrap_int64, int64.
  pose proof (Z.mod_pos_bound (n + 9223372036854775808) 18446744073709551616).
  lia.
Qed.

Lemma wrap_int64_id n : int64 n -> wrap_int64 n = n.
Proof.
  unfold wrap_int64, int64. intros Hn. rewrite Z.mod_small; lia.
Qed.

(** Two records of one key are summed into one row. *)
Lemma aggregate_pair id timestamp bucket_end direction1 direction2
    viv_class mode n1 n2 :
  aggregate_directions
    [count_record id (Some timestamp) (Some bucket_end) direction1
                  viv_class mode n1;
     count_record id (Some timestamp) (Some bucket_end) direction2
                  viv_class mode n2] =
  [summed_record [id; timestamp; timestamp; bucket_end; viv_class; mode]
                 (wrap_int64 (n1 + n2))].
Proof.
  set (k := [id; timestamp; timestamp; bucket_end; viv_class; mode]).
  set (rows := [count_record id (Some timestamp) (Some bucket_end)
                  direction1 viv_class mode n1;
                count_record id (Some timestamp) (Some bucket_end)
                  direction2 viv_class mode n2]).
  destruct (Frames.group_keys_single key_le group_key rows k)
    as [Hkeys Hrows]; [done | by repeat constructor |].
  rewrite aggregate_directions_groupby. unfold Frames.groupby.
  rewrite Hkeys. cbn [fmap list_fmap]. rewrite Hrows.
  change (sum_counts rows) with (wrap_int64 (n1 + (n2 + 0))).
  by rewrite Z.add_0_r.
Qed.

(** A record without one of its bucket bounds has no key. *)
Lemma group_key_null_bound id f t d c m n :
  f = None \/ t = None -> group_key (count_record id f t d c m n) = None.
Proof. intros [-> | ->]; [done|]. by destruct f. Qed.

(** Records that all lack a key are all dropped. *)
Lemma aggregate_no_key all_records :
  Forall (fun r => group_key r = None) all_records ->
  aggregate_directions all_records = [].
Proof.
  intros Hnone. rewrite aggregate_directions_groupby.
  unfold Frames.groupby, Frames.group_keys.
  assert (omap group_key all_records = []) as ->; [|done].
  induction Hnone as [|r l Hr _ IH]; [done|].
  change (omap group_key (r :: l))
    with (match group_key r with
          | Some k => k :: omap group_key l
          | None => omap group_key l
          end).
  by rewrite Hr.
Qed.

(** The two directions of one bucket, from the payload to the summed row. *)
Lemma parse_counts_two_directions (VIVACITY_CLASS_MAP : gmap string string)
    id timestamp bucket_end viv_class n1 n2 :
  viv_class <> "total" ->
  aggregate_directions
    (parse_counts VIVACITY_CLASS_MAP
       [(id, [mkRaw (Some timestamp) (Some bucket_end)
                (Some [(viv_class, Some n1)]) (Some [(viv_class, Some n2)])])]) =
  [summed_record
     [id; timestamp; timestamp; bucket_end; viv_class;
      default viv_class (VIVACITY_CLASS_MAP !! viv_class)]
     (wrap_int64 (n1 + n2))].
Proof.
  intros Hne. unfold parse_counts, direction_records, class_records.
  simpl. rewrite bool_decide_eq_false_2 by done. simpl.
  apply aggregate_pair.
Qed.

(** C3, on its own input. Two directional records of one
    (countline_id, timestamp, class) with counts 3 and 5 whose bucket has
    no end (the payload has no ["to"]) give no output record at all: a row
    with a null key column belongs to no group. And two such records with
    counts [2^63 - 1] and 1 give a row whose count is [-2^63], not their
    sum: the column is summed in 64-bit arithmetic. *)
Lemma aggregate_directions_not_summed :
  parse_counts ∅
    [("7", [mkRaw (Some "t0") None
              (Some [("car", Some 3%Z)]) (Some [("car", Some 5%Z)])])] =
    [count_record "7" (Some "t0") None "clockwise" "car" "car" 3;
     count_record "7" (Some "t0") None "anti_clockwise" "car" "car" 5] /\
  aggregate_directions
    [count_record "7" (Some "t0") None "clockwise" "car" "car" 3;
     count_record "7" (Some "t0") None "anti_clockwise" "car" "car" 5] = [] /\
  aggregate_directions
    [count_record "7" (Some "t0") (Some "t1") "clockwise" "car" "car"
       9223372036854775807;
     count_record "7" (Some "t0") (Some "t1") "anti_clockwise" "car" "car" 1] =
    [summed_record ["7"; "t0"; "t0"; "t1"; "car"; "car"]
       (-9223372036854775808)].
Proof.
  split; [reflexivity|]. split.
  - apply aggregate_no_key.
    repeat constructor; apply group_key_null_bound; by right.
  - by rewrite aggregate_pair.
Qed.

(** C3, amended. The rows of the bidirectional result, for every list of
    collected records whose counts are 64-bit integers: for each key (the
    strings of the six grouping columns) there is exactly one row when
    some collected record has that key, none otherwise (a record with a
    null timestamp, [from] or [to] has no key and is left out), and its
    count is the sum of the counts of the collected records with that key,
    taken in 64-bit arithmetic: the sum itself when that is a 64-bit
    integer, the sum modulo [2^64] in any case; no row has a direction
    field. Two records with one key, bucket end included, and counts 3 and
    5 give one row with count 8. Nothing collected gives the empty list. *)
Theorem aggregate_directions_sums :
  (forall (all_records : list record) (k : list string),
     Forall (fun r => int64 (count_of r)) all_records ->
     filter (fun r : record => group_key r = Some k)
            (aggregate_directions all_records) =
     match Frames.group_rows group_key all_records k with
     | [] => []
     | rows => [summed_record k (sum_counts rows)]
     end) /\
  (forall (all_records : list record) (r : record),
     Forall (fun r => int64 (count_of r)) all_records ->
     r ∈ aggregate_directions all_records ->
     r !! "direction" = None /\
     exists k,
       group_key r = Some k /\
       Frames.group_rows group_key all_records k <> [] /\
       r !! "count" =
         Some (VInt (sum_counts
                       (Frames.group_rows group_key all_records k)))) /\
  (forall rows : list record,
     int64 (sum_counts rows) /\
     (sum_counts rows mod 18446744073709551616 =
      total rows mod 18446744073709551616)%Z /\
     (int64 (total rows) -> sum_counts rows = total rows)) /\
  (forall id timestamp bucket_end direction1 direction2 viv_class mode,
     aggregate_directions
       [count_record id (Some timestamp) (Some bucket_end) direction1
                     viv_class mode 3;
        count_record id (Some timestamp) (Some bucket_end) direction2
                     viv_class mode 5] =
     [summed_record [id; timestamp; timestamp; bucket_end; viv_class; mode] 8]
     /\
     summed_record [id; timestamp; timestamp; bucket_end; viv_class; mode] 8
       !! "count" = Some (VInt 8) /\
     summed_record [id; timestamp; timestamp; bucket_end; viv_class; mode] 8
       !! "direction" = None) /\
  aggregate_directions [] = [].
Proof.
  split; [|split; [|split; [|split]]].
  - intros all_records k _. rewrite aggregate_directions_groupby.
    apply (Frames.filter_groupby key_le group_key
             (fun k rows => summed_record k (sum_counts rows)) group_key).
    intros k' l Hk'%group_keys_columns. by apply summed_record_key.
  - intros all_records r _. rewrite aggregate_directions_groupby.
    unfold Frames.groupby. intros (k & -> & Hk)%list_elem_of_fmap.
    pose proof Hk as Hlen%group_keys_columns.
    destruct (summed_record_direction k
                (sum_counts (Frames.group_rows group_key all_records k)) Hlen)
      as [Hdir Hcount].
    split; [done|]. exists k. split; [by apply summed_record_key|].
    split; [|done]. intros Hnil.
    by apply (Frames.group_rows_nil key_le) in Hnil.
  - intros rows. unfold sum_counts. split; [apply wrap_int64_range|].
    split; [apply wrap_int64_mod | apply wrap_int64_id].
  - intros id timestamp bucket_end direction1 direction2 viv_class mode.
    split; [apply aggregate_pair | by split].
  - done.
Qed.

Lemma aggregate_directions_sums_witness :
  let r1 := count_record "7" (Some "t0") (Some "t1") "clockwise" "car" "car" 3 in
  let r2 := count_record "7" (Some "t0") (Some "t1") "anti_clockwise" "car" "car" 5 in
  let out := summed_record ["7"; "t0"; "t0"; "t1"; "car"; "car"] 8 in
  Forall (fun r => int64 (count_of r)) [r1; r2] /\
  out ∈ aggregate_directions [r1; r2] /\
  out !! "direction" = None /\
  exists k, group_key out = Some k /\
            Frames.group_rows group_key [r1; r2] k <> [] /\
            out !! "count" =
            Some (VInt (sum_counts (Frames.group_rows group_key [r1; r2] k))).
Proof.
  intros r1 r2 out.
  assert (Forall (fun r => int64 (count_of r)) [r1; r2]) as Hint
    by (repeat constructor; done).
  assert (out ∈ aggregate_directions [r1; r2]) as Hin.
  { unfold r1, r2.
    rewrite (proj1 (proj1 (proj2 (proj2 (proj2 aggregate_directions_sums)))
                      "7" "t0" "t1" "clockwise" "anti_clockwise" "car" "car")).
    left. }
  split; [exact Hint|]. split; [exact Hin|].
  exact (proj1 (proj2 aggregate_directions_sums) [r1; r2] out Hint Hin).
Defined.

(** *** What every collected record looks like *)

Lemma elem_of_flat_map {A B} (f : A -> list B) (l : list A) (y : B) :
  y ∈ flat_map f l <-> exists x, x ∈ l /\ y ∈ f x.
Proof.
  rewrite list_elem_of_In, in_flat_map.
  split; intros (x & Hx & Hy); exists x; by rewrite ?list_elem_of_In in *.
Qed.

Lemma parse_counts_elem (VIVACITY_CLASS_MAP : gmap string string)
    (data : CountsPayload) (r : record) :
  r ∈ parse_counts VIVACITY_CLASS_MAP data <->
  exists id records raw direction dir_data viv_class n,
    (id, records) ∈ data /\ raw ∈ records /\
    (direction = "clockwise" \/ direction = "anti_clockwise") /\
    get_direction raw direction = Some dir_data /\
    (viv_class, Some n) ∈ dir_data /\ viv_class <> "total" /\
    r = count_record id (raw_from raw) (raw_to raw) direction viv_class
          (default viv_class (VIVACITY_CLASS_MAP !! viv_class)) n.
Proof.
  unfold parse_counts. rewrite elem_of_flat_map. split.
  - intros ([id records] & Hdata & Hr).
    apply elem_of_flat_map in Hr as (raw & Hraw & Hr).
    unfold direction_records in Hr.
    apply elem_of_flat_map in Hr as (direction & Hdir & Hr).
    destruct (get_direction raw direction) as [dir_data|] eqn:Hget;
      [|by apply elem_of_nil in Hr].
    unfold class_records in Hr.
    apply elem_of_flat_map in Hr as ([viv_class count] & Hitem & Hr).
    simpl in Hr. destruct count as [n|]; [|by apply elem_of_nil in Hr].
    case_bool_decide as Htotal; [by apply elem_of_nil in Hr|].
    apply list_elem_of_singleton in Hr as ->.
    exists id, records, raw, direction, dir_data, viv_class, n.
    repeat split; try done.
    apply elem_of_cons in Hdir as [->|Hdir]; [by left|].
    apply list_elem_of_singleton in Hdir as ->. by right.
  - intros (id & records & raw & direction & dir_data & viv_class & n
            & Hdata & Hraw & Hdir & Hget & Hitem & Htotal & ->).
    exists (id, records). split; [done|].
    apply elem_of_flat_map. exists raw. split; [done|].
    unfold direction_records. apply elem_of_flat_map.
    exists direction. split.
    { destruct Hdir as [->| ->]; [left | right; left]. }
    rewrite Hget. unfold class_records. apply elem_of_flat_map.
    exists (viv_class, Some n). split; [done|]. simpl.
    rewrite bool_decide_eq_false_2 by done. left.
Qed.

(** X9. Every record [get_counts] collects has the same eight keys; its
    timestamp is its bucket start, its direction is one of the two
    directions, its class is never ["total"], its count is an integer
    (never null), and its mode is the table's translation of its class, or
    the class itself when the table has none. A payload entry with a count
    and a class other than ["total"] is never lost. *)
Theorem parse_counts_records (VIVACITY_CLASS_MAP : gmap string string)
    (data : CountsPayload) :
  (forall r : record, r ∈ parse_counts VIVACITY_CLASS_MAP data ->
     dom r = (list_to_set
                ["countline_id"; "timestamp"; "from"; "to"; "direction";
                 "class"; "mode"; "count"] : gset string) /\
     r !! "timestamp" = r !! "from" /\
     (r !! "direction" = Some (VStr "clockwise") \/
      r !! "direction" = Some (VStr "anti_clockwise")) /\
     (exists n, r !! "count" = Some (VInt n)) /\
     (exists viv_class,
        viv_class <> "total" /\
        r !! "class" = Some (VStr viv_class) /\
        r !! "mode" =
          Some (VStr (default viv_class (VIVACITY_CLASS_MAP !! viv_class))))) /\
  (forall id records raw direction dir_data viv_class n,
     (id, records) ∈ data -> raw ∈ records ->
     direction = "clockwise" \/ direction = "anti_clockwise" ->
     get_direction raw direction = Some dir_data ->
     (viv_class, Some n) ∈ dir_data -> viv_class <> "total" ->
     count_record id (raw_from raw) (raw_to raw) direction viv_class
       (default viv_class (VIVACITY_CLASS_MAP !! viv_class)) n
     ∈ parse_counts VIVACITY_CLASS_MAP data).
Proof.
  split.
  - intros r (id & records & raw & direction & dir_data & viv_class & n
              & _ & _ & Hdir & _ & _ & Htotal & ->)%parse_counts_elem.
    split.
    { unfold count_record. by rewrite dom_list_to_map_L. }
    split; [done|]. split.
    { destruct Hdir as [->| ->]; [by left | by right]. }
    split; [by exists n|]. by exists viv_class.
  - intros id records raw direction dir_data viv_class n ? ? ? ? ? ?.
    apply parse_counts_elem.
    by exists id, records, raw, direction, dir_data, viv_class, n.
Qed.

Lemma parse_counts_records_witness :
  let data : CountsPayload :=
    [("7", [mkRaw (Some "t0") (Some "t1")
              (Some [("car", Some 3%Z); ("total", Some 3%Z)])
              (Some [("car", None)])])] in
  let r := count_record "7" (Some "t0") (Some "t1") "clockwise" "car" "car" 3 in
  r ∈ parse_counts ∅ data /\
  r !! "timestamp" = r !! "from" /\
  (exists n, r !! "count" = Some (VInt n)).
Proof.
  intros data r.
  pose proof (parse_counts_records ∅ data) as [Hall Hin].
  assert (r ∈ parse_counts ∅ data) as Hr.
  { set (raw := mkRaw (Some "t0") (Some "t1")
                  (Some [("car", Some 3%Z); ("total", Some 3%Z)])
                  (Some [("car", None)])).
    apply (Hin "7" [raw] raw "clockwise"
               [("car", Some 3%Z); ("total", Some 3%Z)] "car" 3%Z).
    - left.
    - left.
    - by left.
    - reflexivity.
    - left.
    - discriminate. }
  split; [exact Hr|].
  destruct (Hall r Hr) as (_ & Hts & _ & Hcount & _).
  split; [exact Hts | exact Hcount].
Defined.

(** *** The total is kept *)

Lemma count_of_summed_record k n : length k = 6 -> count_of (summed_record k n) = n.
Proof.
  intros Hk. do 7 (destruct k as [|? k]; try done).
Qed.

(** The counts of the aggregated rows are the 64-bit sums of the groups. *)
Lemma total_aggregate (all_records : list record) :
  total (aggregate_directions all_records) =
  foldr Z.add 0%Z
    ((fun k => wrap_int64 (total (Frames.group_rows group_key all_records k)))
       <$> Frames.group_keys key_le group_key all_records).
Proof.
  rewrite aggregate_directions_groupby. unfold total at 1, Frames.groupby.
  rewrite <- list_fmap_compose. f_equal.
  apply list_fmap_ext. intros i k Hk. simpl.
  apply count_of_summed_record, (group_keys_columns all_records).
  by eapply list_elem_of_lookup_2.
Qed.

Lemma total_groups (all_records : list record) :
  foldr Z.add 0%Z
    ((fun k => total (Frames.group_rows group_key all_records k))
       <$> Frames.group_keys key_le group_key all_records) =
  total (filter (fun r => is_Some (group_key r)) all_records).
Proof.
  apply (Frames.sum_groups group_key count_of).
  - apply Frames.NoDup_group_keys.
  - intros r k Hr Hk. apply Frames.elem_of_group_keys. eauto.
Qed.

Lemma sum_wrapped_mod {K} (g : K -> Z) (ks : list K) :
  (foldr Z.add 0 ((fun k => wrap_int64 (g k)) <$> ks)
     mod 18446744073709551616 =
   foldr Z.add 0 (g <$> ks) mod 18446744073709551616)%Z.
Proof.
  induction ks as [|k ks IH]; [done|]. rewrite !fmap_cons. simpl.
  rewrite Z.add_mod, IH, wrap_int64_mod, <- Z.add_mod by done. done.
Qed.

Lemma sum_counts_aggregate (all_records : list record) :
  sum_counts (aggregate_directions all_records) =
  sum_counts (filter (fun r => is_Some (group_key r)) all_records).
Proof.
  unfold sum_counts. apply wrap_int64_eq.
  by rewrite total_aggregate, sum_wrapped_mod, total_groups.
Qed.

Lemma total_filter_le (P : record -> Prop) `{forall r, Decision (P r)}
    (rows : list record) :
  Forall (fun r => 0 <= count_of r)%Z rows ->
  (0 <= total (filter P rows) <= total rows)%Z.
Proof.
  unfold total. induction 1 as [|r rows Hr _ IH]; [done|].
  destruct (decide (P r)).
  - rewrite filter_cons_True by done. rewrite !fmap_cons. simpl. lia.
  - rewrite filter_cons_False by done. rewrite fmap_cons. simpl. lia.
Qed.

(** Without overflow the aggregated counts add up to the counts of the
    records that have a key. *)
Lemma total_aggregate_exact (all_records : list record) :
  Forall (fun r => 0 <= count_of r)%Z all_records ->
  (total all_records < 9223372036854775808)%Z ->
  total (aggregate_directions all_records) =
  total (filter (fun r => is_Some (group_key r)) all_records).
Proof.
  intros Hpos Hsmall. rewrite total_aggregate, <- total_groups. f_equal.
  apply list_fmap_ext. intros i k _. simpl.
  apply wrap_int64_id. unfold int64, Frames.group_rows.
  pose proof (total_filter_le (fun r => group_key r = Some k) all_records Hpos).
  lia.
Qed.

Lemma filter_all {A} (P : A -> Prop) `{forall x, Decision (P x)} (l : list A) :
  Forall P l -> filter P l = l.
Proof.
  induction 1 as [|x l Hx _ IH]; [done|].
  by rewrite filter_cons_True, IH.
Qed.

(** X10. Summing the directions loses no traffic. For collected records
    whose counts are 64-bit integers, the 64-bit sum of the aggregated
    counts is the 64-bit sum of the counts of the records that have a key
    (those whose bucket bounds are not null). When no count is negative
    and the counts add up to less than [2^63], nothing wraps: the
    aggregated counts add up to exactly the counts of the records that
    have a key, and to the counts of all records when every record has
    one. *)
Theorem aggregate_directions_total (all_records : list record) :
  Forall (fun r => int64 (count_of r)) all_records ->
  sum_counts (aggregate_directions all_records) =
    sum_counts (filter (fun r => is_Some (group_key r)) all_records) /\
  (Forall (fun r => 0 <= count_of r)%Z all_records ->
   (total all_records < 9223372036854775808)%Z ->
   total (aggregate_directions all_records) =
     total (filter (fun r => is_Some (group_key r)) all_records) /\
   (Forall (fun r => is_Some (group_key r)) all_records ->
    total (aggregate_directions all_records) = total all_records)).
Proof.
  intros _. split; [apply sum_counts_aggregate|].
  intros Hpos Hsmall. split; [by apply total_aggregate_exact|].
  intros Hall. by rewrite total_aggregate_exact, filter_all.
Qed.

Lemma aggregate_directions_total_witness :
  let all_records :=
    [count_record "7" (Some "t0") (Some "t1") "clockwise" "car" "car" 3;
     count_record "7" (Some "t0") (Some "t1") "anti_clockwise" "car" "car" 5;
     count_record "8" (Some "t0") (Some "t1") "clockwise" "bus" "bus" 2] in
  Forall (fun r => int64 (count_of r)) all_records /\
  Forall (fun r => is_Some (group_key r)) all_records /\
  total (aggregate_directions all_records) = 10%Z.
Proof.
  intros all_records.
  assert (Forall (fun r => int64 (count_of r)) all_records) as Hint
    by (repeat constructor; done).
  assert (Forall (fun r => is_Some (group_key r)) all_records) as Hall
    by (repeat constructor; by eexists).
  split; [exact Hint|]. split; [exact Hall|].
  refine (proj2 (proj2 (aggregate_directions_total all_records Hint) _ _) Hall).
  - repeat constructor; done.
  - done.
Defined.

End Counts.

(** ** client.py: the requests of get_counts and get_speed *)

Module Fetch.
Import Except Batching.

(** A GET request: the URL and the query parameters. *)
Record Request := mkRequest {
  req_url : string;
  req_params : list (string * string)
}.

(** A reply: the status code and what [resp.json()] evaluates to. *)
Record Response (P : Type) := mkResponse {
  status_code : Z;
  json : exc P
}.
Arguments mkResponse {P} status_code json.
Arguments status_code {P} r.
Arguments json {P} r.

(** *** Loops that append and may raise *)

(** What a piece of the [try] body leaves behind: the records it appended
    to [all_records], and the exception that ended it, if one did. The
    records appended before an exception stay in [all_records]. *)
Definition appended (R : Type) : Type := (list R * option string)%type.

(** [for x in items: body]: the first exception ends the loop. *)
Fixpoint for_each {A R} (body : A -> appended R) (items : list A)
    : appended R :=
  match items with
  | [] => ([], None)
  | x :: rest =>
      match body x with
      | (records, Some e) => (records, Some e)
      | (records, None) =>
          let '(more, e) := for_each body rest in (records ++ more, e)
      end
  end.

(** A JSON value at a place where the code expects a dict or a list: of
    that shape, or of another ([Misshapen]), on which the method call or
    the iteration of the code raises. *)
Inductive shaped (A : Type) : Type :=
  | Shaped (a : A)
  | Misshapen (e : string).
Arguments Shaped {A} a.
Arguments Misshapen {A} e.

Definition on_shape {A R} (v : shaped A) (body : A -> appended R)
    : appended R :=
  match v with
  | Shaped a => body a
  | Misshapen e => ([], Some e)
  end.

Section batches.
Context {P R : Type}.
(** [d.strftime("%Y-%m-%dT%H:%M:%SZ")]. *)
Context (strftime : datetime -> string).
Context (base_url : string).
(** [self.client]: the [RuntimeError] of the property when no HTTP client
    is open; otherwise the open client, whose [get] answers the [n]-th
    request of the call with a reply or an exception. *)
Context (client : exc (nat -> Request -> exc (Response P))).
Context (endpoint : string).
(** The loops over the payload of a reply. *)
Context (walk : P -> appended R).

Definition batch_request (time_bucket : string)
    (batch : list string * DateBatch) : Request :=
  mkRequest (base_url +:+ endpoint)
    [ ("countline_ids", Names.join "," batch.1);
      ("from", strftime (batch_from batch.2));
      ("to", strftime (batch_to batch.2));
      ("time_bucket", time_bucket) ].

(** The body of the [try] once [self.client] is read: the request is
    sent, and a reply with status 200 is decoded and walked. *)
Definition try_batch (get : nat -> Request -> exc (Response P)) (n : nat)
    (req : Request) : appended R :=
  match get n req with
  | Raise e => ([], Some e)
  | Ok resp =>
      if bool_decide (status_code resp <> 200%Z) then ([], None)
      else
        match json resp with
        | Raise e => ([], Some e)
        | Ok data => walk data
        end
  end.

(** One round of the inner loop. The state is the list of the requests
    given to the HTTP client so far and [all_records]; [except Exception]
    prints and goes on, with whatever the body had appended. *)
Definition fetch_batch (time_bucket : string)
    (st : list Request * list R) (id_batch : list string)
    (date_batch : DateBatch) : list Request * list R :=
  let req := batch_request time_bucket (id_batch, date_batch) in
  match client with
  | Raise e => st
  | Ok get =>
      let '(records, _) := try_batch get (length st.1) req in
      (st.1 ++ [req], st.2 ++ records)
  end.

(** [for id_batch in id_batches: for date_batch in date_batches: ...]. *)
Definition fetch_batches (time_bucket : string)
    (id_batches : list (list string)) (date_batches : list DateBatch)
    : list Request * list R :=
  foldl (fun st id_batch =>
           foldl (fun st date_batch =>
                    fetch_batch time_bucket st id_batch date_batch)
                 st date_batches)
        ([], []) id_batches.

(** *** What the loops compute *)

(** The requests of the sub-batches, in the order of the loops. *)
Definition requests (time_bucket : string)
    (id_batches : list (list string)) (date_batches : list DateBatch)
    : list Request :=
  batch_request time_bucket <$> list_prod id_batches date_batches.

(** The requests the HTTP client is given: all of them when a client is
    open, none otherwise. *)
Definition sent (reqs : list Request) : list Request :=
  match client with
  | Ok _ => reqs
  | Raise _ => []
  end.

(** The records the [n]-th sub-batch adds to [all_records]. *)
Definition contribution (n : nat) (req : Request) : list R :=
  match client with
  | Ok get => (try_batch get n req).1
  | Raise _ => []
  end.

(** The sub-batch failed: there is no HTTP client, or the client raised,
    or the status is not 200. *)
Definition failed (n : nat) (req : Request) : Prop :=
  match client with
  | Raise _ => True
  | Ok get =>
      match get n req with
      | Ok resp => status_code resp <> 200%Z
      | Raise _ => True
      end
  end.

Lemma contribution_failed n req : failed n req -> contribution n req = [].
Proof.
  unfold failed, contribution, try_batch.
  destruct client as [get|e]; [|done].
  destruct (get n req) as [resp|e]; simpl; [|done].
  intros Hstatus. by rewrite bool_decide_eq_true_2.
Qed.

(** A reply with status 200 adds what the walk of its body appended: the
    records of the whole body, or those met before the walk raised. *)
Lemma contribution_ok get n req resp data :
  client = Ok get -> get n req = Ok resp ->
  status_code resp = 200%Z -> json resp = Ok data ->
  contribution n req = (walk data).1.
Proof.
  unfold contribution, try_batch. intros Hopen Hget Hstatus Hjson.
  rewrite Hopen, Hget, Hjson.
  by rewrite bool_decide_eq_false_2 by (intros Hne; by apply Hne).
Qed.

(** A body that cannot be decoded adds nothing. *)
Lemma contribution_undecoded get n req resp e :
  client = Ok get -> get n req = Ok resp -> json resp = Raise e ->
  contribution n req = [].
Proof.
  unfold contribution, try_batch. intros Hopen Hget Hjson.
  rewrite Hopen, Hget, Hjson. by case_bool_decide.
Qed.

Lemma fetch_batch_open get time_bucket st id_batch date_batch :
  client = Ok get ->
  fetch_batch time_bucket st id_batch date_batch =
  (st.1 ++ [batch_request time_bucket (id_batch, date_batch)],
   st.2 ++ contribution (length st.1)
             (batch_request time_bucket (id_batch, date_batch))).
Proof.
  intros Hopen. unfold fetch_batch, contribution. rewrite Hopen.
  by destruct (try_batch _ _ _).
Qed.

Lemma inner_loop_open get time_bucket id_batch date_batches st :
  client = Ok get ->
  let reqs := batch_request time_bucket <$>
                ((fun d => (id_batch, d)) <$> date_batches) in
  foldl (fun st date_batch => fetch_batch time_bucket st id_batch date_batch)
        st date_batches =
  (st.1 ++ reqs,
   st.2 ++ concat (imap (fun n => contribution (length st.1 + n)) reqs)).
Proof.
  intros Hopen. revert st.
  induction date_batches as [|d ds IH]; intros [log all]; simpl.
  - by rewrite !app_nil_r.
  - rewrite IH, (fetch_batch_open get) by done. simpl.
    rewrite <- !app_assoc. simpl. f_equal. f_equal.
    rewrite Nat.add_0_r. f_equal. f_equal.
    apply imap_ext. intros n req _. simpl.
    rewrite length_app. simpl.
    by replace (length log + 1 + n) with (length log + S n) by lia.
Qed.

Lemma outer_loop_open get time_bucket id_batches date_batches st :
  client = Ok get ->
  let reqs := requests time_bucket id_batches date_batches in
  foldl (fun st id_batch =>
           foldl (fun st date_batch =>
                    fetch_batch time_bucket st id_batch date_batch)
                 st date_batches)
        st id_batches =
  (st.1 ++ reqs,
   st.2 ++ concat (imap (fun n => contribution (length st.1 + n)) reqs)).
Proof.
  intros Hopen. revert st.
  induction id_batches as [|b bs IH]; intros [log all]; simpl.
  - by rewrite !app_nil_r.
  - rewrite IH, (inner_loop_open get) by done. simpl. unfold requests. simpl.
    rewrite fmap_app, imap_app, concat_app, <- !app_assoc.
    f_equal. f_equal. f_equal. f_equal.
    apply imap_ext. intros n req _. simpl.
    rewrite length_app, !length_fmap, ?length_map.
    by rewrite Nat.add_assoc.
Qed.

(** Without an HTTP client every round leaves the state as it is. *)
Lemma fetch_batches_closed e time_bucket id_batches date_batches :
  client = Raise e ->
  fetch_batches time_bucket id_batches date_batches = ([], []).
Proof.
  intros Hclosed. unfold fetch_batches.
  generalize (@nil Request, @nil R). intros st.
  induction id_batches as [|b bs IH]; simpl; [done|].
  assert (foldl (fun st date_batch => fetch_batch time_bucket st b date_batch)
                st date_batches = st) as ->; [|done].
  clear IH. induction date_batches as [|d ds IH]; simpl; [done|].
  unfold fetch_batch at 2. by rewrite Hclosed.
Qed.

Lemma all_failed_nil (reqs : list Request) :
  (forall n req, reqs !! n = Some req -> failed n req) ->
  concat (imap contribution reqs) = [].
Proof.
  intros Hfail.
  assert (forall k, (forall n req, reqs !! n = Some req -> failed (k + n) req) ->
            concat (imap (fun n => contribution (k + n)) reqs) = []) as Hgen.
  { clear Hfail. induction reqs as [|req reqs IH]; intros k Hfail; [done|].
    rewrite imap_cons. simpl.
    rewrite contribution_failed by (apply (Hfail 0); done). simpl.
    rewrite <- (IH (S k)).
    - f_equal. apply imap_ext. intros n r _. unfold compose.
      by replace (k + S n) with (S k + n) by lia.
    - intros n r Hn. replace (S k + n) with (k + S n) by lia.
      by apply Hfail. }
  apply (Hgen 0). done.
Qed.

(** Every sub-batch is gone through once, in the order of the loops; its
    request is given to the HTTP client when there is one; and
    [all_records] is the concatenation of what the sub-batches add. *)
Lemma fetch_batches_spec time_bucket id_batches date_batches :
  fetch_batches time_bucket id_batches date_batches =
  (sent (requests time_bucket id_batches date_batches),
   concat (imap contribution
             (requests time_bucket id_batches date_batches))).
Proof.
  destruct client as [get|e] eqn:Hclient.
  - unfold fetch_batches, sent. rewrite Hclient.
    by rewrite (outer_loop_open get).
  - rewrite (fetch_batches_closed e) by done. unfold sent.
    rewrite Hclient. f_equal. symmetry. apply all_failed_nil.
    intros n req _. unfold failed. by rewrite Hclient.
Qed.

Lemma requests_length time_bucket id_batches date_batches :
  length (requests time_bucket id_batches date_batches) =
  length id_batches * length date_batches.
Proof. unfold requests. by rewrite length_fmap, length_prod. Qed.
End batches.

(** A loop whose body never raises appends what each round appends. *)
Lemma for_each_total {A R} (body : A -> appended R) (f : A -> list R)
    (items : list A) :
  (forall x, x ∈ items -> body x = (f x, None)) ->
  for_each body items = (flat_map f items, None).
Proof.
  induction items as [|x rest IH]; intros Hbody; [done|]. simpl.
  rewrite (Hbody x) by left.
  rewrite IH by (intros y Hy; apply Hbody; by right). done.
Qed.

(** *** The payload of [/countline/counts] *)

(** A record of the payload as the loops meet it: a dict (otherwise
    [record.get] raises) whose value for a direction is absent or falsy
    ([Shaped None]), a dict of counts, or something else that is truthy,
    on which [.items()] raises. *)
Record WireRecord := mkWire {
  w_from : option string;
  w_to : option string;
  w_clockwise : shaped (option Counts.ClassCounts);
  w_anti_clockwise : shaped (option Counts.ClassCounts)
}.

(** The body of a reply: a dict (otherwise [data.items()] raises) from
    countline ids to lists of records; a value that is not a list is
    falsy, and skipped like the empty list, or raises when it is iterated
    or when its first element is asked for ["from"]. *)
Definition CountsWire : Type :=
  shaped (list (string * shaped (list (shaped WireRecord)))).

Definition wire_direction (r : WireRecord) (direction : string)
    : shaped (option Counts.ClassCounts) :=
  if decide (direction = "clockwise") then w_clockwise r
  else if decide (direction = "anti_clockwise") then w_anti_clockwise r
  else Shaped None.

Section walk_counts.
Context (VIVACITY_CLASS_MAP : gmap string string).

(** The body of [for direction in ["clockwise", "anti_clockwise"]]. *)
Definition walk_direction (countline_id : string) (r : WireRecord)
    (direction : string) : appended Counts.record :=
  on_shape (wire_direction r direction) (fun dir_data =>
    match dir_data with
    | Some dir_data =>
        (Counts.class_records VIVACITY_CLASS_MAP countline_id
           (w_from r) (w_to r) direction dir_data, None)
    | None => ([], None)
    end).

(** The body of [for record in records]. *)
Definition walk_record (countline_id : string) (record : shaped WireRecord)
    : appended Counts.record :=
  on_shape record (fun r =>
    for_each (walk_direction countline_id r) ["clockwise"; "anti_clockwise"]).

(** [for countline_id, records in data.items(): ...]. *)
Definition walk_counts (data : CountsWire) : appended Counts.record :=
  on_shape data
    (for_each (fun '(countline_id, records) =>
       on_shape records (for_each (walk_record countline_id)))).
End walk_counts.

(** A body of the documented shape, as the loops meet it. *)
Definition shaped_record (r : Counts.RawRecord) : shaped WireRecord :=
  Shaped (mkWire (Counts.raw_from r) (Counts.raw_to r)
            (Shaped (Counts.raw_clockwise r))
            (Shaped (Counts.raw_anti_clockwise r))).

Definition shaped_counts (data : Counts.CountsPayload) : CountsWire :=
  Shaped ((fun entry : string * list Counts.RawRecord =>
             (entry.1, Shaped (shaped_record <$> entry.2)))
            <$> (data : list (string * list Counts.RawRecord))).

(** On a body of the documented shape the walk never raises and appends
    the records of [Counts.parse_counts]. *)
Lemma walk_counts_shaped (VIVACITY_CLASS_MAP : gmap string string)
    (data : Counts.CountsPayload) :
  walk_counts VIVACITY_CLASS_MAP (shaped_counts data) =
  (Counts.parse_counts VIVACITY_CLASS_MAP data, None).
Proof.
  unfold walk_counts, shaped_counts, Counts.parse_counts. simpl.
  induction data as [|[countline_id records] data IH]; [done|].
  rewrite fmap_cons. simpl. rewrite IH. clear IH.
  assert (for_each (walk_record VIVACITY_CLASS_MAP countline_id)
            (shaped_record <$> records) =
          (flat_map (Counts.direction_records VIVACITY_CLASS_MAP countline_id)
             records, None)) as ->; [|done].
  induction records as [|r records IH]; [done|].
  rewrite fmap_cons. simpl. rewrite IH. clear IH.
  unfold walk_direction, Counts.direction_records.
  by destruct r as [f t [cw|] [acw|]].
Qed.

(** *** The payload of [/countline/speed] *)

(** The records of the payload and the records made from them; the speeds
    are JSON numbers of a type [number] left open. *)
Record RawSpeed (number : Type) := mkRawSpeed {
  rs_from : option string;
  rs_to : option string;
  rs_mean : option number;
  rs_p50 : option number;
  rs_p85 : option number;
  rs_sample_size : option number
}.
Arguments mkRawSpeed {number}.
Arguments rs_from {number} r.
Arguments rs_to {number} r.
Arguments rs_mean {number} r.
Arguments rs_p50 {number} r.
Arguments rs_p85 {number} r.
Arguments rs_sample_size {number} r.

Record SpeedRecord (number : Type) := mkSpeed {
  sp_countline_id : string;
  sp_from : option string;
  sp_to : option string;
  mean_speed : option number;
  p50_speed : option number;
  p85_speed : option number;
  sample_size : option number
}.
Arguments mkSpeed {number}.
Arguments sp_countline_id {number} s.
Arguments sp_from {number} s.
Arguments sp_to {number} s.
Arguments mean_speed {number} s.
Arguments p50_speed {number} s.
Arguments p85_speed {number} s.
Arguments sample_size {number} s.

Definition SpeedPayload (number : Type) : Type :=
  list (string * list (RawSpeed number)).

(** The dict appended for one record. *)
Definition speed_record {number} (countline_id : string)
    (r : RawSpeed number) : SpeedRecord number :=
  mkSpeed countline_id (rs_from r) (rs_to r) (rs_mean r)
          (rs_p50 r) (rs_p85 r) (rs_sample_size r).

(** [for countline_id, records in data.items(): for record in records],
    on a body of the documented shape. *)
Definition parse_speed {number} (data : SpeedPayload number)
    : list (SpeedRecord number) :=
  flat_map (fun '(countline_id, records) =>
    speed_record countline_id <$> records) data.

(** The body of a reply as the loops meet it: a record that is not a dict
    makes [record.get] raise. *)
Definition SpeedWire (number : Type) : Type :=
  shaped (list (string * shaped (list (shaped (RawSpeed number))))).

Definition walk_speed {number} (data : SpeedWire number)
    : appended (SpeedRecord number) :=
  on_shape data
    (for_each (fun '(countline_id, records) =>
       on_shape records
         (for_each (fun record =>
            on_shape record (fun r =>
              ([speed_record countline_id r], None)))))).

Definition shaped_speed {number} (data : SpeedPayload number)
    : SpeedWire number :=
  Shaped ((fun entry : string * list (RawSpeed number) =>
             (entry.1, Shaped (Shaped <$> entry.2)))
            <$> (data : list (string * list (RawSpeed number)))).

Lemma walk_speed_shaped {number} (data : SpeedPayload number) :
  walk_speed (shaped_speed data) = (parse_speed data, None).
Proof.
  unfold walk_speed, shaped_speed, parse_speed. simpl.
  induction data as [|[countline_id records] data IH]; [done|].
  rewrite fmap_cons. simpl. rewrite IH. clear IH.
  assert (for_each (fun record : shaped (RawSpeed number) =>
                      on_shape record (fun r =>
                        ([speed_record countline_id r], None)))
            (Shaped <$> records) =
          (speed_record countline_id <$> records, None)) as ->; [|done].
  induction records as [|r records IH]; [done|].
  rewrite fmap_cons. simpl. by rewrite IH.
Qed.

(** *** get_counts and get_speed *)

Section client.
Context {number : Type}.
Context (VIVACITY_CLASS_MAP : gmap string string).
Context (strftime : datetime -> string) (base_url : string).
Context (counts_client : exc (nat -> Request -> exc (Response CountsWire))).
Context (speed_client :
  exc (nat -> Request -> exc (Response (SpeedWire number)))).

(** The [if bidirectional:] block at the end of [get_counts]. *)
Definition finish (bidirectional : bool) (all_records : list Counts.record)
    : list Counts.record :=
  if bidirectional then Counts.aggregate_directions all_records
  else all_records.

(** The result is paired with the list of the requests given to the HTTP
    client; [None] when the fuel for [batch_date_range] runs out. The date
    range is split before the loops and outside any [try]: an
    [OverflowError] of [batch_date_range] leaves the call. *)
Definition get_counts (fuel : nat) (countline_ids : list string)
    (start_time end_time : datetime) (time_bucket : string)
    (bidirectional : bool)
    : option (exc (list Request * list Counts.record)) :=
  outcome ← batch_date_range fuel start_time end_time 7;
  Some (date_batches ← outcome;
        let id_batches := id_batches countline_ids in
        let st := fetch_batches strftime base_url counts_client
                    "/countline/counts" (walk_counts VIVACITY_CLASS_MAP)
                    time_bucket id_batches date_batches in
        Ok (st.1, finish bidirectional st.2)).

Definition get_speed (fuel : nat) (countline_ids : list string)
    (start_time end_time : datetime) (time_bucket : string)
    : option (exc (list Request * list (SpeedRecord number))) :=
  outcome ← batch_date_range fuel start_time end_time 7;
  Some (date_batches ← outcome;
        let id_batches := id_batches countline_ids in
        Ok (fetch_batches strftime base_url speed_client "/countline/speed"
              walk_speed time_bucket id_batches date_batches)).
End client.

(** C8. [get_counts] and [get_speed] split the date range first, outside
    any [try]: the split always ends, and when it raises (an
    [OverflowError]) so does the call, before any sub-batch. Otherwise the
    calls return, for every behaviour of the HTTP client: each sub-batch
    (identifier group, date sub-range) is gone through exactly once, in
    loop order, whatever the earlier outcomes, and its request is given to
    the HTTP client once; the records collected are the concatenation of
    what the sub-batches add (summed over the directions in bidirectional
    mode, the counts being 64-bit integers); a sub-batch whose request
    raised or was
    answered with a status other than 200 adds nothing; a reply with
    status 200 adds what the walk of its body appended, which on a body of
    the documented shape are all its records; and when all sub-batches
    fail the result is the empty list. *)
Theorem failed_batches_skipped {number : Type}
    (VIVACITY_CLASS_MAP : gmap string string)
    (strftime : datetime -> string) (base_url : string)
    (counts_client : exc (nat -> Request -> exc (Response CountsWire)))
    (speed_client : exc (nat -> Request -> exc (Response (SpeedWire number))))
    (countline_ids : list string) (start_time end_time : datetime)
    (time_bucket : string) (bidirectional : bool) :
  exists n outcome,
    (forall fuel, n <= fuel ->
       batch_date_range fuel start_time end_time 7 = Some outcome) /\
    match outcome with
    | Raise e =>
        e = "OverflowError" /\
        forall fuel, n <= fuel ->
          get_counts VIVACITY_CLASS_MAP strftime base_url counts_client fuel
            countline_ids start_time end_time time_bucket bidirectional =
            Some (Raise e) /\
          get_speed strftime base_url speed_client fuel
            countline_ids start_time end_time time_bucket = Some (Raise e)
    | Ok date_batches =>
        let count_requests :=
          requests strftime base_url "/countline/counts" time_bucket
            (id_batches countline_ids) date_batches in
        let speed_requests :=
          requests strftime base_url "/countline/speed" time_bucket
            (id_batches countline_ids) date_batches in
        let counts_added :=
          contribution counts_client (walk_counts VIVACITY_CLASS_MAP) in
        let speeds_added := contribution speed_client walk_speed in
        (forall fuel, n <= fuel ->
           (bidirectional = true ->
            Forall (fun r => Counts.int64 (Counts.count_of r))
                   (concat (imap counts_added count_requests))) ->
           get_counts VIVACITY_CLASS_MAP strftime base_url counts_client fuel
             countline_ids start_time end_time time_bucket bidirectional =
           Some (Ok (sent counts_client count_requests,
                     finish bidirectional
                       (concat (imap counts_added count_requests))))) /\
        (forall fuel, n <= fuel ->
           get_speed strftime base_url speed_client fuel
             countline_ids start_time end_time time_bucket =
           Some (Ok (sent speed_client speed_requests,
                     concat (imap speeds_added speed_requests)))) /\
        length count_requests =
          length (id_batches countline_ids) * length date_batches /\
        length speed_requests =
          length (id_batches countline_ids) * length date_batches /\
        (forall k req, failed counts_client k req -> counts_added k req = []) /\
        (forall k req, failed speed_client k req -> speeds_added k req = []) /\
        (forall get k req resp,
           counts_client = Ok get -> get k req = Ok resp ->
           status_code resp = 200%Z ->
           counts_added k req =
             match json resp with
             | Ok data => (walk_counts VIVACITY_CLASS_MAP data).1
             | Raise _ => []
             end) /\
        (forall get k req resp,
           speed_client = Ok get -> get k req = Ok resp ->
           status_code resp = 200%Z ->
           speeds_added k req =
             match json resp with
             | Ok data => (walk_speed data).1
             | Raise _ => []
             end) /\
        (forall data,
           walk_counts VIVACITY_CLASS_MAP (shaped_counts data) =
             (Counts.parse_counts VIVACITY_CLASS_MAP data, None)) /\
        (forall data : SpeedPayload number,
           walk_speed (shaped_speed data) = (parse_speed data, None)) /\
        ((forall k req, count_requests !! k = Some req ->
            failed counts_client k req) ->
         finish bidirectional (concat (imap counts_added count_requests)) = [])
        /\
        ((forall k req, speed_requests !! k = Some req ->
            failed speed_client k req) ->
         concat (imap speeds_added speed_requests) = [])
    end.
Proof.
  destruct (batch_date_range_ends start_time end_time 7)
    as (n & [date_batches|e] & Hrun & Hexc); [done| |].
  - exists n, (Ok date_batches). split; [done|]. cbv zeta.
    split; [|split; [|split; [|split; [|split; [|split; [|split;
      [|split; [|split; [|split; [|split]]]]]]]]]].
    + intros fuel Hfuel _. unfold get_counts.
      rewrite (Hrun fuel Hfuel). simpl. by rewrite fetch_batches_spec.
    + intros fuel Hfuel. unfold get_speed.
      rewrite (Hrun fuel Hfuel). simpl. by rewrite fetch_batches_spec.
    + apply requests_length.
    + apply requests_length.
    + intros k req. apply contribution_failed.
    + intros k req. apply contribution_failed.
    + intros get k req resp Hopen Hget Hstatus.
      destruct (json resp) as [data|e] eqn:Hjson.
      * by apply (contribution_ok _ _ get _ _ resp).
      * by apply (contribution_undecoded _ _ get _ _ resp e).
    + intros get k req resp Hopen Hget Hstatus.
      destruct (json resp) as [data|e] eqn:Hjson.
      * by apply (contribution_ok _ _ get _ _ resp).
      * by apply (contribution_undecoded _ _ get _ _ resp e).
    + apply walk_counts_shaped.
    + apply walk_speed_shaped.
    + intros Hfail. rewrite all_failed_nil by done. by destruct bidirectional.
    + intros Hfail. by apply all_failed_nil.
  - exists n, (Raise e). split; [done|]. split; [by apply Hexc|].
    intros fuel Hfuel. unfold get_counts, get_speed.
    by rewrite (Hrun fuel Hfuel).
Qed.

(** A run of [get_counts] over ten days for one identifier: the first
    request times out, the second is answered with a body whose second
    record is not a dict. *)
Module Run.

Definition body : CountsWire :=
  Shaped [("101",
           Shaped [Shaped (mkWire (Some "t0") (Some "t1")
                             (Shaped (Some [("car", Some 3%Z)]))
                             (Shaped None));
                   Misshapen "AttributeError"])].

Definition client : exc (nat -> Request -> exc (Response CountsWire)) :=
  Ok (fun n _ => if n =? 0 then Raise "timeout"
                 else Ok (mkResponse 200 (Ok body))).

End Run.

Lemma failed_batches_skipped_witness :
  exists n log, forall fuel, n <= fuel ->
    get_counts ∅ (fun _ => "2024-01-01T00:00:00Z")
      "https://api.vivacitylabs.com" Run.client fuel
      ["101"] 0%Z (timedelta 10) "1h" false =
    Some (Ok (log,
              [Counts.count_record "101" (Some "t0") (Some "t1") "clockwise"
                 "car" "car" 3])).
Proof.
  destruct (failed_batches_skipped (number := Z) ∅
              (fun _ => "2024-01-01T00:00:00Z") "https://api.vivacitylabs.com"
              Run.client (Raise "closed")
              ["101"] 0%Z (timedelta 10) "1h" false)
    as (n & outcome & Hsplit & Hcase).
  assert (outcome =
          Ok [mkBatch 0%Z (timedelta 7);
              mkBatch (timedelta 7) (timedelta 10)])
    as ->.
  { specialize (Hsplit (n + 3) ltac:(lia)).
    unfold batch_date_range in Hsplit.
    rewrite (batch_loop_mono 3 (n + 3) 0%Z (timedelta 10) 7%Z []
               (Ok [mkBatch 0%Z (timedelta 7);
                    mkBatch (timedelta 7) (timedelta 10)]))
      in Hsplit; [congruence | lia | reflexivity]. }
  destruct Hcase as (Hcounts & _).
  exists n. eexists. intros fuel Hfuel.
  rewrite (Hcounts fuel Hfuel) by discriminate. reflexivity.
Defined.

(** *** Calls that send nothing, and how many requests a call sends *)

Lemma fetch_batches_no_ids {P R : Type} strftime base_url
    (client : exc (nat -> Request -> exc (Response P))) endpoint
    (walk : P -> appended R) time_bucket date_batches :
  fetch_batches strftime base_url client endpoint walk time_bucket
    [] date_batches = ([], []).
Proof. done. Qed.

Lemma fetch_batches_no_dates {P R : Type} strftime base_url
    (client : exc (nat -> Request -> exc (Response P))) endpoint
    (walk : P -> appended R) time_bucket id_batches :
  fetch_batches strftime base_url client endpoint walk time_bucket
    id_batches [] = ([], []).
Proof.
  rewrite fetch_batches_spec. unfold requests.
  assert (list_prod id_batches (@nil DateBatch) = []) as ->;
    [by induction id_batches|].
  unfold sent. by destruct client.
Qed.

(** The seven-day split of a range that is empty, or that starts at a
    [datetime] and whose last sum is one, gives a list. *)
Lemma week_split_returns (start_time end_time : Z) :
  (end_time <= start_time)%Z \/
  (0 <= start_time)%Z /\ (last_sum start_time end_time 7 <= datetime_max)%Z ->
  exists n date_batches,
    (forall fuel, n <= fuel ->
       batch_date_range fuel start_time end_time 7 = Some (Ok date_batches)) /\
    ((end_time <= start_time)%Z -> date_batches = []) /\
    ((start_time < end_time)%Z ->
     Z.of_nat (length date_batches) =
       cdiv (end_time - start_time) (timedelta 7)).
Proof.
  intros Hfit.
  destruct (Z.lt_ge_cases start_time end_time) as [Hlt|Hge].
  - destruct Hfit as [?|[Hstart Hfit]]; [lia|].
    set (n := Z.to_nat (end_time - start_time)).
    destruct (batch_loop_returns n start_time end_time 7)
      as (bs & Hrun & _ & _ & Hlen & _);
      [done | done | unfold timedelta; subst n; nia | done |].
    exists (S n), bs. split; [|split; [lia | done]].
    intros fuel Hfuel. by apply (batch_loop_mono (S n)).
  - exists 1, []. split; [|split; [done | lia]].
    intros fuel Hfuel. apply (batch_loop_mono 1); [done|].
    by apply batch_loop_done.
Qed.

(** X11. A call with nothing to ask gives nothing to the HTTP client.
    With an empty or reversed time range ([end_time <= start_time]),
    [get_counts] (in either mode) and [get_speed] return the empty list.
    With an empty list of identifiers they return the empty list as well,
    unless the date range cannot be split: the split comes first, and its
    [OverflowError] leaves the call. *)
Theorem nothing_to_fetch {number : Type}
    (VIVACITY_CLASS_MAP : gmap string string)
    (strftime : datetime -> string) (base_url : string)
    (counts_client : exc (nat -> Request -> exc (Response CountsWire)))
    (speed_client : exc (nat -> Request -> exc (Response (SpeedWire number))))
    (countline_ids : list string) (start_time end_time : datetime)
    (time_bucket : string) (bidirectional : bool) :
  (end_time <= start_time)%Z \/ countline_ids = [] ->
  exists n counts speeds,
    (forall fuel, n <= fuel ->
       get_counts VIVACITY_CLASS_MAP strftime base_url counts_client fuel
         countline_ids start_time end_time time_bucket bidirectional =
         Some counts /\
       get_speed strftime base_url speed_client fuel
         countline_ids start_time end_time time_bucket = Some speeds) /\
    (counts = Ok ([], []) /\ speeds = Ok ([], []) \/
     (start_time < end_time)%Z /\
     counts = Raise "OverflowError" /\ speeds = Raise "OverflowError") /\
    ((end_time <= start_time)%Z \/
     (0 <= start_time)%Z /\
     (last_sum start_time end_time 7 <= datetime_max)%Z ->
     counts = Ok ([], []) /\ speeds = Ok ([], [])).
Proof.
  intros Hempty.
  destruct (batch_date_range_ends start_time end_time 7)
    as (n & [date_batches|e] & Hrun & Hexc); [done| |].
  - exists (S n), (Ok ([], [])), (Ok ([], [])).
    split; [|split; [by left | done]].
    intros fuel Hfuel. unfold get_counts, get_speed.
    rewrite (Hrun fuel) by lia. simpl.
    destruct Hempty as [Hrange| ->].
    + assert (date_batches = []) as ->.
      { specialize (Hrun (S n) ltac:(lia)). unfold batch_date_range in Hrun.
        rewrite batch_loop_done in Hrun by done. congruence. }
      rewrite !fetch_batches_no_dates. by destruct bidirectional.
    + change (id_batches []) with (@nil (list string)).
      rewrite !fetch_batches_no_ids. by destruct bidirectional.
  - rewrite (Hexc e eq_refl) in Hrun.
    exists (S n), (Raise "OverflowError"), (Raise "OverflowError").
    split; [|split].
    + intros fuel Hfuel. unfold get_counts, get_speed.
      by rewrite (Hrun fuel) by lia.
    + right. split; [|done].
      destruct (Z.lt_ge_cases start_time end_time) as [?|Hge]; [done|].
      specialize (Hrun (S n) ltac:(lia)). unfold batch_date_range in Hrun.
      rewrite batch_loop_done in Hrun by done. congruence.
    + intros Hfit.
      destruct (week_split_returns start_time end_time Hfit)
        as (m & date_batches & Hsplit & _).
      specialize (Hrun (S n + m) ltac:(lia)).
      rewrite (Hsplit (S n + m)) in Hrun by lia. discriminate Hrun.
Qed.

Lemma nothing_to_fetch_witness :
  ((timedelta 3 <= timedelta 5)%Z \/ ["101"] = []) /\
  exists n, forall fuel, n <= fuel ->
    get_counts ∅ (fun _ => "") "" (Ok (fun _ _ => Raise "unreachable")) fuel
      ["101"] (timedelta 5) (timedelta 3) "1h" true = Some (Ok ([], [])) /\
    get_speed (number := Z) (fun _ => "") ""
      (Ok (fun _ _ => Raise "unreachable"))
      fuel ["101"] (timedelta 5) (timedelta 3) "1h" = Some (Ok ([], [])).
Proof.
  assert ((timedelta 3 <= timedelta 5)%Z \/ ["101"] = []) as H
    by (left; discriminate).
  split; [exact H|].
  destruct (nothing_to_fetch (number := Z) ∅ (fun _ => "") ""
              (Ok (fun _ _ => Raise "unreachable"))
              (Ok (fun _ _ => Raise "unreachable"))
              ["101"] (timedelta 5) (timedelta 3) "1h" true H)
    as (n & counts & speeds & Hrun & _ & Hfit).
  destruct Hfit as [-> ->]; [left; discriminate|].
  by exists n.
Defined.

(** X12. For a non-empty range that can be split, [get_counts] gives the
    open HTTP client one request per pair of an identifier group and a
    date sub-range: [ceil(N / 50) * ceil((end_time - start_time) / 7 days)]
    requests in all, whatever the replies; without an open HTTP client it
    sends none. *)
Theorem get_counts_request_count
    (VIVACITY_CLASS_MAP : gmap string string)
    (strftime : datetime -> string) (base_url : string)
    (counts_client : exc (nat -> Request -> exc (Response CountsWire)))
    (countline_ids : list string) (start_time end_time : datetime)
    (time_bucket : string) (bidirectional : bool) :
  (0 <= start_time < end_time)%Z ->
  (last_sum start_time end_time 7 <= datetime_max)%Z ->
  exists n log result,
    (forall fuel, n <= fuel ->
       get_counts VIVACITY_CLASS_MAP strftime base_url counts_client fuel
         countline_ids start_time end_time time_bucket bidirectional =
       Some (Ok (log, result))) /\
    (forall get, counts_client = Ok get ->
       Z.of_nat (length log) =
         (Z.of_nat (ceil_div (length countline_ids) 50) *
          cdiv (end_time - start_time) (timedelta 7))%Z) /\
    (forall e, counts_client = Raise e -> log = []).
Proof.
  intros Hrange Hfit.
  destruct (week_split_returns start_time end_time)
    as (n & date_batches & Hrun & _ & Hlen); [right; split; [lia | done]|].
  eexists n, _, _. split; [|split].
  - intros fuel Hfuel. unfold get_counts.
    rewrite (Hrun fuel Hfuel). simpl. rewrite fetch_batches_spec. simpl.
    reflexivity.
  - intros get Hopen. unfold sent. rewrite Hopen.
    rewrite requests_length, Nat2Z.inj_mul, Hlen by lia.
    unfold id_batches. by rewrite chunks_length by lia.
  - intros e Hclosed. unfold sent. by rewrite Hclosed.
Qed.

Lemma get_counts_request_count_witness :
  (0 <= 0 < timedelta 15)%Z /\
  (last_sum 0 (timedelta 15) 7 <= datetime_max)%Z /\
  exists n log result,
    (forall fuel, n <= fuel ->
       get_counts ∅ (fun _ => "") "" (Ok (fun _ _ => Raise "timeout")) fuel
         (replicate 120 "7") 0%Z (timedelta 15) "1h" false =
       Some (Ok (log, result))) /\
    Z.of_nat (length log) = 9%Z.
Proof.
  assert (0 <= 0 < timedelta 15)%Z as Hrange by done.
  assert (last_sum 0 (timedelta 15) 7 <= datetime_max)%Z as Hfit
    by discriminate.
  split; [exact Hrange|]. split; [exact Hfit|].
  destruct (get_counts_request_count ∅ (fun _ => "") ""
              (Ok (fun _ _ => Raise "timeout")) (replicate 120 "7") 0%Z
              (timedelta 15) "1h" false Hrange Hfit)
    as (n & log & result & Hrun & Hopen & _).
  exists n, log, result. split; [exact Hrun|].
  exact (Hopen _ eq_refl).
Defined.

(** X19. The two modes of [get_counts] agree. For the same client they
    end the same way, with the [OverflowError] of the split in both or
    with a result in both; they give the HTTP client the same requests;
    the aggregated result has at most as many rows as there are
    directional records; the 64-bit sum of the aggregated counts is that
    of the directional records that have their bucket bounds; and when no
    count is negative, the counts add up to less than [2^63] and every
    record has its bucket bounds, both results add up to the same total. *)
Theorem get_counts_modes_agree
    (VIVACITY_CLASS_MAP : gmap string string)
    (strftime : datetime -> string) (base_url : string)
    (counts_client : exc (nat -> Request -> exc (Response CountsWire)))
    (countline_ids : list string) (start_time end_time : datetime)
    (time_bucket : string) :
  exists n directional summed,
    (forall fuel, n <= fuel ->
       get_counts VIVACITY_CLASS_MAP strftime base_url counts_client fuel
         countline_ids start_time end_time time_bucket false =
         Some directional /\
       get_counts VIVACITY_CLASS_MAP strftime base_url counts_client fuel
         countline_ids start_time end_time time_bucket true =
         Some summed) /\
    match directional, summed with
    | Raise e, Raise e' => e = "OverflowError" /\ e' = "OverflowError"
    | Ok (log, all_records), Ok (log', rows) =>
        log = log' /\
        length rows <= length all_records /\
        (Forall (fun r => Counts.int64 (Counts.count_of r)) all_records ->
         Counts.sum_counts rows =
           Counts.sum_counts
             (filter (fun r => is_Some (Counts.group_key r)) all_records)) /\
        (Forall (fun r => 0 <= Counts.count_of r)%Z all_records ->
         (Counts.total all_records < 9223372036854775808)%Z ->
         Forall (fun r => is_Some (Counts.group_key r)) all_records ->
         Counts.total rows = Counts.total all_records)
    | _, _ => False
    end.
Proof.
  destruct (batch_date_range_ends start_time end_time 7)
    as (n & [date_batches|e] & Hrun & Hexc); [done| |].
  - set (st := fetch_batches strftime base_url counts_client
                 "/countline/counts" (walk_counts VIVACITY_CLASS_MAP)
                 time_bucket (id_batches countline_ids) date_batches).
    exists n, (Ok (st.1, st.2)),
      (Ok (st.1, Counts.aggregate_directions st.2)).
    split; [|split; [done|split; [|split]]].
    + intros fuel Hfuel. unfold get_counts. by rewrite (Hrun fuel Hfuel).
    + rewrite Counts.aggregate_directions_groupby. unfold Frames.groupby.
      rewrite length_fmap. apply Frames.group_keys_length.
    + intros _. apply Counts.sum_counts_aggregate.
    + intros Hpos Hsmall Hall.
      by rewrite Counts.total_aggregate_exact, Counts.filter_all.
  - exists n, (Raise e), (Raise e). split.
    + intros fuel Hfuel. unfold get_counts. by rewrite (Hrun fuel Hfuel).
    + by rewrite (Hexc e eq_refl).
Qed.

End Fetch.

(** ** client.py: joining the daily speed onto the counts *)

Module Traffic.
Import Except Batching Counts Fetch.

Section traffic.
Context {number Timestamp : Type}.
(** [pd.to_datetime] on a column: it raises when a value of the column
    cannot be read as a time; otherwise it gives one timestamp per row,
    [None] being [NaT]. *)
Context (to_datetime : list value -> exc (list (option Timestamp))).
(** [.dt.date], as the number of the day. *)
Context (date : Timestamp -> Z).
(** The mean of a non-empty list of numbers. *)
Context (mean : list number -> number).

(** A row of the frame returned: the columns [timestamp], [sensor_id],
    [mode], [count], [v85], [region], [source]. *)
Record TrafficRow := mkRow {
  row_timestamp : option Timestamp;
  sensor_id : value;
  mode : value;
  count : value;
  v85 : option number;
  region : string;
  source : string
}.

Definition cell (r : record) (column : string) : value :=
  default VNone (r !! column).

(** The row made from a record and the timestamp of its row. *)
Definition traffic_row (region_name : string) (r : record)
    (timestamp : option Timestamp) : TrafficRow :=
  mkRow timestamp (cell r "countline_id") (cell r "mode") (cell r "count")
        None region_name "vivacity".

(** [fetch_region_traffic] with [bidirectional=True], from the records
    [get_counts] returned: no record gives the empty frame, before any
    conversion; otherwise the [timestamp] column is converted, which may
    raise. *)
Definition region_traffic (counts : list record) (region_name : string)
    : exc (list TrafficRow) :=
  match counts with
  | [] => Ok []
  | _ =>
      match to_datetime ((fun r => cell r "timestamp") <$> counts) with
      | Ok timestamps =>
          Ok (zip_with (traffic_row region_name) counts timestamps)
      | Raise e => Raise e
      end
  end.

(** [speed_df] with its [date] column:
    [pd.to_datetime(speed_df["from"]).dt.date]. *)
Definition speed_frame (speed_records : list (SpeedRecord number))
    : exc (list (SpeedRecord number * option Z)) :=
  match to_datetime ((fun s => of_opt (sp_from s)) <$> speed_records) with
  | Ok timestamps =>
      Ok (zip speed_records
            ((fun t : option Timestamp => date <$> t) <$> timestamps))
  | Raise e => Raise e
  end.

(** The key of [groupby(["sensor_id", "date"])]. *)
Definition speed_key (row : SpeedRecord number * option Z)
    : option (string * Z) :=
  day ← row.2; Some (sp_countline_id row.1, day).

Definition pair_leb (k1 k2 : string * Z) : bool :=
  if decide (k1.1 = k2.1) then (k1.2 <=? k2.2)%Z else String.leb k1.1 k2.1.

Definition pair_le (k1 k2 : string * Z) : Prop := pair_leb k1 k2.

#[local] Instance pair_le_dec : RelDecision pair_le.
Proof. intros k1 k2. unfold pair_le. apply _. Defined.

(** [.agg({"p85_speed": "mean"})]: the mean of the values that are not
    null, null when there is none. *)
Definition mean_skipna (values : list (option number)) : option number :=
  match omap id values with
  | [] => None
  | x :: xs => Some (mean (x :: xs))
  end.

Definition speed_daily (speed_df : list (SpeedRecord number * option Z))
    : list (string * Z * option number) :=
  Frames.groupby pair_le speed_key
    (fun k rows => (k, mean_skipna ((fun row => p85_speed row.1) <$> rows)))
    speed_df.

(** [df["date"]] and the key of the merge. *)
Definition row_key (row : TrafficRow) : option (value * Z) :=
  ts ← row_timestamp row; Some (sensor_id row, date ts).

(** [df.merge(right, on=["sensor_id", "date"], how="left")]: each left
    row with each right row of its key, or once with a null when the key
    is not on the right. *)
Definition merge_left (df : list TrafficRow)
    (right : list (string * Z * option number))
    : list (TrafficRow * option number) :=
  flat_map (fun row =>
    match filter (fun r => row_key row = Some (VStr r.1.1, r.1.2)) right with
    | [] => [(row, None)]
    | matches => (fun r => (row, r.2)) <$> matches
    end) df.

(** [df.loc[df["mode"] == "car", "v85"] = df.loc[..., "p85_speed"]],
    then the two helper columns are dropped. *)
Definition set_v85 (joined : TrafficRow * option number) : TrafficRow :=
  let '(row, p85) := joined in
  if decide (mode row = VStr "car")
  then mkRow (row_timestamp row) (sensor_id row) (mode row) (count row)
             p85 (region row) (source row)
  else row.

(** The [if speed_records:] block. *)
Definition join_speed (df : list TrafficRow)
    (speed_records : list (SpeedRecord number)) : exc (list TrafficRow) :=
  match speed_records with
  | [] => Ok df
  | _ =>
      match speed_frame speed_records with
      | Ok speed_df => Ok (set_v85 <$> merge_left df (speed_daily speed_df))
      | Raise e => Raise e
      end
  end.

Context (VIVACITY_CLASS_MAP : gmap string string).
Context (strftime : datetime -> string) (base_url : string).
Context (counts_client : exc (nat -> Request -> exc (Response CountsWire))).
Context (speed_client :
  exc (nat -> Request -> exc (Response (SpeedWire number)))).

(** [fetch_region_traffic] with the default [bidirectional=True]. *)
Definition fetch_region_traffic (fuel : nat)
    (countline_ids : list string) (start_time end_time : datetime)
    (region_name time_bucket : string) : option (exc (list TrafficRow)) :=
  counts ← get_counts VIVACITY_CLASS_MAP strftime base_url counts_client fuel
             countline_ids start_time end_time time_bucket true;
  match counts with
  | Ok counts => Some (region_traffic counts.2 region_name)
  | Raise e => Some (Raise e)
  end.

Definition fetch_region_traffic_with_speed (fuel : nat)
    (countline_ids : list string) (start_time end_time : datetime)
    (region_name time_bucket : string) : option (exc (list TrafficRow)) :=
  df ← fetch_region_traffic fuel countline_ids start_time end_time
         region_name time_bucket;
  match df with
  | Raise e => Some (Raise e)
  | Ok [] => Some (Ok [])
  | Ok df =>
      speed_records ← get_speed strftime base_url speed_client fuel
                        countline_ids start_time end_time "24h";
      match speed_records with
      | Ok speed_records => Some (join_speed df speed_records.2)
      | Raise e => Some (Raise e)
      end
  end.
End traffic.

(** *** The joined column *)

Section join_facts.
Context {number Timestamp : Type}.
Context (date : Timestamp -> Z).
Context (mean : list number -> number).

Abbreviation speed_daily := (speed_daily mean).
Abbreviation mean_skipna := (mean_skipna mean).
Abbreviation row_key := (row_key date).

(** The speed entries of one sensor and day. *)
Definition entries (speed_df : list (SpeedRecord number * option Z))
    (sensor : string) (day : Z) : list (SpeedRecord number) :=
  fst <$> filter (fun row => speed_key row = Some (sensor, day)) speed_df.

Lemma filter_none {A} (P : A -> Prop) `{forall x, Decision (P x)} (l : list A) :
  (forall x, ~ P x) -> filter P l = [].
Proof.
  intros Hno. induction l as [|x l IH]; [done|].
  by rewrite filter_cons_False.
Qed.

(** The daily frame has at most one row per sensor and day. *)
Lemma speed_daily_key speed_df sensor day :
  filter (fun r : string * Z * option number => Some r.1 = Some (sensor, day))
         (speed_daily speed_df) =
  match entries speed_df sensor day with
  | [] => []
  | l => [((sensor, day), mean_skipna (p85_speed <$> l))]
  end.
Proof.
  unfold speed_daily, Traffic.speed_daily, entries.
  rewrite (Frames.filter_groupby pair_le speed_key
             (fun k rows => (k, mean_skipna ((fun row => p85_speed row.1) <$> rows)))
             (fun r : string * Z * option number => Some r.1)) by done.
  unfold Frames.group_rows.
  destruct (filter _ speed_df) as [|row rows]; [done|].
  rewrite !fmap_cons. cbv iota.
  by rewrite <- list_fmap_compose.
Qed.

(** What the merge attaches to a row. *)
Definition daily_p85 (speed_df : list (SpeedRecord number * option Z))
    (row : @TrafficRow number Timestamp) : option number :=
  match row_key row with
  | Some (VStr sensor, day) =>
      mean_skipna (p85_speed <$> entries speed_df sensor day)
  | _ => None
  end.

Lemma merge_left_rows df speed_df :
  merge_left date df (speed_daily speed_df) =
  (fun row => (row, daily_p85 speed_df row)) <$> df.
Proof.
  induction df as [|row df IH]; [done|].
  unfold merge_left in *. rewrite Counts.flat_map_step, IH, fmap_cons.
  change (?a :: ?l) with ([a] ++ l) at 2. f_equal.
  unfold daily_p85.
  destruct (row_key row) as [[sensor day]|] eqn:Hkey.
  - destruct sensor as [|sensor|n].
    + by rewrite filter_none.
    + rewrite (list_filter_iff _
        (fun r : string * Z * option number => Some r.1 = Some (sensor, day))).
      * rewrite speed_daily_key.
        by destruct (entries speed_df sensor day).
      * intros [[s d] p]. simpl. split; intros [=]; by subst.
    + by rewrite filter_none.
  - by rewrite filter_none.
Qed.

(** The rows after the join, when there are speed records. *)
Lemma joined_lookup df speed_df i row :
  df !! i = Some row ->
  (set_v85 <$> merge_left date df (speed_daily speed_df)) !! i =
  Some (set_v85 (row, daily_p85 speed_df row)).
Proof.
  intros Hrow.
  by rewrite merge_left_rows, <- list_fmap_compose, list_lookup_fmap, Hrow.
Qed.

Lemma joined_length df speed_df :
  length (set_v85 <$> merge_left date df (speed_daily speed_df)) = length df.
Proof. by rewrite merge_left_rows, <- list_fmap_compose, length_fmap. Qed.

(** What the join leaves in a row: everything but [v85] as it was, a null
    [v85] for a mode other than car, and for a car the mean of the day. *)
Lemma set_v85_row speed_df (row : @TrafficRow number Timestamp) :
  v85 row = None ->
  let out := set_v85 (row, daily_p85 speed_df row) in
  row_timestamp out = row_timestamp row /\
  sensor_id out = sensor_id row /\ mode out = mode row /\
  count out = count row /\
  (mode out <> VStr "car" -> v85 out = None) /\
  (mode out = VStr "car" ->
   forall sensor ts,
     sensor_id row = VStr sensor -> row_timestamp row = Some ts ->
     v85 out = mean_skipna (p85_speed <$> entries speed_df sensor (date ts))).
Proof.
  intros Hnull. unfold set_v85.
  destruct (decide (mode row = VStr "car")) as [Hcar|Hcar]; simpl.
  - do 4 (split; [done|]). split; [by intros []|].
    intros _ sensor ts Hsensor Hts.
    unfold daily_p85, Traffic.row_key. by rewrite Hts, Hsensor.
  - do 4 (split; [done|]). split; [done|]. by intros Hc.
Qed.
End join_facts.

(** *** The rows of the two frames *)

Section rows.
Context {number Timestamp : Type}.
Context (to_datetime : list value -> exc (list (option Timestamp))).
Context (date : Timestamp -> Z).
Context (mean : list number -> number).
(** [pd.to_datetime] gives a column as long as the one it is given. *)
Hypothesis to_datetime_length : forall column timestamps,
  to_datetime column = Ok timestamps -> length timestamps = length column.

(** The frame of [fetch_region_traffic]: one row per record, in order,
    each with a null [v85]. *)
Lemma region_traffic_rows (counts : list record) (region_name : string)
    (df : list (@TrafficRow number Timestamp)) :
  region_traffic to_datetime counts region_name = Ok df ->
  length df = length counts /\
  Forall (fun row => v85 row = None) df /\
  (counts <> [] ->
   exists timestamps,
     to_datetime ((fun r => cell r "timestamp") <$> counts) = Ok timestamps /\
     forall i r, counts !! i = Some r ->
       exists t, timestamps !! i = Some t /\
                 df !! i = Some (traffic_row region_name r t)).
Proof.
  unfold region_traffic. destruct counts as [|r0 counts].
  { intros [= <-]. by repeat split. }
  destruct (to_datetime _) as [timestamps|e] eqn:Hts; [|done].
  intros Hdf.
  assert (df = zip_with (traffic_row region_name) (r0 :: counts) timestamps)
    as -> by congruence.
  clear Hdf. apply to_datetime_length in Hts.
  rewrite length_fmap in Hts. split; [|split].
  - by rewrite length_zip_with_l_eq.
  - apply Forall_forall. intros row Hrow.
    apply list_elem_of_lookup in Hrow as (i & Hi).
    apply lookup_zip_with_Some in Hi as (r & t & -> & _ & _). done.
  - intros _. exists timestamps. split; [done|]. intros i r Hr.
    destruct (lookup_lt_is_Some_2 timestamps i) as [t Ht].
    { rewrite Hts. by eapply lookup_lt_Some. }
    exists t. split; [done|].
    apply lookup_zip_with_Some. by exists r, t.
Qed.

(** The frame after the [if speed_records:] block. *)
Lemma join_speed_rows (df : list (@TrafficRow number Timestamp))
    (speed_records : list (SpeedRecord number)) out :
  Forall (fun row => v85 row = None) df ->
  join_speed to_datetime date mean df speed_records = Ok out ->
  exists speed_df,
    (speed_records = [] -> speed_df = []) /\
    (speed_records <> [] ->
     speed_frame to_datetime date speed_records = Ok speed_df) /\
    length out = length df /\
    forall i row, df !! i = Some row ->
      out !! i = Some (match speed_records with
                       | [] => row
                       | _ => set_v85 (row, daily_p85 date mean speed_df row)
                       end).
Proof.
  intros Hnull. unfold join_speed.
  destruct speed_records as [|s ss].
  { intros [= <-]. exists []. by repeat split. }
  destruct (speed_frame _ _ _) as [speed_df|e]; [|done].
  intros [= <-]. exists speed_df. split; [done|]. split; [done|].
  split; [apply joined_length|]. intros i row. apply joined_lookup.
Qed.
End rows.

(** C9. [fetch_region_traffic_with_speed] always ends. It raises only
    where the code has no [try]: when the date range cannot be split, or
    when [pd.to_datetime] refuses the timestamps of the counts or the
    bucket starts of the speed records. Otherwise its output has one row
    per record of [get_counts], in the same order and with the same
    sensor, mode and count. A row whose mode is not ["car"] has a null
    [v85]; a row whose mode is ["car"] has as [v85] the mean of the
    85th-percentile speeds of the speed entries of its sensor and of the
    day of its timestamp (null when no such entry has a speed). *)
Theorem speed_join_car_only {number Timestamp : Type}
    (to_datetime : list value -> exc (list (option Timestamp)))
    (date : Timestamp -> Z) (mean : list number -> number)
    (VIVACITY_CLASS_MAP : gmap string string)
    (strftime : datetime -> string) (base_url : string)
    (counts_client : exc (nat -> Request -> exc (Response CountsWire)))
    (speed_client : exc (nat -> Request -> exc (Response (SpeedWire number))))
    (countline_ids : list string) (start_time end_time : datetime)
    (region_name time_bucket : string) :
  (forall column timestamps,
     to_datetime column = Ok timestamps ->
     length timestamps = length column) ->
  exists n result,
    (forall fuel, n <= fuel ->
       fetch_region_traffic_with_speed to_datetime date mean
         VIVACITY_CLASS_MAP strftime base_url counts_client speed_client fuel
         countline_ids start_time end_time region_name time_bucket =
       Some result) /\
    match result with
    | Ok out =>
        exists count_log counts speed_df,
          (forall fuel, n <= fuel ->
             get_counts VIVACITY_CLASS_MAP strftime base_url counts_client
               fuel countline_ids start_time end_time time_bucket true =
             Some (Ok (count_log, counts))) /\
          (counts <> [] ->
           exists speed_log speed_records,
             (forall fuel, n <= fuel ->
                get_speed strftime base_url speed_client fuel
                  countline_ids start_time end_time "24h" =
                Some (Ok (speed_log, speed_records))) /\
             (speed_records = [] -> speed_df = []) /\
             (speed_records <> [] ->
              speed_frame to_datetime date speed_records = Ok speed_df)) /\
          length out = length counts /\
          exists timestamps,
            (counts <> [] ->
             to_datetime ((fun r => cell r "timestamp") <$> counts) =
               Ok timestamps) /\
            forall i r, counts !! i = Some r ->
              exists row,
                out !! i = Some row /\
                timestamps !! i = Some (row_timestamp row) /\
                sensor_id row = cell r "countline_id" /\
                mode row = cell r "mode" /\
                count row = cell r "count" /\
                (mode row <> VStr "car" -> v85 row = None) /\
                (mode row = VStr "car" ->
                 forall sensor ts,
                   cell r "countline_id" = VStr sensor ->
                   row_timestamp row = Some ts ->
                   v85 row =
                   mean_skipna mean
                     (p85_speed <$> entries speed_df sensor (date ts)))
    | Raise e =>
        (forall fuel, n <= fuel ->
           batch_date_range fuel start_time end_time 7 = Some (Raise e)) \/
        exists count_log counts,
          (forall fuel, n <= fuel ->
             get_counts VIVACITY_CLASS_MAP strftime base_url counts_client
               fuel countline_ids start_time end_time time_bucket true =
             Some (Ok (count_log, counts))) /\
          counts <> [] /\
          (to_datetime ((fun r => cell r "timestamp") <$> counts) = Raise e \/
           exists speed_log speed_records,
             (forall fuel, n <= fuel ->
                get_speed strftime base_url speed_client fuel
                  countline_ids start_time end_time "24h" =
                Some (Ok (speed_log, speed_records))) /\
             speed_records <> [] /\
             to_datetime ((fun s => of_opt (sp_from s)) <$> speed_records) =
               Raise e)
    end.
Proof.
  intros Hlength.
  destruct (batch_date_range_ends start_time end_time 7)
    as (n & [date_batches|e] & Hrun & Hexc); [done| |]; cycle 1.
  { exists n, (Raise e). split; [|by left].
    intros fuel Hfuel.
    unfold fetch_region_traffic_with_speed, fetch_region_traffic, get_counts.
    by rewrite (Hrun fuel Hfuel). }
  set (st_c := fetch_batches strftime base_url counts_client
                 "/countline/counts" (walk_counts VIVACITY_CLASS_MAP)
                 time_bucket (id_batches countline_ids) date_batches).
  set (counts := aggregate_directions st_c.2).
  destruct (fetch_batches strftime base_url speed_client "/countline/speed"
              walk_speed "24h" (id_batches countline_ids) date_batches)
    as [speed_log speed_records] eqn:Hst_s.
  assert (forall fuel, n <= fuel ->
            get_counts VIVACITY_CLASS_MAP strftime base_url counts_client
              fuel countline_ids start_time end_time time_bucket true =
            Some (Ok (st_c.1, counts))) as Hcounts.
  { intros fuel Hfuel. unfold get_counts. by rewrite (Hrun fuel Hfuel). }
  assert (forall fuel, n <= fuel ->
            get_speed strftime base_url speed_client fuel
              countline_ids start_time end_time "24h" =
            Some (Ok (speed_log, speed_records))) as Hspeed.
  { intros fuel Hfuel. unfold get_speed. rewrite (Hrun fuel Hfuel). simpl.
    by rewrite Hst_s. }
  destruct (region_traffic (number := number) to_datetime counts region_name)
    as [df|e] eqn:Hdf.
  - destruct (region_traffic_rows to_datetime Hlength _ _ _ Hdf)
      as (Hlen & Hnull & Hrows).
    destruct df as [|row0 df'] eqn:Edf.
    + exists n, (Ok []). split.
      * intros fuel Hfuel.
        unfold fetch_region_traffic_with_speed, fetch_region_traffic.
        rewrite (Hcounts fuel Hfuel). simpl. by rewrite Hdf.
      * exists st_c.1, counts, []. split; [done|].
        assert (counts = []) as Hnone
          by (destruct counts; [done | discriminate Hlen]).
        split; [done|]. split; [done|]. exists []. split; [done|].
        intros i r. by rewrite Hnone.
    + rewrite <- Edf in *.
      assert (counts <> []) as Hsome
        by (intros E; rewrite E, Edf in Hlen; discriminate Hlen).
      destruct (Hrows Hsome) as (timestamps & Hts & Hrow).
      destruct (join_speed to_datetime date mean df speed_records)
        as [out|e] eqn:Hjoin.
      * exists n, (Ok out). split.
        { intros fuel Hfuel.
          unfold fetch_region_traffic_with_speed, fetch_region_traffic.
          rewrite (Hcounts fuel Hfuel). simpl. rewrite Hdf, Edf, <- Edf.
          rewrite (Hspeed fuel Hfuel). simpl. by rewrite Hjoin. }
        destruct (join_speed_rows to_datetime date mean df speed_records out
                    Hnull Hjoin) as (speed_df & Hnil & Hframe & Hlen' & Hout).
        exists st_c.1, counts, speed_df. split; [done|]. split.
        { intros _. by exists speed_log, speed_records. }
        split; [by rewrite Hlen'|]. exists timestamps. split; [done|].
        intros i r Hr. destruct (Hrow i r Hr) as (t & Ht & Hdfi).
        specialize (Hout i _ Hdfi).
        destruct speed_records as [|s ss].
        -- rewrite (Hnil eq_refl). eexists. split; [exact Hout|].
           by repeat split.
        -- eexists. split; [exact Hout|].
           pose proof (set_v85_row date mean speed_df
                         (traffic_row region_name r t) eq_refl)
             as (Hsame & Hid & Hmode & Hcount & Hother & Hcar).
           split; [by rewrite Hsame|].
           split; [done|]. split; [done|]. split; [done|]. split; [done|].
           intros Hc sensor ts Hsensor Htime. apply Hcar; [done | done |].
           by rewrite Hsame in Htime.
      * exists n, (Raise e). split.
        { intros fuel Hfuel.
          unfold fetch_region_traffic_with_speed, fetch_region_traffic.
          rewrite (Hcounts fuel Hfuel). simpl. rewrite Hdf, Edf, <- Edf.
          rewrite (Hspeed fuel Hfuel). simpl. by rewrite Hjoin. }
        right. exists st_c.1, counts. split; [done|]. split; [done|].
        right. exists speed_log, speed_records. split; [done|].
        unfold join_speed, speed_frame in Hjoin.
        destruct speed_records as [|s ss]; [done|]. split; [done|].
        revert Hjoin.
        destruct (to_datetime ((fun s0 => of_opt (sp_from s0)) <$> s :: ss))
          as [ts|e']; simpl; [discriminate|].
        by intros [= ->].
  - exists n, (Raise e). split.
    + intros fuel Hfuel.
      unfold fetch_region_traffic_with_speed, fetch_region_traffic.
      rewrite (Hcounts fuel Hfuel). simpl. by rewrite Hdf.
    + right. exists st_c.1, counts. split; [done|].
      unfold region_traffic in Hdf.
      destruct counts as [|r0 rest]; [done|]. split; [done|]. left.
      revert Hdf.
      destruct (to_datetime ((fun r => cell r "timestamp") <$> r0 :: rest))
        as [ts|e']; simpl; [discriminate|].
      by intros [= ->].
Qed.

(** A run with one sensor and one day: a car counted in both directions,
    a pedestrian in one, and two speed entries for the day. *)
Module Sample.

Definition to_datetime (column : list value) : exc (list (option Z)) :=
  Ok ((fun v => match v with
                | VStr (String _ _) => Some 19723%Z
                | _ => None
                end) <$> column).

Definition mean (values : list Z) : Z :=
  (foldr Z.add 0 values / Z.of_nat (length values))%Z.

Definition counts_client : exc (nat -> Request -> exc (Response CountsWire)) :=
  Ok (fun _ _ =>
    Ok (mkResponse 200
          (Ok (shaped_counts
                 [("7",
                   [mkRaw (Some "2024-01-01T08:00:00Z")
                      (Some "2024-01-01T09:00:00Z")
                      (Some [("car", Some 3%Z); ("pedestrian", Some 2%Z);
                             ("total", Some 5%Z)])
                      (Some [("car", Some 5%Z); ("total", Some 5%Z)])])])))).

Definition speed_client : exc (nat -> Request -> exc (Response (SpeedWire Z))) :=
  Ok (fun _ _ =>
    Ok (mkResponse 200
          (Ok (shaped_speed
                 [("7",
                   [mkRawSpeed (Some "2024-01-01T00:00:00Z") None None None
                      (Some 30%Z) None;
                    mkRawSpeed (Some "2024-01-01T12:00:00Z") None None None
                      (Some 50%Z) None])])))).

Definition run (speed : exc (nat -> Request -> exc (Response (SpeedWire Z))))
    (fuel : nat) : option (exc (list (@TrafficRow Z Z))) :=
  fetch_region_traffic_with_speed to_datetime id mean
    {[ "car" := "car" ]} (fun _ => "2024-01-01T00:00:00Z") "" counts_client
    speed fuel ["7"] 0%Z (timedelta 1) "wyca" "1h".

Lemma to_datetime_length column timestamps :
  to_datetime column = Ok timestamps -> length timestamps = length column.
Proof. intros [= <-]. by rewrite length_fmap. Qed.

End Sample.

Lemma speed_join_car_only_witness :
  (forall column timestamps,
     Sample.to_datetime column = Ok timestamps ->
     length timestamps = length column) /\
  exists n out,
    (forall fuel, n <= fuel ->
       Sample.run Sample.speed_client fuel = Some (Ok out)) /\
    (exists car_row,
       out !! 0 = Some car_row /\ mode car_row = VStr "car" /\
       count car_row = VInt 8 /\ v85 car_row = Some 40%Z) /\
    (exists other_row,
       out !! 1 = Some other_row /\ mode other_row = VStr "pedestrian" /\
       v85 other_row = None).
Proof.
  split; [exact Sample.to_datetime_length|].
  destruct (speed_join_car_only Sample.to_datetime id Sample.mean
              {[ "car" := "car" ]} (fun _ => "2024-01-01T00:00:00Z") ""
              Sample.counts_client Sample.speed_client ["7"] 0%Z (timedelta 1)
              "wyca" "1h" Sample.to_datetime_length)
    as (n & result & Hrun & _).
  pose proof (Hrun (S (S n)) ltac:(lia)) as Hout.
  vm_compute in Hout. injection Hout as <-.
  eexists n, _. split; [exact Hrun|]. split.
  - eexists. split; [reflexivity|]. by repeat split.
  - eexists. split; [reflexivity|]. by repeat split.
Defined.

(** The rows of [fetch_region_traffic] all have a null [v85]. *)
Lemma region_traffic_v85 {number Timestamp : Type}
    (to_datetime : list value -> exc (list (option Timestamp)))
    (counts : list record) (region_name : string)
    (df : list (@TrafficRow number Timestamp)) :
  region_traffic to_datetime counts region_name = Ok df ->
  Forall (fun row => v85 row = None) df.
Proof.
  unfold region_traffic. destruct counts as [|r0 counts].
  { by intros [= <-]. }
  destruct (to_datetime _) as [timestamps|e]; [|done].
  intros Hdf.
  assert (df = zip_with (traffic_row region_name) (r0 :: counts) timestamps)
    as -> by congruence.
  apply Forall_forall. intros row Hrow.
  apply list_elem_of_lookup in Hrow as (i & Hi).
  apply lookup_zip_with_Some in Hi as (r & t & -> & _ & _). done.
Qed.

(** X13. Without speed data the counts are still returned: when every
    speed request fails, [fetch_region_traffic_with_speed] ends exactly as
    [fetch_region_traffic] does, with the same exception or with the same
    rows, unchanged, each with a null [v85], cars included. *)
Theorem no_speed_data_keeps_counts {number Timestamp : Type}
    (to_datetime : list value -> exc (list (option Timestamp)))
    (date : Timestamp -> Z) (mean : list number -> number)
    (VIVACITY_CLASS_MAP : gmap string string)
    (strftime : datetime -> string) (base_url : string)
    (counts_client : exc (nat -> Request -> exc (Response CountsWire)))
    (speed_client : exc (nat -> Request -> exc (Response (SpeedWire number))))
    (countline_ids : list string) (start_time end_time : datetime)
    (region_name time_bucket : string) :
  (forall k req, failed speed_client k req) ->
  exists n result,
    (forall fuel, n <= fuel ->
       fetch_region_traffic to_datetime VIVACITY_CLASS_MAP strftime base_url
         counts_client fuel countline_ids start_time end_time region_name
         time_bucket = Some result /\
       fetch_region_traffic_with_speed to_datetime date mean
         VIVACITY_CLASS_MAP strftime base_url counts_client speed_client fuel
         countline_ids start_time end_time region_name time_bucket =
         Some result) /\
    (forall out : list (@TrafficRow number Timestamp),
       result = Ok out -> Forall (fun row => v85 row = None) out).
Proof.
  intros Hfail.
  destruct (batch_date_range_ends start_time end_time 7)
    as (n & [date_batches|e] & Hrun & Hexc); [done| |]; cycle 1.
  { exists n, (Raise e). split; [|done]. intros fuel Hfuel.
    unfold fetch_region_traffic_with_speed, fetch_region_traffic, get_counts.
    by rewrite (Hrun fuel Hfuel). }
  set (st_c := fetch_batches strftime base_url counts_client
                 "/countline/counts" (walk_counts VIVACITY_CLASS_MAP)
                 time_bucket (id_batches countline_ids) date_batches).
  exists n, (region_traffic to_datetime (aggregate_directions st_c.2)
               region_name).
  split; [|intros out; apply region_traffic_v85].
  intros fuel Hfuel.
  unfold fetch_region_traffic_with_speed, fetch_region_traffic, get_counts,
    get_speed.
  rewrite (Hrun fuel Hfuel). simpl. fold st_c. split; [done|].
  destruct (region_traffic _ _ _) as [[|row df]|e]; [done| |done].
  rewrite fetch_batches_spec. simpl.
  by rewrite all_failed_nil by (intros; apply Hfail).
Qed.

Lemma no_speed_data_keeps_counts_witness :
  (forall k req,
     failed (P := SpeedWire Z) (Ok (fun _ _ => Raise "timeout")) k req) /\
  exists n out,
    (forall fuel, n <= fuel ->
       Sample.run (Ok (fun _ _ => Raise "timeout")) fuel = Some (Ok out)) /\
    length out = 2 /\
    Forall (fun row => v85 row = None) out.
Proof.
  assert (forall k req,
            failed (P := SpeedWire Z) (Ok (fun _ _ => Raise "timeout")) k req)
    as Hfail by (intros k req; exact I).
  split; [exact Hfail|].
  destruct (no_speed_data_keeps_counts Sample.to_datetime id Sample.mean
              {[ "car" := "car" ]} (fun _ => "2024-01-01T00:00:00Z") ""
              Sample.counts_client (Ok (fun _ _ => Raise "timeout"))
              ["7"] 0%Z (timedelta 1) "wyca" "1h" Hfail)
    as (n & result & Hrun & Hnull).
  pose proof (proj2 (Hrun (S (S n)) ltac:(lia))) as Hout.
  vm_compute in Hout. injection Hout as <-.
  eexists n, _. split; [intros fuel Hfuel; exact (proj2 (Hrun fuel Hfuel))|].
  split; [reflexivity|]. by apply Hnull.
Defined.

End Traffic.

(** ** client.py: the client object and the metadata calls *)

Module Client.
Import Except Batching Fetch.

(** A key of a JSON object: absent, null, or holding a value. *)
Inductive field (A : Type) : Type :=
  | Absent
  | Null
  | Value (a : A).
Arguments Absent {A}.
Arguments Null {A}.
Arguments Value {A} a.

(** [item.get(key)] and [item.get(key, default)]; [None] is Python's
    [None]. *)
Definition get {A} (f : field A) : option A :=
  match f with
  | Value a => Some a
  | _ => None
  end.

Definition get_default {A} (f : field A) (default : A) : option A :=
  match f with
  | Absent => Some default
  | Null => None
  | Value a => Some a
  end.

(** [os.getenv(name)] on the items of [os.environ]. *)
Definition getenv (environ : list (string * string)) (name : string)
    : option string :=
  (list_to_map environ : gmap string string) !! name.

(** The name simplification of [get_countline_metadata]:
    ["_".join(parts[:2]) if len(parts) >= 2 else name]. *)
Definition simplify_name (name : string) : string :=
  let parts := Names.split_on "_" name in
  if 2 <=? length parts then Names.join "_" (take 2 parts) else name.

Section client.
Context {Timeout Http Json : Type}.
(** [httpx.AsyncClient(timeout=..., headers=...)]. *)
Context (AsyncClient : Timeout -> list (string * string) -> Http).
(** The status codes [resp.raise_for_status()] raises for. *)
Context (is_error_status : Z -> bool).

Record VivacityClient := mkClient {
  region_code : string;
  api_key : string;
  base_url : string;
  timeout : Timeout;
  headers : list (string * string);
  _client : option Http
}.

(** [VivacityClient(region_code, api_key, base_url, timeout)]; the
    exception raised is a [ValueError]. *)
Definition init (environ : list (string * string)) (region_code : string)
    (api_key : option string) (base_url : string) (timeout : Timeout)
    : exc VivacityClient :=
  let api_key :=
    if Names.truthy api_key then api_key
    else getenv environ ("VIVACITY_" +:+ Names.upper region_code) in
  if negb (Names.truthy api_key) then
    let available :=
      filter (fun k => Names.starts_with "VIVACITY_" k = true /\
                       k ∉ ["VIVACITY_BASE_URL"; "VIVACITY_TIMEOUT"])
             environ.*1 in
    Raise ("No Vivacity API key configured for region '" +:+ region_code +:+
           "'. " +:+
           "Set VIVACITY_" +:+ Names.upper region_code +:+
           " environment variable. " +:+
           "Available env vars: " +:+ Names.join ", " available)
  else
    let key := default "" api_key in
    Ok (mkClient (Names.lower region_code) key base_url timeout
          [("x-vivacity-api-key", key); ("User-Agent", "VivacityPy/1.0")]
          None).

(** [__aenter__] and [__aexit__]. *)
Definition aenter (self : VivacityClient) : VivacityClient :=
  mkClient (region_code self) (api_key self) (base_url self) (timeout self)
    (headers self) (Some (AsyncClient (timeout self) (headers self))).

Definition aexit (self : VivacityClient) : VivacityClient :=
  match _client self with
  | Some _ =>
      mkClient (region_code self) (api_key self) (base_url self)
        (timeout self) (headers self) None
  | None => self
  end.

(** The property [client]; the exception raised is a [RuntimeError]. *)
Definition client (self : VivacityClient) : exc Http :=
  match _client self with
  | None => Raise "VivacityClient must be used as async context manager"
  | Some http => Ok http
  end.

(** [self.client.get(url, params=params)]: the property is read first,
    then the open client [http] sends the request. *)
Definition client_get {P} (send : Http -> nat -> Request -> exc (Response P))
    (self : VivacityClient) (n : nat) (req : Request) : exc (Response P) :=
  http ← client self; send http n req.

(** [resp.raise_for_status()]. *)
Definition raise_for_status {P} (resp : Response P) : exc unit :=
  if is_error_status (status_code resp) then Raise "HTTPStatusError"
  else Ok tt.

(** *** get_countline_metadata *)

Record GeoJson := mkGeoJson { gj_coordinates : field (list Json) }.
Record Geometry := mkGeometry { g_geo_json : field GeoJson }.

Record CountlineItem := mkCountlineItem {
  ci_name : field string;
  ci_description : field string;
  ci_is_speed : field bool;
  ci_geometry : field Geometry;
  ci_hardware_id : field Json;
  ci_viewpoint_id : field Json
}.

(** The dict [{"type": "LineString", "coordinates": ...}]. *)
Record LineString := mkLineString {
  ls_type : string;
  ls_coordinates : list Json
}.

Record Countline := mkCountline {
  cl_id : string;
  cl_name : string;
  cl_sensor_name : string;
  cl_description : option string;
  cl_is_speed : option bool;
  cl_geometry : option LineString;
  cl_hardware_id : option Json;
  cl_viewpoint_id : option Json
}.

(** The geometry of an item: present when the item has a geometry with a
    [geo_json] whose coordinates are a non-empty list. *)
Definition item_geometry (item : CountlineItem) : option LineString :=
  match get (ci_geometry item) ≫= (fun g => get (g_geo_json g)) with
  | Some geo_json =>
      match get (gj_coordinates geo_json) with
      | Some (c :: cs) => Some (mkLineString "LineString" (c :: cs))
      | _ => None
      end
  | None => None
  end.

(** The body of the loop over [data.items()]; a null name has no [split]
    and raises an [AttributeError]. *)
Definition countline_entry (entry : string * CountlineItem) : exc Countline :=
  let '(countline_id, item) := entry in
  let geometry := item_geometry item in
  match get_default (ci_name item) "" with
  | None => Raise "AttributeError: 'NoneType' object has no attribute 'split'"
  | Some name =>
      Ok (mkCountline countline_id name (simplify_name name)
            (get_default (ci_description item) "")
            (get_default (ci_is_speed item) false)
            geometry (get (ci_hardware_id item)) (get (ci_viewpoint_id item)))
  end.

Definition get_countline_metadata
    (send : Http -> nat -> Request -> exc (Response (list (string * CountlineItem))))
    (self : VivacityClient) : exc (list Countline) :=
  resp ← client_get send self 0
           (mkRequest (base_url self +:+ "/countline/metadata") []);
  _ ← raise_for_status resp;
  data ← json resp;
  mapM countline_entry data.

(** *** get_hardware_metadata *)

Record HardwareItem := mkHardwareItem {
  hi_name : field Json;
  hi_lat : field Json;
  hi_long : field Json;
  hi_project_name : field Json;
  hi_hardware_version : field Json
}.

Record Hardware := mkHardware {
  hw_id : string;
  hw_name : option Json;
  hw_lat : option Json;
  hw_lon : option Json;
  hw_project_name : option Json;
  hw_hardware_version : option Json
}.

Definition hardware_entry (entry : string * HardwareItem) : Hardware :=
  let '(hw_id, item) := entry in
  mkHardware hw_id (get (hi_name item)) (get (hi_lat item))
    (get (hi_long item)) (get (hi_project_name item))
    (get (hi_hardware_version item)).

Definition get_hardware_metadata
    (send : Http -> nat -> Request -> exc (Response (list (string * HardwareItem))))
    (self : VivacityClient) : exc (list Hardware) :=
  resp ← client_get send self 0
           (mkRequest (base_url self +:+ "/hardware/metadata") []);
  _ ← raise_for_status resp;
  data ← json resp;
  Ok (map hardware_entry data).

(** *** get_counts and get_speed as methods *)

Context {number : Type}.
Context (VIVACITY_CLASS_MAP : gmap string string).
Context (strftime : datetime -> string).
Context (send_counts : Http -> nat -> Request -> exc (Response CountsWire)).
Context (send_speed :
  Http -> nat -> Request -> exc (Response (SpeedWire number))).

(** [self.client] as the loops of [get_counts] and [get_speed] read it:
    the open HTTP client with its [get], or the exception of the
    property. *)
Definition open_client {P} (send : Http -> nat -> Request -> exc (Response P))
    (self : VivacityClient) : exc (nat -> Request -> exc (Response P)) :=
  match client self with
  | Ok http => Ok (send http)
  | Raise e => Raise e
  end.

Definition get_counts (self : VivacityClient) (fuel : nat)
    (countline_ids : list string) (start_time end_time : datetime)
    (time_bucket : string) (bidirectional : bool)
    : option (exc (list Request * list Counts.record)) :=
  Fetch.get_counts VIVACITY_CLASS_MAP strftime (base_url self)
    (open_client send_counts self) fuel countline_ids start_time end_time
    time_bucket bidirectional.

Definition get_speed (self : VivacityClient) (fuel : nat)
    (countline_ids : list string) (start_time end_time : datetime)
    (time_bucket : string)
    : option (exc (list Request * list (SpeedRecord number))) :=
  Fetch.get_speed strftime (base_url self) (open_client send_speed self)
    fuel countline_ids start_time end_time time_bucket.

End client.

(** *** The simplified sensor name *)

Lemma simplify_name_fields (name : string) :
  simplify_name name =
  match Names.after_first name with
  | Some rest =>
      Names.first_field name +:+ String "_" (Names.first_field rest)
  | None => name
  end.
Proof.
  unfold simplify_name, Names.split_on.
  rewrite Names.split_fields_fields.
  destruct (Names.after_first name) as [rest|]; [|done].
  by rewrite Names.split_fields_fields.
Qed.

Lemma simplify_name_empty (name : string) :
  simplify_name name = "" <-> name = "".
Proof.
  rewrite simplify_name_fields.
  destruct (Names.after_first name) as [rest|] eqn:E; [|done].
  split.
  - by destruct (Names.first_field name).
  - intros ->. done.
Qed.

Lemma simplify_name_camera (name : string) :
  Names.camera_id_of (Names.extract_camera_id (Some (simplify_name name))) =
    Names.camera_id_of (Names.extract_camera_id (Some name)) /\
  Names.cordon_name_of (Names.extract_camera_id (Some (simplify_name name))) =
    Names.cordon_name_of (Names.extract_camera_id (Some name)) /\
  Names.road_name_of (Names.extract_camera_id (Some (simplify_name name))) =
    Names.road_name_of (Names.extract_camera_id (Some name)).
Proof.
  destruct (decide (name = "")) as [->|Hne]; [done|].
  assert (simplify_name name <> "") as Hne' by (by rewrite simplify_name_empty).
  apply Names.extract_camera_id_same_fields; try done;
    rewrite simplify_name_fields;
    destruct (Names.after_first name) as [rest|] eqn:E; try done.
  - apply Names.first_field_app, Names.first_field_no_underscore.
  - rewrite Names.after_first_app by apply Names.first_field_no_underscore.
    simpl. f_equal.
    destruct (Names.after_first (Names.first_field rest)) eqn:E'.
    + pose proof (Names.first_field_no_underscore rest) as Hno.
      rewrite (Names.fields_rejoin _ _ E') in Hno.
      clear -Hno. exfalso.
      induction (Names.first_field (Names.first_field rest)) as [|c t IH];
        simpl in Hno; [done|].
      apply andb_true_iff in Hno as [_ Hno]. by apply IH.
    + by apply Names.first_field_whole.
  - by rewrite E.
Qed.

(** X14. The simplified sensor name keeps at most the first two
    underscore-separated fields of the name: it is a prefix of the name, it
    is the name itself when the name has at most two fields, and
    simplifying twice changes nothing. *)
Theorem simplify_name_prefix (name : string) :
  (exists tail, name = simplify_name name +:+ tail) /\
  length (Names.split_on "_" (simplify_name name)) <= 2 /\
  (length (Names.split_on "_" name) <= 2 -> simplify_name name = name) /\
  simplify_name (simplify_name name) = simplify_name name.
Proof.
  assert (forall r, Names.after_first (Names.first_field r) = None) as Hff.
  { intros r. induction r as [|c t IH]; simpl; [done|].
    destruct (Ascii.eqb c "_") eqn:E; [done|]. simpl. by rewrite E. }
  rewrite !simplify_name_fields.
  destruct (Names.after_first name) as [rest|] eqn:E.
  - rewrite Names.after_first_app by apply Names.first_field_no_underscore.
    rewrite Names.first_field_app by apply Names.first_field_no_underscore.
    rewrite (Names.first_field_whole (Names.first_field rest)) by apply Hff.
    split; [|split; [|split; [|done]]].
    + destruct (Names.first_field_prefix rest) as [tail Hrest].
      exists tail.
      transitivity (Names.first_field name +:+
                    String "_" (Names.first_field rest +:+ tail)).
      * rewrite <- Hrest. by apply Names.fields_rejoin.
      * by rewrite Names.app_assoc.
    + unfold Names.split_on. rewrite Names.split_fields_fields.
      rewrite Names.after_first_app by apply Names.first_field_no_underscore.
      rewrite Names.split_fields_fields, Hff. simpl. lia.
    + unfold Names.split_on. rewrite Names.split_fields_fields, E.
      destruct (Names.after_first rest) as [rest'|] eqn:E'.
      * rewrite Names.split_fields_fields, E'.
        rewrite Names.split_fields_fields. simpl.
        destruct (Names.after_first rest'); simpl; lia.
      * intros _. rewrite (Names.first_field_whole rest E').
        symmetry. by apply Names.fields_rejoin.
  - rewrite E. split; [|split; [|done]].
    + exists "". by rewrite Names.app_nil_r.
    + unfold Names.split_on. rewrite Names.split_fields_fields, E. simpl. lia.
Qed.

Lemma simplify_name_prefix_witness :
  length (Names.split_on "_" "S40_WoodhouseLn") <= 2 /\
  simplify_name "S40_WoodhouseLn" = "S40_WoodhouseLn" /\
  simplify_name "S40_WoodhouseLn_pathLHS_wyca001" = "S40_WoodhouseLn".
Proof.
  assert (length (Names.split_on "_" "S40_WoodhouseLn") <= 2) as Hlen
    by (vm_compute; lia).
  split; [exact Hlen|].
  split; [|by vm_compute].
  exact (proj1 (proj2 (proj2 (simplify_name_prefix "S40_WoodhouseLn"))) Hlen).
Defined.

(** *** The metadata calls *)

Section metadata_facts.
Context {Timeout Http Json : Type}.
Context (AsyncClient : Timeout -> list (string * string) -> Http).
Context (is_error_status : Z -> bool).

Abbreviation Item := (@CountlineItem Json).
Abbreviation Entry := (@Countline Json).
Abbreviation Self := (@VivacityClient Timeout Http).

Lemma mapM_cons_exc {A B} (f : A -> exc B) (x : A) (l : list A) :
  mapM f (x :: l) =
  match f x with
  | Ok y => match mapM f l with
            | Ok k => Ok (y :: k)
            | Raise e => Raise e
            end
  | Raise e => Raise e
  end.
Proof. simpl. unfold mbind, exc_bind. by destruct (f x). Qed.

Lemma mapM_entries (data : list (string * Item)) (entries : list Entry) :
  mapM countline_entry data = Ok entries ->
  Forall2 (fun e c => countline_entry e = Ok c) data entries.
Proof.
  revert entries. induction data as [|e data IH]; intros entries.
  - intros [= <-]. constructor.
  - rewrite mapM_cons_exc.
    destruct (countline_entry e) as [c|msg] eqn:Hc; [|done].
    destruct (mapM countline_entry data) as [k|msg]; [|done].
    intros [= <-]. constructor; [done | by apply IH].
Qed.

Lemma mapM_entries_ok (data : list (string * Item)) :
  Forall (fun e => ci_name e.2 <> Null) data ->
  exists entries : list Entry, mapM countline_entry data = Ok entries.
Proof.
  induction 1 as [|[id item] data Hname _ [entries IH]]; [by eexists|].
  rewrite mapM_cons_exc, IH. unfold countline_entry. simpl in Hname.
  destruct (ci_name item); [by eexists | done | by eexists].
Qed.

Lemma mapM_entries_null (data : list (string * Item)) :
  Exists (fun e => ci_name e.2 = Null) data ->
  exists msg, @mapM exc _ _ _ Entry countline_entry data = Raise msg.
Proof.
  induction 1 as [[id item] data Hname|e data _ [msg IH]].
  - rewrite mapM_cons_exc. unfold countline_entry. simpl in Hname.
    rewrite Hname. by eexists.
  - rewrite mapM_cons_exc, IH.
    destruct (countline_entry e); by eexists.
Qed.

Lemma entries_facts (data : list (string * Item)) (entries : list Entry) :
  Forall2 (fun e c => countline_entry e = Ok c) data entries ->
  cl_id <$> entries = data.*1 /\
  Forall2 (fun e c => get_default (ci_name e.2) "" = Some (cl_name c))
          data entries /\
  Forall (fun c =>
    cl_sensor_name c = simplify_name (cl_name c) /\
    Names.camera_id_of (Names.extract_camera_id (Some (cl_sensor_name c))) =
      Names.camera_id_of (Names.extract_camera_id (Some (cl_name c))) /\
    Names.cordon_name_of (Names.extract_camera_id (Some (cl_sensor_name c))) =
      Names.cordon_name_of (Names.extract_camera_id (Some (cl_name c))) /\
    Names.road_name_of (Names.extract_camera_id (Some (cl_sensor_name c))) =
      Names.road_name_of (Names.extract_camera_id (Some (cl_name c))))
    entries.
Proof.
  induction 1 as [|[id item] c data entries Hc _ (IHid & IHname & IHcam)].
  - by repeat split.
  - unfold countline_entry in Hc.
    destruct (get_default (ci_name item) "") as [name|] eqn:E; [|done].
    injection Hc as <-. split; [|split].
    + rewrite !fmap_cons. by f_equal.
    + by constructor.
    + constructor; [|done]. simpl. split; [done|].
      apply simplify_name_camera.
Qed.

(** X15. On a successful reply [get_countline_metadata] returns one entry
    per countline of the payload, in the payload's order and with the
    payload's keys as ids, provided no name is null: an absent name is read
    as the empty string, while a single null name makes the whole call
    raise. Each entry's sensor name is the simplified name, and it names the
    same camera as the full name: [extract_camera_id] gives both the same
    camera id, cordon name and road name. *)
Theorem get_countline_metadata_entries
    (send : Http -> nat -> Request -> exc (Response (list (string * Item))))
    (self : Self) (http : Http) (resp : Response (list (string * Item)))
    (data : list (string * Item)) :
  client self = Ok http ->
  send http 0 (mkRequest (base_url self +:+ "/countline/metadata") []) = Ok resp ->
  is_error_status (status_code resp) = false ->
  json resp = Ok data ->
  (Exists (fun e => ci_name e.2 = Null) data ->
   exists msg, get_countline_metadata is_error_status send self = Raise msg) /\
  (Forall (fun e => ci_name e.2 <> Null) data ->
   exists entries,
     get_countline_metadata is_error_status send self = Ok entries /\
     cl_id <$> entries = data.*1 /\
     Forall2 (fun e c => get_default (ci_name e.2) "" = Some (cl_name c))
             data entries /\
     Forall (fun c =>
       cl_sensor_name c = simplify_name (cl_name c) /\
       Names.camera_id_of (Names.extract_camera_id (Some (cl_sensor_name c))) =
         Names.camera_id_of (Names.extract_camera_id (Some (cl_name c))) /\
       Names.cordon_name_of (Names.extract_camera_id (Some (cl_sensor_name c))) =
         Names.cordon_name_of (Names.extract_camera_id (Some (cl_name c))) /\
       Names.road_name_of (Names.extract_camera_id (Some (cl_sensor_name c))) =
         Names.road_name_of (Names.extract_camera_id (Some (cl_name c))))
       entries).
Proof.
  intros Hclient Hsend Hstatus Hjson.
  assert (get_countline_metadata is_error_status send self =
          mapM countline_entry data) as ->.
  { unfold get_countline_metadata, client_get, raise_for_status.
    rewrite Hclient. simpl. rewrite Hsend. simpl.
    rewrite Hstatus. simpl. by rewrite Hjson. }
  split; [apply mapM_entries_null|].
  intros Hnames. destruct (mapM_entries_ok data Hnames) as [entries Hrun].
  exists entries. split; [done|].
  by apply entries_facts, mapM_entries.
Qed.

End metadata_facts.

Lemma get_countline_metadata_entries_witness :
  let item : @CountlineItem unit :=
    mkCountlineItem (Value "S40_WoodhouseLn_road_wyca001") Absent Absent
      Absent Absent Absent in
  let self : @VivacityClient unit unit :=
    mkClient "wyca" "k" "https://api.vivacitylabs.com" tt [] (Some tt) in
  let resp := mkResponse 200 (Ok [("101", item)]) in
  exists entries,
    get_countline_metadata (fun z => negb (z =? 200)%Z)
      (fun _ _ _ => Ok resp) self = Ok entries /\
    cl_id <$> entries = ["101"] /\
    cl_sensor_name <$> entries = ["S40_WoodhouseLn"].
Proof.
  intros item self resp.
  destruct (get_countline_metadata_entries (fun z => negb (z =? 200)%Z)
              (fun _ _ _ => Ok resp) self tt resp [("101", item)]
              eq_refl eq_refl eq_refl eq_refl) as [_ Hok].
  destruct Hok as (entries & Hrun & Hids & _ & _).
  { by repeat constructor. }
  exists entries. split; [exact Hrun|]. split; [exact Hids|].
  vm_compute in Hrun. by injection Hrun as <-.
Defined.

(** *** Construction and the life of the HTTP client *)

Definition closed_message : string :=
  "VivacityClient must be used as async context manager".

(** X16. For a region code of ASCII characters, construction finds the
    API key in the argument first and in the environment variable
    [VIVACITY_<REGION>] (region in upper case) second; an empty string
    counts as no key in both places. It succeeds exactly when one of the
    two gives a non-empty key; the client made has the region in lower
    case, the key in its header and no open HTTP client. ASCII regions
    that differ only in letter case give the same client. *)
Theorem init_api_key {Timeout Http : Type}
    (environ : list (string * string)) (region : string)
    (key_arg : option string) (url : string) (seconds : Timeout) :
  Names.is_ascii region = true ->
  match @init Timeout Http environ region key_arg url seconds with
  | Ok self =>
      api_key self <> "" /\
      (Names.truthy key_arg = true -> key_arg = Some (api_key self)) /\
      (Names.truthy key_arg = false ->
       getenv environ ("VIVACITY_" +:+ Names.upper region) =
         Some (api_key self)) /\
      region_code self = Names.lower region /\
      base_url self = url /\ timeout self = seconds /\
      headers self = [("x-vivacity-api-key", api_key self);
                      ("User-Agent", "VivacityPy/1.0")] /\
      client self = Raise closed_message
  | Raise _ =>
      Names.truthy key_arg = false /\
      Names.truthy (getenv environ ("VIVACITY_" +:+ Names.upper region)) =
        false
  end /\
  (forall region' self,
     Names.is_ascii region' = true ->
     Names.lower region' = Names.lower region ->
     @init Timeout Http environ region key_arg url seconds = Ok self ->
     init environ region' key_arg url seconds = Ok self).
Proof.
  intros _. split.
  - unfold init. destruct (Names.truthy key_arg) eqn:Harg.
    + rewrite Harg. simpl.
      destruct key_arg as [[|c k]|]; first [done | by repeat split].
    + destruct (getenv environ _) as [[|c k]|] eqn:Henv;
        first [done | by repeat split].
  - intros region' self _ Hcase.
    assert (Names.upper region' = Names.upper region) as Hup
      by (by rewrite <- (Names.upper_lower region'), Hcase, Names.upper_lower).
    unfold init. rewrite Hup, Hcase.
    by destruct (Names.truthy (if Names.truthy key_arg then key_arg
                               else getenv environ _)).
Qed.

Lemma init_api_key_witness :
  let environ := [("HOME", "/root"); ("VIVACITY_WYCA", "secret")] in
  Names.is_ascii "wyca" = true /\ Names.is_ascii "WYCA" = true /\
  Names.lower "WYCA" = Names.lower "wyca" /\
  exists self,
    @init unit unit environ "wyca" (Some "") "https://api" tt = Ok self /\
    api_key self = "secret" /\
    init environ "WYCA" (Some "") "https://api" tt = Ok self.
Proof.
  intros environ.
  assert (Names.lower "WYCA" = Names.lower "wyca") as Hcase by reflexivity.
  split; [reflexivity|]. split; [reflexivity|]. split; [exact Hcase|].
  eexists. split; [reflexivity|]. split; [reflexivity|].
  apply (proj2 (init_api_key environ "wyca" (Some "") "https://api" tt
                  eq_refl) "WYCA" _ eq_refl Hcase).
  reflexivity.
Defined.

Section closed_client.
Context {Timeout Http Json number : Type}.
Context (AsyncClient : Timeout -> list (string * string) -> Http).
Context (is_error_status : Z -> bool).
Context (VIVACITY_CLASS_MAP : gmap string string).
Context (strftime : datetime -> string).
Context (send_counts : Http -> nat -> Request -> exc (Response CountsWire)).
Context (send_speed :
  Http -> nat -> Request -> exc (Response (SpeedWire number))).
Context (send_countlines :
  Http -> nat -> Request -> exc (Response (list (string * @CountlineItem Json)))).
Context (send_hardware :
  Http -> nat -> Request -> exc (Response (list (string * @HardwareItem Json)))).

(** X17. Inside [async with] the HTTP client is the one made from the
    timeout and the headers; after it, and before it, there is none. A
    client used outside [async with] behaves in two ways: the metadata
    calls raise the [RuntimeError] of the [client] property, while
    [get_counts] and [get_speed] catch it in every sub-batch: they give
    no request to any HTTP client and return an empty list, unless the
    date range cannot be split, which raises [OverflowError] as it does
    for an open client. *)
Theorem closed_client (self : @VivacityClient Timeout Http)
    (countline_ids : list string) (start_time end_time : datetime)
    (time_bucket : string) (bidirectional : bool) :
  client (aenter AsyncClient self) =
    Ok (AsyncClient (timeout self) (headers self)) /\
  client (aexit (aenter AsyncClient self)) = Raise closed_message /\
  (_client self = None ->
   get_countline_metadata is_error_status send_countlines self =
     Raise closed_message /\
   get_hardware_metadata is_error_status send_hardware self =
     Raise closed_message /\
   exists n counts speeds,
     (forall fuel, n <= fuel ->
        get_counts VIVACITY_CLASS_MAP strftime send_counts self fuel
          countline_ids start_time end_time time_bucket bidirectional =
          Some counts /\
        get_speed strftime send_speed self fuel
          countline_ids start_time end_time time_bucket = Some speeds) /\
     (counts = Ok ([], []) /\ speeds = Ok ([], []) \/
      counts = Raise "OverflowError" /\ speeds = Raise "OverflowError") /\
     ((end_time <= start_time)%Z \/
      (0 <= start_time)%Z /\
      (last_sum start_time end_time 7 <= datetime_max)%Z ->
      counts = Ok ([], []) /\ speeds = Ok ([], []))).
Proof.
  split; [done|]. split; [done|]. intros Hclosed.
  split; [|split].
  - unfold get_countline_metadata, client_get, client. by rewrite Hclosed.
  - unfold get_hardware_metadata, client_get, client. by rewrite Hclosed.
  - assert (forall P (send : Http -> nat -> Request -> exc (Response P)),
              open_client send self = Raise closed_message) as Hnone.
    { intros P send. unfold open_client, client. by rewrite Hclosed. }
    destruct (batch_date_range_ends start_time end_time 7)
      as (n & [date_batches|e] & Hrun & Hexc); [done| |].
    + exists n, (Ok ([], [])), (Ok ([], [])). split; [|split; [by left|done]].
      intros fuel Hfuel.
      unfold get_counts, get_speed, Fetch.get_counts, Fetch.get_speed.
      rewrite (Hrun fuel Hfuel). simpl.
      rewrite !(fetch_batches_closed _ _ _ _ _ closed_message) by apply Hnone.
      split; [|done]. by destruct bidirectional.
    + rewrite (Hexc e eq_refl) in Hrun.
      exists n, (Raise "OverflowError"), (Raise "OverflowError").
      split; [|split; [by right|]].
      * intros fuel Hfuel.
        unfold get_counts, get_speed, Fetch.get_counts, Fetch.get_speed.
        by rewrite (Hrun fuel Hfuel).
      * intros Hfit.
        destruct (week_split_returns start_time end_time Hfit)
          as (m & date_batches & Hsplit & _).
        specialize (Hrun (n + m) ltac:(lia)).
        rewrite (Hsplit (n + m)) in Hrun by lia. discriminate Hrun.
Qed.

(** X18. The metadata calls do not swallow a failed request: when the open
    client raises, or when [raise_for_status] rejects the status of the
    reply, the call raises; on an accepted reply [get_hardware_metadata]
    returns one entry per item of the payload, in order, with the payload's
    keys as ids and the payload's [long] as [lon]. *)
Theorem metadata_failures_raise (self : @VivacityClient Timeout Http)
    (http : Http) :
  client self = Ok http ->
  (forall e,
     send_countlines http 0
       (mkRequest (base_url self +:+ "/countline/metadata") []) = Raise e ->
     get_countline_metadata is_error_status send_countlines self = Raise e) /\
  (forall resp,
     send_countlines http 0
       (mkRequest (base_url self +:+ "/countline/metadata") []) = Ok resp ->
     is_error_status (status_code resp) = true ->
     get_countline_metadata is_error_status send_countlines self =
       Raise "HTTPStatusError") /\
  (forall e,
     send_hardware http 0
       (mkRequest (base_url self +:+ "/hardware/metadata") []) = Raise e ->
     get_hardware_metadata is_error_status send_hardware self = Raise e) /\
  (forall resp,
     send_hardware http 0
       (mkRequest (base_url self +:+ "/hardware/metadata") []) = Ok resp ->
     is_error_status (status_code resp) = true ->
     get_hardware_metadata is_error_status send_hardware self =
       Raise "HTTPStatusError") /\
  (forall resp data,
     send_hardware http 0
       (mkRequest (base_url self +:+ "/hardware/metadata") []) = Ok resp ->
     is_error_status (status_code resp) = false ->
     json resp = Ok data ->
     exists entries,
       get_hardware_metadata is_error_status send_hardware self = Ok entries /\
       hw_id <$> entries = data.*1 /\
       hw_lon <$> entries = (fun e => get (hi_long e.2)) <$> data).
Proof.
  intros Hopen.
  unfold get_countline_metadata, get_hardware_metadata, client_get,
    raise_for_status.
  rewrite Hopen. simpl.
  split; [|split; [|split; [|split]]].
  - by intros e ->.
  - intros resp -> Hstatus. simpl. by rewrite Hstatus.
  - by intros e ->.
  - intros resp -> Hstatus. simpl. by rewrite Hstatus.
  - intros resp data -> Hstatus Hjson. simpl. rewrite Hstatus. simpl.
    rewrite Hjson. simpl. eexists. split; [done|]. clear Hjson.
    split; induction data as [|[id item] data IH]; simpl; by f_equal.
Qed.

End closed_client.

Lemma closed_client_witness :
  let self : @VivacityClient unit unit :=
    aexit (aenter (fun _ _ => tt)
             (mkClient "wyca" "secret" "https://api" tt [] None)) in
  _client self = None /\
  @get_countline_metadata unit unit unit (fun _ => false)
    (fun _ _ _ => Raise "unused") self = Raise closed_message /\
  exists n, forall fuel, n <= fuel ->
    @get_counts unit unit ∅ (fun _ => "") (fun _ _ _ => Raise "unused")
      self fuel ["101"] 0%Z (timedelta 1) "1h" true = Some (Ok ([], [])).
Proof.
  intros self.
  assert (_client self = None) as Hclosed by reflexivity.
  split; [exact Hclosed|].
  destruct (closed_client (number := unit) (Json := unit) (fun _ _ => tt)
              (fun _ => false) ∅ (fun _ => "")
              (fun _ _ _ => Raise "unused") (fun _ _ _ => Raise "unused")
              (fun _ _ _ => Raise "unused") (fun _ _ _ => Raise "unused")
              self ["101"] 0%Z (timedelta 1) "1h" true)
    as (_ & _ & Hrest).
  destruct (Hrest Hclosed) as (Hmeta & _ & n & counts & speeds & Hrun & _ & Hfit).
  split; [exact Hmeta|].
  destruct Hfit as [-> _]; [right; split; [done | discriminate]|].
  exists n. intros fuel Hfuel. exact (proj1 (Hrun fuel Hfuel)).
Defined.

Lemma metadata_failures_raise_witness :
  let self : @VivacityClient unit unit :=
    mkClient "wyca" "secret" "https://api" tt [] (Some tt) in
  let resp : Response (list (string * @HardwareItem Z)) :=
    mkResponse 200
      (Ok [("hw1", mkHardwareItem Absent (Value 53%Z) (Value (-1)%Z) Null Absent)]) in
  client self = Ok tt /\
  exists entries,
    @get_hardware_metadata unit unit Z (fun z => negb (z =? 200)%Z)
      (fun _ _ _ => Ok resp) self = Ok entries /\
    hw_id <$> entries = ["hw1"] /\
    hw_lon <$> entries = [Some (-1)%Z].
Proof.
  intros self resp. split; [reflexivity|].
  destruct (metadata_failures_raise (Json := Z) (fun z => negb (z =? 200)%Z)
              (fun _ _ _ => Raise "unused") (fun _ _ _ => Ok resp)
              self tt eq_refl) as (_ & _ & _ & _ & Hok).
  exact (Hok resp _ eq_refl eq_refl eq_refl).
Defined.

End Client.
